(** * three-dimensions: snapping, construction plane and dimension builders

    A shallow embedding of the TypeScript sources
      - [src/utils/geometry.ts]      (closest point on a segment),
      - [src/SnappingManager.ts]     (feature snapping),
      - [src/DimensionRenderer.ts]   (linear, angle and leader builders),
      - [src/DimensionSystem.ts]     (interaction state machine, construction plane),
      - [demo/main.ts]               (the mode switch wired to the GUI),
    together with the handful of three.js operations these call.

    Numbers.  JavaScript numbers are IEEE doubles; here every [number] is a
    real of [R], so [+], [*], [/], [Math.sqrt], [Math.acos], [Math.cos] are
    the exact operations.  Comparisons of the source ([<], [===], the
    truthiness test of [x || 1]) become the decidable order and equality of
    [R].  Rounding, overflow and NaN have no counterpart in this model.

    Objects.  three.js objects that the source allocates ([Vector3], [Line],
    [Sprite], [Group], ...) are values; two freshly built objects are compared
    by content.  The ray cast of [THREE.Raycaster] is outside the repository:
    its answer (the picking ray and the sorted list of intersections) is an
    input of the operations that call it. *)

From Stdlib Require Import Reals Lra Lia List String Bool Arith Sorted.
Import ListNotations.
Open Scope R_scope.

(* ===================================================================== *)
(** ** three.js: Vector3, Matrix4, Line3, Plane, Ray, Quaternion          *)
(* ===================================================================== *)

Record Vector3 : Type := V3 { vx : R; vy : R; vz : R }.

Module Vec.

(** [new THREE.Vector3()] *)
Definition zero : Vector3 := V3 0 0 0.

Definition add (a b : Vector3) : Vector3 :=
  V3 (vx a + vx b) (vy a + vy b) (vz a + vz b).

(** [a.sub(b)], [new Vector3().subVectors(a, b)] *)
Definition sub (a b : Vector3) : Vector3 :=
  V3 (vx a - vx b) (vy a - vy b) (vz a - vz b).

Definition multiplyScalar (a : Vector3) (s : R) : Vector3 :=
  V3 (vx a * s) (vy a * s) (vz a * s).

(** [divideScalar(s) { return this.multiplyScalar(1 / s) }] *)
Definition divideScalar (a : Vector3) (s : R) : Vector3 :=
  multiplyScalar a (1 / s).

Definition negate (a : Vector3) : Vector3 := V3 (- vx a) (- vy a) (- vz a).

Definition dot (a b : Vector3) : R :=
  vx a * vx b + vy a * vy b + vz a * vz b.

(** [new Vector3().crossVectors(a, b)] *)
Definition cross (a b : Vector3) : Vector3 :=
  V3 (vy a * vz b - vz a * vy b)
     (vz a * vx b - vx a * vz b)
     (vx a * vy b - vy a * vx b).

Definition lengthSq (a : Vector3) : R := dot a a.

Definition length (a : Vector3) : R := sqrt (lengthSq a).

(** JavaScript [x || d] on numbers: [d] when [x] is zero. *)
Definition orElse (x d : R) : R := if Req_dec_T x 0 then d else x.

(** [normalize() { return this.divideScalar(this.length() || 1) }] *)
Definition normalize (a : Vector3) : Vector3 :=
  divideScalar a (orElse (length a) 1).

Definition distanceToSquared (a b : Vector3) : R :=
  let dx := vx a - vx b in
  let dy := vy a - vy b in
  let dz := vz a - vz b in
  dx * dx + dy * dy + dz * dz.

Definition distanceTo (a b : Vector3) : R := sqrt (distanceToSquared a b).

(** [MathUtils.clamp(value, min, max)] is
    [Math.max(min, Math.min(max, value))]. *)
Definition clamp (value lo hi : R) : R := Rmax lo (Rmin hi value).

(** [Vector3.angleTo]: the denominator test guards the division; the
    clamp guards [Math.acos]. *)
Definition angleTo (a b : Vector3) : R :=
  let denominator := sqrt (lengthSq a * lengthSq b) in
  if Req_dec_T denominator 0 then PI / 2
  else
    let theta := dot a b / denominator in
    acos (clamp theta (-1) 1).

End Vec.

(** [Matrix4.elements]: sixteen numbers, column-major. *)
Definition Matrix4 : Type := list R.

Definition el (m : Matrix4) (i : nat) : R := nth i m 0.

Definition identity4 : Matrix4 :=
  [1; 0; 0; 0;  0; 1; 0; 0;  0; 0; 1; 0;  0; 0; 0; 1].

(** [Vector3.applyMatrix4], with its perspective divide. *)
Definition applyMatrix4 (v : Vector3) (m : Matrix4) : Vector3 :=
  let x := vx v in
  let y := vy v in
  let z := vz v in
  let w := 1 / (el m 3 * x + el m 7 * y + el m 11 * z + el m 15) in
  V3 ((el m 0 * x + el m 4 * y + el m 8 * z + el m 12) * w)
     ((el m 1 * x + el m 5 * y + el m 9 * z + el m 13) * w)
     ((el m 2 * x + el m 6 * y + el m 10 * z + el m 14) * w).

(** [Line3.closestPointToPointParameter] and [Line3.closestPointToPoint]. *)
Definition closestPointToPointParameter
    (start end_ point : Vector3) (clampToLine : bool) : R :=
  let startP := Vec.sub point start in
  let startEnd := Vec.sub end_ start in
  let startEnd2 := Vec.dot startEnd startEnd in
  let startEnd_startP := Vec.dot startEnd startP in
  let t := startEnd_startP / startEnd2 in
  if clampToLine then Vec.clamp t 0 1 else t.

Definition closestPointToPoint
    (start end_ point : Vector3) (clampToLine : bool) : Vector3 :=
  let t := closestPointToPointParameter start end_ point clampToLine in
  Vec.add (Vec.multiplyScalar (Vec.sub end_ start) t) start.

(** [src/utils/geometry.ts] *)
Definition getClosestPointOnLineSegment (point start end_ : Vector3) : Vector3 :=
  closestPointToPoint start end_ point true.

(** [THREE.Plane]: the points [p] with [normal . p + constant = 0]. *)
Record Plane : Type := mkPlane { plane_normal : Vector3; plane_constant : R }.

Definition setFromNormalAndCoplanarPoint (normal point : Vector3) : Plane :=
  mkPlane normal (- Vec.dot point normal).

Definition distanceToPoint (pl : Plane) (p : Vector3) : R :=
  Vec.dot (plane_normal pl) p + plane_constant pl.

(** [THREE.Ray] *)
Record Ray : Type := mkRay { ray_origin : Vector3; ray_direction : Vector3 }.

(** [Ray.at(t, target)]: [target.copy(origin).addScaledVector(direction, t)]. *)
Definition at_ (r : Ray) (t : R) : Vector3 :=
  Vec.add (ray_origin r) (Vec.multiplyScalar (ray_direction r) t).

(** [Ray.distanceToPlane]: [None] is JavaScript's [null]. *)
Definition distanceToPlane (r : Ray) (pl : Plane) : option R :=
  let denominator := Vec.dot (plane_normal pl) (ray_direction r) in
  if Req_dec_T denominator 0 then
    (* line is coplanar, return origin *)
    if Req_dec_T (distanceToPoint pl (ray_origin r)) 0 then Some 0 else None
  else
    let t := - (Vec.dot (ray_origin r) (plane_normal pl) + plane_constant pl)
             / denominator in
    (* the ray never intersects the plane when t is negative *)
    if Rle_dec 0 t then Some t else None.

Definition intersectPlane (r : Ray) (pl : Plane) : option Vector3 :=
  match distanceToPlane r pl with
  | None => None
  | Some t => Some (at_ r t)
  end.

(** [THREE.Quaternion] *)
Record Quaternion : Type := Quat { qx : R; qy : R; qz : R; qw : R }.

Definition Number_EPSILON : R := / 2 ^ 52.

Definition quat_normalize (q : Quaternion) : Quaternion :=
  let l := sqrt (qx q * qx q + qy q * qy q + qz q * qz q + qw q * qw q) in
  if Req_dec_T l 0 then Quat 0 0 0 1
  else
    let l' := 1 / l in
    Quat (qx q * l') (qy q * l') (qz q * l') (qw q * l').

(** [Quaternion.setFromUnitVectors(vFrom, vTo)].  The test for opposite
    vectors compares [r] with a constant [eps] that depends on the release of
    three.js: [Number.EPSILON] up to r177, [1e-8] from r178 on. *)
Definition setFromUnitVectorsWith (eps : R) (vFrom vTo : Vector3)
    : Quaternion :=
  let r := Vec.dot vFrom vTo + 1 in
  quat_normalize
    (if Rlt_dec r eps then
       (* vFrom and vTo point in opposite directions *)
       if Rlt_dec (Rabs (vz vFrom)) (Rabs (vx vFrom))
       then Quat (- vy vFrom) (vx vFrom) 0 0
       else Quat 0 (- vz vFrom) (vy vFrom) 0
     else
       Quat (vy vFrom * vz vTo - vz vFrom * vy vTo)
            (vz vFrom * vx vTo - vx vFrom * vz vTo)
            (vx vFrom * vy vTo - vy vFrom * vx vTo)
            r).

(** The repository imports three.js without fixing its release; the model
    follows the current one, [if ( r < 1e-8 )]. *)
Definition setFromUnitVectors (vFrom vTo : Vector3) : Quaternion :=
  setFromUnitVectorsWith (1 / 10 ^ 8) vFrom vTo.

(** [Quaternion.setFromAxisAngle(axis, angle)] *)
Definition setFromAxisAngle (axis : Vector3) (angle : R) : Quaternion :=
  let halfAngle := angle / 2 in
  let s := sin halfAngle in
  Quat (vx axis * s) (vy axis * s) (vz axis * s) (cos halfAngle).

(** [Vector3.applyQuaternion(q)] *)
Definition applyQuaternion (v : Vector3) (q : Quaternion) : Vector3 :=
  let tx := 2 * (qy q * vz v - qz q * vy v) in
  let ty := 2 * (qz q * vx v - qx q * vz v) in
  let tz := 2 * (qx q * vy v - qy q * vx v) in
  V3 (vx v + qw q * tx + qy q * tz - qz q * ty)
     (vy v + qw q * ty + qz q * tx - qx q * tz)
     (vz v + qw q * tz + qx q * ty - qy q * tx).

(** [Vector3.applyAxisAngle(axis, angle)] *)
Definition applyAxisAngle (v axis : Vector3) (angle : R) : Vector3 :=
  applyQuaternion v (setFromAxisAngle axis angle).

(** [Matrix3.getNormalMatrix(m4)] followed by [Vector3.applyNormalMatrix]:
    the upper 3x3 block of [m4], inverted and transposed, applied to the
    vector, and the result normalized.  A singular block inverts to the
    zero matrix. *)
Definition applyNormalMatrixOf (v : Vector3) (m : Matrix4) : Vector3 :=
  let n11 := el m 0 in let n21 := el m 1 in let n31 := el m 2 in
  let n12 := el m 4 in let n22 := el m 5 in let n32 := el m 6 in
  let n13 := el m 8 in let n23 := el m 9 in let n33 := el m 10 in
  let t11 := n33 * n22 - n32 * n23 in
  let t12 := n32 * n13 - n33 * n12 in
  let t13 := n23 * n12 - n22 * n13 in
  let det := n11 * t11 + n21 * t12 + n31 * t13 in
  if Req_dec_T det 0 then Vec.normalize Vec.zero
  else
    let detInv := 1 / det in
    (* rows of the inverse, which are the columns of its transpose *)
    let i11 := t11 * detInv in
    let i21 := (n31 * n23 - n33 * n21) * detInv in
    let i31 := (n32 * n21 - n31 * n22) * detInv in
    let i12 := t12 * detInv in
    let i22 := (n33 * n11 - n31 * n13) * detInv in
    let i32 := (n31 * n12 - n32 * n11) * detInv in
    let i13 := t13 * detInv in
    let i23 := (n21 * n13 - n23 * n11) * detInv in
    let i33 := (n22 * n11 - n21 * n12) * detInv in
    Vec.normalize
      (V3 (i11 * vx v + i21 * vy v + i31 * vz v)
          (i12 * vx v + i22 * vy v + i32 * vz v)
          (i13 * vx v + i23 * vy v + i33 * vz v)).

(* ===================================================================== *)
(** ** The scene as the ray caster reports it                             *)
(* ===================================================================== *)

(** [THREE.BufferGeometry]: the [position] attribute, one entry per vertex. *)
Record Geometry : Type := mkGeometry {
  isBufferGeometry : bool;
  position : list Vector3
}.

Inductive Object3D : Type :=
| Mesh (geometry : Geometry) (matrixWorld : Matrix4)
| OtherObject (matrixWorld : Matrix4).

Definition matrixWorldOf (o : Object3D) : Matrix4 :=
  match o with Mesh _ m => m | OtherObject m => m end.

(** [THREE.Face]: three indices into the position attribute and a normal. *)
Record Face : Type := mkFace {
  face_a : nat; face_b : nat; face_c : nat; face_normal : Vector3
}.

(** One entry of [raycaster.intersectObjects(objects, true)]. *)
Record Intersection : Type := mkHit {
  hit_point : Vector3;
  hit_object : Object3D;
  hit_face : option Face
}.

(** [new Vector3().fromBufferAttribute(attr, idx)].  The ray caster only
    reports indices of the attribute it read; outside them the entry is
    taken as the zero vector. *)
Definition fromBufferAttribute (attr : list Vector3) (idx : nat) : Vector3 :=
  nth idx attr Vec.zero.

(** What [THREE.Raycaster] answers for one pointer position: the picking
    ray of [setFromCamera] and the intersections, nearest first. *)
Record Pointer : Type := mkPointer {
  ptr_ray : Ray;
  ptr_intersects : list Intersection
}.

(* ===================================================================== *)
(** ** src/types.ts                                                       *)
(* ===================================================================== *)

Inductive SnapType : Type :=
| snap_vertex | snap_edge | snap_midpoint | snap_centroid | snap_face | snap_none.

Record SnapResult : Type := mkSnap {
  snap_point : Vector3;
  snap_type : SnapType;
  snap_distance : R;
  snap_object : Object3D;
  snap_edgeVertices : option (Vector3 * Vector3)
}.

Inductive DimensionType : Type :=
| dim_linear | dim_aligned | dim_angle | dim_leader.

Inductive Units : Type := unit_m | unit_mm | unit_ft.

Inductive TextMode : Type := horizontal | text_aligned.

Record DimensionStyle : Type := mkStyle {
  color : string;
  fontSize : R;
  scale : R;
  depthTest : bool;
  offset : R;
  units : Units;
  textBgColor : option string;     (* null for transparent *)
  textMode : TextMode
}.

(** [Partial<DimensionStyle>]: every key may be absent. *)
Record PartialStyle : Type := mkPartial {
  p_color : option string;
  p_fontSize : option R;
  p_scale : option R;
  p_depthTest : option bool;
  p_offset : option R;
  p_units : option Units;
  p_textBgColor : option (option string);
  p_textMode : option TextMode
}.

Record DimensionData : Type := mkData {
  d_id : Z;
  d_type : DimensionType;
  d_start : Vector3;
  d_end : Vector3;             (* For Angle: P1. For Leader: Elbow. *)
  d_offsetPoint : Vector3;     (* For Angle: radius point. For Leader: text. *)
  d_angleP2 : option Vector3;
  d_text : option string
}.

Record CPlane : Type := mkCPlane { cp_origin : Vector3; cp_normal : Vector3 }.

(* ===================================================================== *)
(** ** src/SnappingManager.ts                                             *)
(* ===================================================================== *)

Record SnappingManager : Type := mkSnapping {
  enabled : bool;
  snapVertices : bool;
  snapEdges : bool;
  snapMidpoints : bool;
  snapCentroids : bool;
  marker_visible : bool;             (* snapMarker.visible *)
  marker_position : Vector3;         (* snapMarker.position *)
  highlighter_visible : bool;        (* edgeHighlighter.visible *)
  highlighter_positions : Vector3 * Vector3
}.

(** [private snapThreshold: number = 0.2], never assigned again. *)
Definition snapThreshold : R := 2 / 10.

(** The constructor: every toggle on, both helpers hidden. *)
Definition newSnappingManager : SnappingManager :=
  mkSnapping true true true true true false Vec.zero false (Vec.zero, Vec.zero).

Definition hideHelpers (m : SnappingManager) : SnappingManager :=
  mkSnapping (enabled m) (snapVertices m) (snapEdges m) (snapMidpoints m)
             (snapCentroids m) false (marker_position m) false
             (highlighter_positions m).

Definition enable (m : SnappingManager) : SnappingManager :=
  mkSnapping true (snapVertices m) (snapEdges m) (snapMidpoints m)
             (snapCentroids m) false (marker_position m) false
             (highlighter_positions m).

Definition disable (m : SnappingManager) : SnappingManager :=
  mkSnapping false (snapVertices m) (snapEdges m) (snapMidpoints m)
             (snapCentroids m) false (marker_position m) false
             (highlighter_positions m).

(** The pair [(minSnapDist, bestSnap)] that the four loops update. *)
Definition Best : Type := (R * option SnapResult)%type.

(** 1. Vertex Snap *)
Definition vertexSnap (mesh : Object3D) (point : Vector3)
    (vertices : list Vector3) (st : Best) : Best :=
  fold_left
    (fun (st : Best) (v : Vector3) =>
       let dist := Vec.distanceTo v point in
       if Rlt_dec dist (fst st)
       then (dist, Some (mkSnap v snap_vertex dist mesh None))
       else st)
    vertices st.

(** 2. Midpoint Snap (center of edges) *)
Definition midpointSnap (mesh : Object3D) (point : Vector3)
    (edges : list (Vector3 * Vector3)) (st : Best) : Best :=
  fold_left
    (fun (st : Best) (edge : Vector3 * Vector3) =>
       let mid := Vec.multiplyScalar (Vec.add (fst edge) (snd edge)) (1 / 2) in
       let dist := Vec.distanceTo mid point in
       if Rlt_dec dist (fst st)
       then (dist, Some (mkSnap mid snap_midpoint dist mesh
                                (Some (fst edge, snd edge))))
       else st)
    edges st.

(** 3. Centroid Snap (center of face) *)
Definition centroidSnap (mesh : Object3D) (point : Vector3)
    (v0 v1 v2 : Vector3) (st : Best) : Best :=
  let centroid := Vec.divideScalar (Vec.add (Vec.add v0 v1) v2) 3 in
  let dist := Vec.distanceTo centroid point in
  if Rlt_dec dist (fst st)
  then (dist, Some (mkSnap centroid snap_centroid dist mesh None))
  else st.

(** 4. Edge Snap (anywhere on edge) *)
Definition edgeSnap (mesh : Object3D) (point : Vector3)
    (edges : list (Vector3 * Vector3)) (st : Best) : Best :=
  fold_left
    (fun (st : Best) (edge : Vector3 * Vector3) =>
       let closest := getClosestPointOnLineSegment point (fst edge) (snd edge) in
       let dist := Vec.distanceTo closest point in
       if Rlt_dec dist (fst st)
       then (dist, Some (mkSnap closest snap_edge dist mesh
                                (Some (fst edge, snd edge))))
       else st)
    edges st.

(** The triangle under the hit, in world space: [indices.map(...)]. *)
Definition worldVertices (g : Geometry) (mw : Matrix4) (f : Face)
    : Vector3 * Vector3 * Vector3 :=
  let w := fun idx => applyMatrix4 (fromBufferAttribute (position g) idx) mw in
  (w (face_a f), w (face_b f), w (face_c f)).

Definition triangleEdges (v0 v1 v2 : Vector3) : list (Vector3 * Vector3) :=
  [(v0, v1); (v1, v2); (v2, v0)].

(** Lines 183-278 of [getSnapPoint]: the search for [bestSnap]. *)
Definition findBestSnap (m : SnappingManager) (hit : Intersection)
    : option SnapResult :=
  let point := hit_point hit in
  let st : Best := (snapThreshold, None) in   (* only snap within threshold *)
  match hit_object hit, hit_face hit with
  | Mesh g mw, Some f =>
      if isBufferGeometry g then
        let mesh := hit_object hit in
        let '(v0, v1, v2) := worldVertices g mw f in
        let st := if snapVertices m
                  then vertexSnap mesh point [v0; v1; v2] st else st in
        let st := if snapMidpoints m
                  then midpointSnap mesh point (triangleEdges v0 v1 v2) st
                  else st in
        let st := if snapCentroids m
                  then centroidSnap mesh point v0 v1 v2 st else st in
        let st := if snapEdges m
                  then edgeSnap mesh point (triangleEdges v0 v1 v2) st
                  else st in
        snd st
      else None
  | _, _ => None
  end.

(** The visual helpers after a successful snap. *)
Definition showSnap (m : SnappingManager) (best : SnapResult) : SnappingManager :=
  let highlight :=
    match snap_type best, snap_edgeVertices best with
    | snap_edge, Some ev => Some ev
    | snap_midpoint, Some ev => Some ev
    | _, _ => None
    end in
  mkSnapping (enabled m) (snapVertices m) (snapEdges m) (snapMidpoints m)
             (snapCentroids m) true (snap_point best)
             (match highlight with Some _ => true | None => false end)
             (match highlight with
              | Some ev => ev
              | None => highlighter_positions m
              end).

(** [getSnapPoint(mouse, objects)]: the result and the manager afterwards.
    [intersects] is [raycaster.intersectObjects(objects, true)]. *)
Definition getSnapPoint (m : SnappingManager) (intersects : list Intersection)
    : option SnapResult * SnappingManager :=
  if negb (enabled m) then (None, hideHelpers m)
  else
    match intersects with
    | [] => (None, hideHelpers m)
    | hit :: _ =>
        match findBestSnap m hit with
        | None => (None, hideHelpers m)
        | Some bestSnap => (Some bestSnap, showSnap m bestSnap)
        end
    end.

(* ===================================================================== *)
(** ** src/DimensionRenderer.ts                                           *)
(* ===================================================================== *)

(** [new THREE.Color(css)] and [color.lerp(new THREE.Color(hex), alpha)]:
    kept as the expression that built the colour. *)
Inductive Color : Type :=
| ColorOf (css : string)
| Lerp (c : Color) (hex : Z) (alpha : R).

Record LineBasicMaterial : Type := mkLineMat {
  lm_color : Color;
  lm_depthTest : bool;
  lm_transparent : bool;
  lm_opacity : R
}.

(** A label before rasterisation: [x.toFixed(digits) + suffix], or a
    literal text.  [Number.prototype.toFixed] and the canvas are the
    browser's. *)
Inductive Message : Type :=
| toFixed (x : R) (digits : nat) (suffix : string)
| Literal (s : string).

(** The sprite of [createTextSprite(message, color, scale, bgColor)]
    ([src/utils/text.ts]) with the fields the builders set afterwards.
    Its material is created with [depthTest: false]. *)
Record Sprite : Type := mkSprite {
  sp_message : Message;
  sp_color : string;
  sp_scale : R;
  sp_bgColor : option string;
  sp_position : Vector3;
  sp_depthTest : bool;
  sp_renderOrder : Z
}.

Definition createTextSprite (message : Message) (color : string) (scale : R)
    (bgColor : option string) : Sprite :=
  mkSprite message color scale bgColor Vec.zero false 0.

(** The children a builder adds to its [THREE.Group]. *)
Inductive Primitive : Type :=
| Line (points : list Vector3) (mat : LineBasicMaterial)
| LineSegments (points : list Vector3) (mat : LineBasicMaterial)
| Cone (radius height : R) (radialSegments : nat)
       (col : Color) (coneDepthTest : bool)
       (rotation : Quaternion) (conePosition : Vector3)
| Label (s : Sprite).

Definition Group : Type := list Primitive.

Record DimensionRenderer : Type := mkRenderer {
  dimensionsGroup : list Group;
  previewGroup : list Group;
  dimensionData : list DimensionData;
  nextId : Z;
  style : DimensionStyle
}.

Definition defaultStyle : DimensionStyle :=
  mkStyle "#000000" 1 1 false (1 / 2) unit_m (Some "#ffffff"%string) horizontal.

Definition newDimensionRenderer : DimensionRenderer :=
  mkRenderer [] [] [] 0%Z defaultStyle.

Definition up : Vector3 := V3 0 1 0.

(** The builders' colour: the style's, blended with grey for a preview. *)
Definition builderColor (st : DimensionStyle) (isPreview : bool) : Color :=
  let c := ColorOf (color st) in
  if isPreview then Lerp c 8947848 (* 0x888888 *) (1 / 2) else c.

Definition builderLineMat (st : DimensionStyle) (isPreview : bool)
    : LineBasicMaterial :=
  mkLineMat (builderColor st isPreview) (depthTest st) true
            (if isPreview then 6 / 10 else 1).

(** [sprite.position.copy(pos)], then, when the style has no depth test,
    [sprite.material.depthTest = false; sprite.renderOrder = 999]. *)
Definition placeSprite (st : DimensionStyle) (s : Sprite) (pos : Vector3)
    : Sprite :=
  mkSprite (sp_message s) (sp_color s) (sp_scale s) (sp_bgColor s) pos
           (if depthTest st then sp_depthTest s else false)
           (if depthTest st then sp_renderOrder s else 999%Z).

(** JavaScript [data.text || "Note"]: absent and empty texts are falsy. *)
Definition textOrNote (t : option string) : string :=
  match t with
  | Some s => if String.eqb s "" then "Note" else s
  | None => "Note"
  end.

Definition buildLeaderGeometry (st : DimensionStyle) (data : DimensionData)
    (isPreview : bool) : option Group :=
  let start := d_start data in
  let end_ := d_end data in
  let offsetPoint := d_offsetPoint data in
  let col := builderColor st isPreview in
  let lineMat := builderLineMat st isPreview in
  (* 1. Line 1: Origin -> Elbow;  2. Line 2: Elbow -> Extension *)
  let pts1 := [start; end_] in
  let pts2 := [end_; offsetPoint] in
  (* 3. Arrow at Start *)
  let arrowDir0 := Vec.normalize (Vec.sub start end_) in
  let arrowDir :=
    if Rlt_dec (Vec.lengthSq arrowDir0) (1 / 10000) then up else arrowDir0 in
  let arrowLen := 2 / 10 * scale st in
  let arrowWidth := 5 / 100 * scale st in
  let quaternion := setFromUnitVectors up arrowDir in
  let conePos := Vec.sub start (Vec.multiplyScalar arrowDir (arrowLen / 2)) in
  (* 4. Text *)
  let label := textOrNote (d_text data) in
  let extDir0 := Vec.normalize (Vec.sub offsetPoint end_) in
  let extDir :=
    if Rlt_dec (Vec.lengthSq extDir0) (1 / 10000) then V3 1 0 0 else extDir0 in
  let textPos :=
    Vec.add offsetPoint (Vec.multiplyScalar extDir (2 / 10 * scale st)) in
  let sprite :=
    createTextSprite (Literal label) (color st) (scale st) (textBgColor st) in
  Some [ Line pts1 lineMat;
         Line pts2 lineMat;
         Cone arrowWidth arrowLen 8 col (depthTest st) quaternion conePos;
         Label (placeSprite st sprite textPos) ].

(** Lines 187-202 of [buildLinearGeometry]: the perpendicular offset vector
    and the two ends of the dimension line. *)
Definition linearPerpVec (start end_ offsetPoint : Vector3) : Vector3 :=
  let ab := Vec.sub end_ start in
  let dir := Vec.normalize ab in
  (* Vector from Start to OffsetPoint *)
  let vStartOffset := Vec.sub offsetPoint start in
  (* Project vStartOffset onto 'dir' *)
  let projectionLength := Vec.dot vStartOffset dir in
  let projectionVec := Vec.multiplyScalar dir projectionLength in
  (* the perpendicular component *)
  Vec.sub vStartOffset projectionVec.

Definition linearLabel (st : DimensionStyle) (distance : R) : Message :=
  match units st with
  | unit_mm => toFixed (distance * 1000) 0 ""
  | unit_ft => toFixed (distance * (328084 / 100000)) 2 "'"
  | unit_m => toFixed distance 2 "m"
  end.

Definition buildLinearGeometry (st : DimensionStyle) (data : DimensionData)
    (isPreview : bool) : option Group :=
  let start := d_start data in
  let end_ := d_end data in
  let offsetPoint := d_offsetPoint data in
  let distance := Vec.distanceTo start end_ in
  if Rlt_dec distance (1 / 1000) then None
  else
    let lineMat := builderLineMat st isPreview in
    (* 1. Calculate Offset Vector *)
    let dir := Vec.normalize (Vec.sub end_ start) in
    let perpVec := linearPerpVec start end_ offsetPoint in
    let p1 := Vec.add start perpVec in
    let p2 := Vec.add end_ perpVec in
    (* 3. Leader Lines (Witness lines) *)
    let gap := 0 in
    let extension := 1 / 10 * scale st in
    let leaderDir :=
      if Rlt_dec (Vec.lengthSq perpVec) (1 / 10000) then up
      else Vec.normalize perpVec in
    let l1Start := Vec.add start (Vec.multiplyScalar leaderDir gap) in
    let l1End := Vec.add p1 (Vec.multiplyScalar leaderDir extension) in
    let l2Start := Vec.add end_ (Vec.multiplyScalar leaderDir gap) in
    let l2End := Vec.add p2 (Vec.multiplyScalar leaderDir extension) in
    let leaderMat :=
      mkLineMat (builderColor st isPreview) (depthTest st) true (1 / 2) in
    (* 4. Ticks *)
    let tickSize := 1 / 10 * scale st in
    let tickVec :=
      Vec.multiplyScalar (Vec.normalize (Vec.add dir leaderDir)) tickSize in
    let t1a := Vec.sub p1 tickVec in
    let t1b := Vec.add p1 tickVec in
    let t2a := Vec.sub p2 tickVec in
    let t2b := Vec.add p2 tickVec in
    (* 5. Text *)
    let sprite :=
      createTextSprite (linearLabel st distance) (color st) (scale st)
                       (textBgColor st) in
    let midPoint := Vec.multiplyScalar (Vec.add p1 p2) (1 / 2) in
    let textPos :=
      Vec.add midPoint (Vec.multiplyScalar leaderDir (2 / 10 * scale st)) in
    Some [ Line [p1; p2] lineMat;
           Line [l1Start; l1End] leaderMat;
           Line [l2Start; l2End] leaderMat;
           LineSegments [t1a; t1b; t2a; t2b] lineMat;
           Label (placeSprite st sprite textPos) ].

(** [THREE.MathUtils.radToDeg] *)
Definition radToDeg (radians : R) : R := radians * (180 / PI).

(** [new EllipseCurve(0, 0, radius, radius, 0, endAngle, false, 0)
       .getPoints(divisions)].
    [getPoint] first brings [endAngle - startAngle] into [0, 2 PI] with two
    loops; the builder passes an [endAngle] that [angleTo] returned, which
    lies in [0, PI], so neither loop runs and only the test against
    [Number.EPSILON] remains. *)
Definition ellipseDelta (endAngle : R) : R :=
  let deltaAngle := endAngle - 0 in
  if Rlt_dec deltaAngle Number_EPSILON then
    if Rlt_dec (Rabs deltaAngle) Number_EPSILON then 0 else 2 * PI
  else deltaAngle.

Definition ellipsePoint (radius endAngle t : R) : R * R :=
  let a := 0 + t * ellipseDelta endAngle in
  (0 + radius * cos a, 0 + radius * sin a).

Definition ellipsePoints (radius endAngle : R) (divisions : nat)
    : list (R * R) :=
  map (fun d : nat => ellipsePoint radius endAngle (INR d / INR divisions))
      (seq 0 (S divisions)).

(** The degree sign as the source file spells it. *)
Definition degreeSuffix : string :=
  String (Ascii.ascii_of_nat 195) (String (Ascii.ascii_of_nat 130)
  (String (Ascii.ascii_of_nat 194) (String (Ascii.ascii_of_nat 176)
   EmptyString))).

(** Line 348 of [buildAngleGeometry]: [let angle = v1.angleTo(v2)]. *)
Definition angleOf (center p1 p2 : Vector3) : R :=
  let v1 := Vec.sub p1 center in
  let v2 := Vec.sub p2 center in
  Vec.angleTo v1 v2.

Definition buildAngleGeometry (st : DimensionStyle) (data : DimensionData)
    (isPreview : bool) : option Group :=
  match d_angleP2 data with
  | None => None
  | Some p2 =>
      let center := d_start data in
      let p1 := d_end data in
      let radiusPoint := d_offsetPoint data in
      let lineMat := builderLineMat st isPreview in
      (* 1. Calculate Vectors *)
      let v1 := Vec.sub p1 center in
      let v2 := Vec.sub p2 center in
      let radius := Vec.distanceTo center radiusPoint in
      if Rlt_dec radius (1 / 1000) then None
      else
        (* 2. Draw Arms *)
        let dir1 := Vec.normalize v1 in
        let dir2 := Vec.normalize v2 in
        let arcStart1 := Vec.add center (Vec.multiplyScalar dir1 radius) in
        let arcStart2 := Vec.add center (Vec.multiplyScalar dir2 radius) in
        (* 3. Draw Arc *)
        let theta := angleOf center p1 p2 in
        let degrees := radToDeg theta in
        let normal0 := Vec.normalize (Vec.cross v1 v2) in
        let normal :=
          if Rlt_dec (Vec.lengthSq normal0) (1 / 10000) then up else normal0 in
        let points2D := ellipsePoints radius theta 24 in
        let xAxis := dir1 in
        let zAxis := normal in
        let yAxis := Vec.normalize (Vec.cross zAxis xAxis) in
        let points3D :=
          map (fun p : R * R =>
                 Vec.add (Vec.add center (Vec.multiplyScalar xAxis (fst p)))
                         (Vec.multiplyScalar yAxis (snd p)))
              points2D in
        (* 4. Text *)
        let label := toFixed degrees 1 degreeSuffix in
        let midAngle := theta / 2 in
        let midDir := applyAxisAngle dir1 normal midAngle in
        let textPos :=
          Vec.add center
                  (Vec.multiplyScalar midDir (radius + 2 / 10 * scale st)) in
        let sprite :=
          createTextSprite label (color st) (scale st) (textBgColor st) in
        Some [ Line [center; arcStart1] lineMat;
               Line [center; arcStart2] lineMat;
               Line points3D lineMat;
               Label (placeSprite st sprite textPos) ]
  end.

Definition buildGeometry (st : DimensionStyle) (data : DimensionData)
    (isPreview : bool) : option Group :=
  match d_type data with
  | dim_angle => buildAngleGeometry st data isPreview
  | dim_leader => buildLeaderGeometry st data isPreview
  | _ => buildLinearGeometry st data isPreview
  end.

(** [for (const data of this.dimensionData) { ... if (group) add(group) }] *)
Fixpoint rebuildGroups (st : DimensionStyle) (ds : list DimensionData)
    : list Group :=
  match ds with
  | [] => []
  | data :: rest =>
      match buildGeometry st data false with
      | Some group => group :: rebuildGroups st rest
      | None => rebuildGroups st rest
      end
  end.

Definition rebuildAll (r : DimensionRenderer) : DimensionRenderer :=
  mkRenderer (rebuildGroups (style r) (dimensionData r))
             (previewGroup r) (dimensionData r) (nextId r) (style r).

Definition pick {A : Type} (o : option A) (d : A) : A :=
  match o with Some a => a | None => d end.

(** [{ ...this.style, ...style }] *)
Definition mergeStyle (st : DimensionStyle) (p : PartialStyle) : DimensionStyle :=
  mkStyle (pick (p_color p) (color st))
          (pick (p_fontSize p) (fontSize st))
          (pick (p_scale p) (scale st))
          (pick (p_depthTest p) (depthTest st))
          (pick (p_offset p) (offset st))
          (pick (p_units p) (units st))
          (pick (p_textBgColor p) (textBgColor st))
          (pick (p_textMode p) (textMode st)).

Definition setStyle (p : PartialStyle) (r : DimensionRenderer)
    : DimensionRenderer :=
  rebuildAll (mkRenderer (dimensionsGroup r) (previewGroup r)
                         (dimensionData r) (nextId r)
                         (mergeStyle (style r) p)).

Definition createDimension (type : DimensionType)
    (start end_ offsetPoint : Vector3) (angleP2 : option Vector3)
    (text : option string) (r : DimensionRenderer) : DimensionRenderer :=
  let data := mkData (nextId r) type start end_ offsetPoint angleP2 text in
  rebuildAll (mkRenderer (dimensionsGroup r) (previewGroup r)
                         (dimensionData r ++ [data]) (nextId r + 1)%Z
                         (style r)).

Definition updatePreview (type : DimensionType)
    (start end_ offsetPoint : Vector3) (angleP2 : option Vector3)
    (text : option string) (r : DimensionRenderer) : DimensionRenderer :=
  let data := mkData (-1)%Z type start end_ offsetPoint angleP2 text in
  mkRenderer (dimensionsGroup r)
             (match buildGeometry (style r) data true with
              | Some group => [group]
              | None => []
              end)
             (dimensionData r) (nextId r) (style r).

Definition clearPreview (r : DimensionRenderer) : DimensionRenderer :=
  mkRenderer (dimensionsGroup r) [] (dimensionData r) (nextId r) (style r).

Definition clear (r : DimensionRenderer) : DimensionRenderer :=
  mkRenderer [] [] [] (nextId r) (style r).

(** The style a caller reads back and passes to [setStyle] unchanged. *)
Definition wholeStyle (st : DimensionStyle) : PartialStyle :=
  mkPartial (Some (color st)) (Some (fontSize st)) (Some (scale st))
            (Some (depthTest st)) (Some (offset st)) (Some (units st))
            (Some (textBgColor st)) (Some (textMode st)).

(* ===================================================================== *)
(** ** src/DimensionSystem.ts                                             *)
(* ===================================================================== *)

Inductive InteractionState : Type :=
| idle | drawing | drawing_angle_p2 | offsetting
| defining_cplane_p1 | defining_cplane_p2 | defining_cplane_p3
| defining_cplane_face | translating_cplane.

(** What the system reads from [THREE.Camera]. *)
Record Camera : Type := mkCamera {
  cam_position : Vector3;
  cam_worldDirection : Vector3
}.

Record DimensionSystem : Type := mkSystem {
  snappingManager : SnappingManager;
  dimensionRenderer : DimensionRenderer;
  mode : DimensionType;
  cplane : CPlane;
  state : InteractionState;
  startPoint : option Vector3;   (* Center / Leader Origin / CPlane P1 *)
  endPoint : option Vector3;     (* Arm 1 / Leader Elbow / CPlane P2 *)
  angleP2 : option Vector3       (* Arm 2 / CPlane P3 *)
}.

Definition newDimensionSystem : DimensionSystem :=
  mkSystem newSnappingManager newDimensionRenderer dim_linear
           (mkCPlane (V3 0 0 0) (V3 0 1 0))   (* Default World XZ (Y-up) *)
           idle None None None.

(** Field updates, one per assignment form of the source. *)
Definition withSnapping (m : SnappingManager) (s : DimensionSystem) :=
  mkSystem m (dimensionRenderer s) (mode s) (cplane s) (state s)
           (startPoint s) (endPoint s) (angleP2 s).

Definition withRenderer (r : DimensionRenderer) (s : DimensionSystem) :=
  mkSystem (snappingManager s) r (mode s) (cplane s) (state s)
           (startPoint s) (endPoint s) (angleP2 s).

Definition withMode (m : DimensionType) (s : DimensionSystem) :=
  mkSystem (snappingManager s) (dimensionRenderer s) m (cplane s) (state s)
           (startPoint s) (endPoint s) (angleP2 s).

Definition withState (st : InteractionState) (s : DimensionSystem) :=
  mkSystem (snappingManager s) (dimensionRenderer s) (mode s) (cplane s) st
           (startPoint s) (endPoint s) (angleP2 s).

Definition withStartPoint (p : option Vector3) (s : DimensionSystem) :=
  mkSystem (snappingManager s) (dimensionRenderer s) (mode s) (cplane s)
           (state s) p (endPoint s) (angleP2 s).

Definition withEndPoint (p : option Vector3) (s : DimensionSystem) :=
  mkSystem (snappingManager s) (dimensionRenderer s) (mode s) (cplane s)
           (state s) (startPoint s) p (angleP2 s).

Definition withAngleP2 (p : option Vector3) (s : DimensionSystem) :=
  mkSystem (snappingManager s) (dimensionRenderer s) (mode s) (cplane s)
           (state s) (startPoint s) (endPoint s) p.

(** [setCPlane]: copy the origin, copy and normalize the normal. *)
Definition setCPlane (origin normal : Vector3) (s : DimensionSystem) :=
  mkSystem (snappingManager s) (dimensionRenderer s) (mode s)
           (mkCPlane origin (Vec.normalize normal)) (state s)
           (startPoint s) (endPoint s) (angleP2 s).

Definition setCPlaneToWorld (s : DimensionSystem) : DimensionSystem :=
  setCPlane (V3 0 0 0) (V3 0 1 0) s.

Definition setCPlaneToView (cam : Camera) (s : DimensionSystem)
    : DimensionSystem :=
  let normal := Vec.negate (cam_worldDirection cam) in   (* plane faces camera *)
  (* Place origin 10 units in front of camera *)
  let origin :=
    Vec.add (cam_position cam)
            (Vec.multiplyScalar (cam_worldDirection cam) 10) in
  setCPlane origin normal s.

Definition reset (s : DimensionSystem) : DimensionSystem :=
  mkSystem (snappingManager s) (dimensionRenderer s) (mode s) (cplane s)
           idle None None None.

Definition cancel (s : DimensionSystem) : DimensionSystem :=
  let s := reset s in
  withRenderer (clearPreview (dimensionRenderer s)) s.

Definition startDefineCPlane (s : DimensionSystem) : DimensionSystem :=
  withState defining_cplane_p1 (reset s).

Definition startDefineCPlaneFromFace (s : DimensionSystem) : DimensionSystem :=
  withState defining_cplane_face (reset s).

Definition startTranslateCPlane (s : DimensionSystem) : DimensionSystem :=
  withState translating_cplane (reset s).

(** [getRayPoint(mouse, referencePoint?)]; [ray] is the picking ray that
    [raycaster.setFromCamera(mouse, camera)] produced. *)
Definition getRayPoint (s : DimensionSystem) (ray : Ray)
    (referencePoint : option Vector3) : Vector3 :=
  (* Project onto CPlane *)
  let origin :=
    match referencePoint with
    | Some p => p
    | None => cp_origin (cplane s)
    end in
  let plane := setFromNormalAndCoplanarPoint (cp_normal (cplane s)) origin in
  match intersectPlane ray plane with
  | Some result => result
  | None => at_ ray 10      (* Fallback if parallel *)
  end.

(** One pointer event as the system sees it: the picking ray, the
    intersections found by the snapping manager's ray caster, the
    intersections found by the fresh ray caster of the face branch, and
    what [window.prompt] answers if it is asked. *)
Record PointerEvent : Type := mkEvent {
  ev_ray : Ray;
  ev_intersects : list Intersection;
  ev_rawIntersects : list Intersection;
  ev_prompt : option string
}.

(** [snap ? snap.point : this.getRayPoint(mouse, ref)] *)
Definition snapOrRay (s : DimensionSystem) (snap : option SnapResult)
    (ray : Ray) (ref : option Vector3) : Vector3 :=
  match snap with
  | Some sn => snap_point sn
  | None => getRayPoint s ray ref
  end.

(** [onMouseMove]: the system afterwards and, when the plane is being
    translated, the temporary plane handed to [cplaneHelper.update]. *)
Definition onMouseMove (ev : PointerEvent) (s : DimensionSystem)
    : DimensionSystem * option CPlane :=
  let '(snap, m) := getSnapPoint (snappingManager s) (ev_intersects ev) in
  let s := withSnapping m s in
  let currentPoint := snapOrRay s snap (ev_ray ev) (startPoint s) in
  let preview type a b c d :=
    withRenderer (updatePreview type a b c d None (dimensionRenderer s)) s in
  match state s with
  | translating_cplane =>
      (s, Some (mkCPlane currentPoint (cp_normal (cplane s))))
  | defining_cplane_p1 | defining_cplane_p2 | defining_cplane_p3
  | defining_cplane_face => (s, None)
  | st =>
      (match mode s, st, startPoint s, endPoint s, angleP2 s with
       | dim_leader, drawing, Some sp, _, _ =>
           preview dim_leader sp currentPoint currentPoint None
       | dim_leader, offsetting, Some sp, Some ep, _ =>
           preview dim_leader sp ep currentPoint None
       | dim_leader, _, _, _, _ => s
       | dim_angle, drawing, Some sp, _, _ =>
           preview dim_linear sp currentPoint currentPoint None
       | dim_angle, drawing_angle_p2, Some sp, Some ep, _ =>
           preview dim_angle sp ep currentPoint (Some currentPoint)
       | dim_angle, offsetting, Some sp, Some ep, Some a2 =>
           preview dim_angle sp ep currentPoint (Some a2)
       | dim_angle, _, _, _, _ => s
       | _, drawing, Some sp, _, _ =>
           preview dim_linear sp currentPoint currentPoint None
       | _, offsetting, Some sp, Some ep, _ =>
           preview dim_linear sp ep currentPoint None
       | _, _, _, _, _ => s
       end, None)
  end.

(** The click in state [defining_cplane_p3] once a snap is at hand. *)
Definition defineCPlaneP3 (p1 p2 p3 : Vector3) (s : DimensionSystem)
    : DimensionSystem :=
  (* Calculate Normal from P1, P2, P3 *)
  let v1 := Vec.normalize (Vec.sub p2 p1) in      (* X Axis *)
  let v2 := Vec.normalize (Vec.sub p3 p1) in
  let normal := Vec.normalize (Vec.cross v1 v2) in
  if Rlt_dec (Vec.lengthSq normal) (1 / 1000) then
    (* Points are collinear, cannot define plane *)
    reset s
  else
    reset (setCPlane p1 normal s).

(** [onClick].  [None] stands for the [TypeError] that JavaScript raises
    when a point behind a non-null assertion ([this.startPoint!]) is null. *)
Definition onClick (ev : PointerEvent) (s : DimensionSystem)
    : option DimensionSystem :=
  let '(snap, m) := getSnapPoint (snappingManager s) (ev_intersects ev) in
  let s := withSnapping m s in
  match state s with
  (* CPlane Definition Logic *)
  | translating_cplane =>
      let point := snapOrRay s snap (ev_ray ev) None in
      Some (reset (setCPlane point (cp_normal (cplane s)) s))
  | defining_cplane_face =>
      match ev_rawIntersects ev with
      | hit :: _ =>
          match hit_face hit with
          | Some f =>
              let normal :=
                applyNormalMatrixOf (face_normal f)
                                    (matrixWorldOf (hit_object hit)) in
              (* We use hit point as origin *)
              Some (reset (setCPlane (hit_point hit) normal s))
          | None => Some s
          end
      | [] => Some s
      end
  | defining_cplane_p1 =>
      match snap with
      | None => Some s
      | Some sn =>
          Some (withState defining_cplane_p2
                  (withStartPoint (Some (snap_point sn)) s))
      end
  | defining_cplane_p2 =>
      match snap with
      | None => Some s
      | Some sn =>
          let s := withEndPoint (Some (snap_point sn)) s in
          match startPoint s with
          | None => None
          | Some sp =>
              if Rlt_dec (Vec.distanceTo sp (snap_point sn)) (1 / 1000)
              then Some s
              else Some (withState defining_cplane_p3 s)
          end
      end
  | defining_cplane_p3 =>
      match snap with
      | None => Some s
      | Some sn =>
          match endPoint s, startPoint s with
          | Some ep, Some sp => Some (defineCPlaneP3 sp ep (snap_point sn) s)
          | _, _ => None
          end
      end
  | idle =>
      (* 1. Start Dimension - MUST Snap *)
      match snap with
      | None => Some s
      | Some sn =>
          Some (withState drawing (withStartPoint (Some (snap_point sn)) s))
      end
  | drawing =>
      (* 2. Set Second Point *)
      match mode s with
      | dim_leader =>
          let point := snapOrRay s snap (ev_ray ev) (startPoint s) in
          Some (withState offsetting (withEndPoint (Some point) s))   (* Elbow *)
      | _ =>
          (* Must Snap *)
          match snap with
          | None => Some s
          | Some sn =>
              let s := withEndPoint (Some (snap_point sn)) s in
              (* Check degenerate *)
              match startPoint s with
              | None => None
              | Some sp =>
                  if Rlt_dec (Vec.distanceTo sp (snap_point sn)) (1 / 1000)
                  then Some s
                  else
                    match mode s with
                    | dim_angle => Some (withState drawing_angle_p2 s)
                    | _ => Some (withState offsetting s)
                    end
              end
          end
      end
  | drawing_angle_p2 =>
      (* Angle Mode: Set Arm 2 - Can be free space *)
      let point := snapOrRay s snap (ev_ray ev) (startPoint s) in
      let s := withAngleP2 (Some point) s in
      (* Check degenerate *)
      match startPoint s with
      | None => None
      | Some sp =>
          if Rlt_dec (Vec.distanceTo sp point) (1 / 1000)
          then Some s
          else Some (withState offsetting s)
      end
  | offsetting =>
      (* Finalize - Can be free space *)
      let point := snapOrRay s snap (ev_ray ev) (startPoint s) in
      match mode s with
      | dim_leader =>
          (* Prompt for text *)
          match ev_prompt ev with
          | Some text =>
              match startPoint s, endPoint s with
              | Some sp, Some ep =>
                  let r := createDimension dim_leader sp ep point None
                                           (Some text) (dimensionRenderer s) in
                  Some (reset (withRenderer (clearPreview r) s))
              | _, _ => None
              end
          | None =>
              Some (reset (withRenderer
                             (clearPreview (dimensionRenderer s)) s))
          end
      | _ =>
          match startPoint s, endPoint s with
          | Some sp, Some ep =>
              let r := createDimension (mode s) sp ep point (angleP2 s) None
                                       (dimensionRenderer s) in
              Some (reset (withRenderer (clearPreview r) s))
          | _, _ => None
          end
      end
  end.

(* ===================================================================== *)
(** ** demo/main.ts                                                       *)
(* ===================================================================== *)

(** The [onChange] handler of the mode selector:
    [dimSystem.mode = v; dimSystem.cancel()]. *)
Definition onModeChange (v : DimensionType) (s : DimensionSystem)
    : DimensionSystem :=
  cancel (withMode v s).

(** The Escape key and the "cancel" action: [dimSystem.cancel()]. *)
Definition onEscape (s : DimensionSystem) : DimensionSystem := cancel s.

(* ===================================================================== *)
(** ** Notions used to state the properties                               *)
(* ===================================================================== *)

(** One step of the running minimum that all four snap loops perform. *)
Definition consider (st : Best) (c : SnapResult) : Best :=
  if Rlt_dec (snap_distance c) (fst st) then (snap_distance c, Some c) else st.

Definition scan (cs : list SnapResult) (st : Best) : Best :=
  fold_left consider cs st.

Definition vertexCandidates (mesh : Object3D) (point : Vector3)
    (vertices : list Vector3) : list SnapResult :=
  map (fun v => mkSnap v snap_vertex (Vec.distanceTo v point) mesh None)
      vertices.

Definition midpointCandidates (mesh : Object3D) (point : Vector3)
    (edges : list (Vector3 * Vector3)) : list SnapResult :=
  map (fun edge : Vector3 * Vector3 =>
         let mid := Vec.multiplyScalar (Vec.add (fst edge) (snd edge)) (1 / 2) in
         mkSnap mid snap_midpoint (Vec.distanceTo mid point) mesh
                (Some (fst edge, snd edge)))
      edges.

Definition centroidCandidates (mesh : Object3D) (point : Vector3)
    (v0 v1 v2 : Vector3) : list SnapResult :=
  let centroid := Vec.divideScalar (Vec.add (Vec.add v0 v1) v2) 3 in
  [mkSnap centroid snap_centroid (Vec.distanceTo centroid point) mesh None].

Definition edgeCandidates (mesh : Object3D) (point : Vector3)
    (edges : list (Vector3 * Vector3)) : list SnapResult :=
  map (fun edge : Vector3 * Vector3 =>
         let closest :=
           getClosestPointOnLineSegment point (fst edge) (snd edge) in
         mkSnap closest snap_edge (Vec.distanceTo closest point) mesh
                (Some (fst edge, snd edge)))
      edges.

(** Every candidate of every enabled category, in the order in which
    [getSnapPoint] visits them: vertices, midpoints, centroid, edges. *)
Definition snapCandidates (m : SnappingManager) (hit : Intersection)
    : list SnapResult :=
  match hit_object hit, hit_face hit with
  | Mesh g mw, Some f =>
      if isBufferGeometry g then
        let mesh := hit_object hit in
        let point := hit_point hit in
        let '(v0, v1, v2) := worldVertices g mw f in
        (if snapVertices m
         then vertexCandidates mesh point [v0; v1; v2] else [])
        ++ (if snapMidpoints m
            then midpointCandidates mesh point (triangleEdges v0 v1 v2)
            else [])
        ++ (if snapCentroids m
            then centroidCandidates mesh point v0 v1 v2 else [])
        ++ (if snapEdges m
            then edgeCandidates mesh point (triangleEdges v0 v1 v2)
            else [])
      else []
  | _, _ => []
  end.

(** What the running minimum knows after the candidates [seen], having
    started from the bound [d0] with no candidate. *)
Definition scanInv (d0 : R) (seen : list SnapResult) (st : Best) : Prop :=
  match snd st with
  | None =>
      fst st = d0 /\ forall c, In c seen -> d0 <= snap_distance c
  | Some r =>
      fst st = snap_distance r /\ snap_distance r < d0 /\
      exists i : nat,
        nth_error seen i = Some r /\
        (forall c, In c seen -> snap_distance r <= snap_distance c) /\
        (forall j c, (j < i)%nat -> nth_error seen j = Some c ->
                     snap_distance r < snap_distance c)
  end.

(** The points of the arc a builder drew: the third line of an angle
    group, after the two arms. *)
Definition groupArc (g : Group) : option (list Vector3) :=
  match g with
  | _ :: _ :: Line points _ :: _ => Some points
  | _ => None
  end.

(** A point of the plane curve placed in space: [x] along [xAxis] and [y]
    along [yAxis] from [center]. *)
Definition inFrame (center xAxis yAxis : Vector3) (p : R * R) : Vector3 :=
  Vec.add (Vec.add center (Vec.multiplyScalar xAxis (fst p)))
          (Vec.multiplyScalar yAxis (snd p)).

(** Distance of [x] from the infinite line through [a] and [b]. *)
Definition distToLine (x a b : Vector3) : R :=
  Vec.length (Vec.cross (Vec.sub x a) (Vec.sub b a)) / Vec.length (Vec.sub b a).

(** The angle between two vectors as analysis defines it. *)
Definition analyticAngle (u v : Vector3) : R :=
  acos (Vec.dot u v / (Vec.length u * Vec.length v)).

(** The label a builder attached to its group. *)
Fixpoint groupLabel (g : Group) : option Message :=
  match g with
  | [] => None
  | Label s :: _ => Some (sp_message s)
  | _ :: rest => groupLabel rest
  end.

(** Points of the half-line of a ray, and of the plane through [o] with
    normal [n]. *)
Definition onRay (r : Ray) (p : Vector3) : Prop :=
  exists t : R, 0 <= t /\ p = at_ r t.

Definition onPlane (n o p : Vector3) : Prop := Vec.dot n (Vec.sub p o) = 0.

Definition rayMeetsPlane (r : Ray) (n o : Vector3) : Prop :=
  exists p, onRay r p /\ onPlane n o p.

(** The origin through which [getRayPoint] lays its plane. *)
Definition resolveOrigin (s : DimensionSystem) (referencePoint : option Vector3)
    : Vector3 :=
  match referencePoint with
  | Some p => p
  | None => cp_origin (cplane s)
  end.

(** The scratch buffer is filled as far as the state needs it: what the
    non-null assertions of [onClick] rely on. *)
Definition bufferReady (s : DimensionSystem) : Prop :=
  match state s with
  | drawing | defining_cplane_p2 => startPoint s <> None
  | drawing_angle_p2 | offsetting | defining_cplane_p3 =>
      startPoint s <> None /\ endPoint s <> None
  | _ => True
  end.

(** Points of the segment from [a] to [b]. *)
Definition onSegment (a b q : Vector3) : Prop :=
  exists t : R,
    0 <= t <= 1 /\ q = Vec.add (Vec.multiplyScalar (Vec.sub b a) t) a.

(** A triangle mesh with the given corners, placed by the identity. *)
Definition triangleMesh (a b c : Vector3) : Object3D :=
  Mesh (mkGeometry true [a; b; c]) identity4.

(** A hit on that triangle at [p]. *)
Definition triangleHit (a b c p : Vector3) : Intersection :=
  mkHit p (triangleMesh a b c) (Some (mkFace 0 1 2 (V3 0 0 1))).

(** The midpoint and the centroid as the snap loops compute them. *)
Definition edgeMidpoint (edge : Vector3 * Vector3) : Vector3 :=
  Vec.multiplyScalar (Vec.add (fst edge) (snd edge)) (1 / 2).

Definition faceCentroid (v0 v1 v2 : Vector3) : Vector3 :=
  Vec.divideScalar (Vec.add (Vec.add v0 v1) v2) 3.

(** What a snap result of each kind is made of, for a triangle with the
    world-space corners [v0], [v1], [v2] and a raw hit point [p]. *)
Definition snapShape (m : SnappingManager) (v0 v1 v2 p : Vector3)
    (r : SnapResult) : Prop :=
  match snap_type r with
  | snap_vertex =>
      snapVertices m = true /\ In (snap_point r) [v0; v1; v2] /\
      snap_edgeVertices r = None
  | snap_midpoint =>
      snapMidpoints m = true /\
      exists e, In e (triangleEdges v0 v1 v2) /\
                snap_point r = edgeMidpoint e /\ snap_edgeVertices r = Some e
  | snap_centroid =>
      snapCentroids m = true /\ snap_point r = faceCentroid v0 v1 v2 /\
      snap_edgeVertices r = None
  | snap_edge =>
      snapEdges m = true /\
      exists e, In e (triangleEdges v0 v1 v2) /\
                snap_point r = getClosestPointOnLineSegment p (fst e) (snd e) /\
                snap_edgeVertices r = Some e
  | snap_face | snap_none => False
  end.

(** Two managers that agree on the enabled flag and the four toggles. *)
Definition sameToggles (m1 m2 : SnappingManager) : Prop :=
  enabled m1 = enabled m2 /\ snapVertices m1 = snapVertices m2 /\
  snapEdges m1 = snapEdges m2 /\ snapMidpoints m1 = snapMidpoints m2 /\
  snapCentroids m1 = snapCentroids m2.

(** The states of the plane-definition workflow. *)
Definition definingPlane (st : InteractionState) : bool :=
  match st with
  | defining_cplane_p1 | defining_cplane_p2 | defining_cplane_p3
  | defining_cplane_face | translating_cplane => true
  | _ => false
  end.

(** The states in which [onClick] returns at once when nothing snapped. *)
Definition requiresSnap (s : DimensionSystem) : bool :=
  match state s with
  | idle | defining_cplane_p1 | defining_cplane_p2 | defining_cplane_p3 => true
  | drawing => match mode s with dim_leader => false | _ => true end
  | _ => false
  end.

(** The ids of the records increase along the list and stay below the id
    counter, and the displayed groups are the rebuild of the records under
    the current style. *)
Definition rendererOk (r : DimensionRenderer) : Prop :=
  (0 <= nextId r)%Z /\
  StronglySorted Z.lt (map d_id (dimensionData r)) /\
  Forall (fun d => (0 <= d_id d < nextId r)%Z) (dimensionData r) /\
  dimensionsGroup r = rebuildGroups (style r) (dimensionData r).

Definition unitOrZero (v : Vector3) : Prop :=
  Vec.lengthSq v = 1 \/ v = Vec.zero.

(** What holds of every system that the constructor and the public
    operations produce. *)
Definition wellFormed (s : DimensionSystem) : Prop :=
  bufferReady s /\ rendererOk (dimensionRenderer s) /\
  unitOrZero (cp_normal (cplane s)).

(** [src/utils/CPlaneHelper.ts]: a group holding a grid in its local XZ
    plane and an axes helper; [update] places the group at the plane's origin
    and turns it by the quaternion that takes the local up axis to the
    normalized plane normal. *)
Record CPlaneHelper : Type := mkHelper {
  helper_position : Vector3;
  helper_quaternion : Quaternion
}.

Definition update (c : CPlane) (h : CPlaneHelper) : CPlaneHelper :=
  let defaultUp := V3 0 1 0 in
  mkHelper (cp_origin c)
           (setFromUnitVectors defaultUp (Vec.normalize (cp_normal c))).

(** Where the local up axis of the helper's grid points in the world. *)
Definition helperNormal (h : CPlaneHelper) : Vector3 :=
  applyQuaternion (V3 0 1 0) (helper_quaternion h).

(** The tip of an arrow cone in the world: [THREE.ConeGeometry] has its apex
    at the local point (0, height / 2, 0), which the mesh turns by its
    rotation and moves to its position. *)
Definition coneTip (pr : Primitive) : option Vector3 :=
  match pr with
  | Cone _ height _ _ _ rotation conePosition =>
      Some (Vec.add conePosition
                    (applyQuaternion (V3 0 (height / 2) 0) rotation))
  | _ => None
  end.

(** [demo/main.ts], the mousemove handler: the pointer in normalized
    device coordinates, from the client position and the bounding rectangle
    of the canvas. *)
Definition pointerNDC (clientX clientY left top width height : R) : R * R :=
  ((clientX - left) / width * 2 - 1, - ((clientY - top) / height) * 2 + 1).

(** [demo/main.ts], [getSnappableObjects].  A scene node carries its
    identity, whether it is a mesh, and its children; [scene.traverse] visits
    a node and then its children in order.  Each visited node is listed with
    the identity of its parent. *)
#[local] Set Warnings "-register-all".

Inductive SceneNode : Type :=
| Node (uid : nat) (isMesh : bool) (children : list SceneNode).

Fixpoint traverse (parent : option nat) (n : SceneNode)
    : list (option nat * nat * bool) :=
  match n with
  | Node u m cs => (parent, u, m) :: flat_map (traverse (Some u)) cs
  end.

Definition isOneOf (x : nat) (a b c : nat) : bool :=
  Nat.eqb x a || Nat.eqb x b || Nat.eqb x c.

(** The callback of the traversal: skip the three helper groups and their
    direct children, keep the meshes other than the snap marker. *)
Definition snappable (dimensionsGroup previewGroup cplaneHelper marker : nat)
    (entry : option nat * nat * bool) : bool :=
  let '(parent, child, mesh) := entry in
  if isOneOf child dimensionsGroup previewGroup cplaneHelper then false
  else if match parent with
          | Some p => isOneOf p dimensionsGroup previewGroup cplaneHelper
          | None => false
          end then false
  else if mesh then negb (Nat.eqb child marker)
  else false.

Definition getSnappableObjects
    (dimensionsGroup previewGroup cplaneHelper marker : nat)
    (scene : SceneNode) : list (option nat * nat * bool) :=
  filter (snappable dimensionsGroup previewGroup cplaneHelper marker)
         (traverse None scene).

(** Two partial styles applied one after the other, as one. *)
Definition later {A : Type} (o1 o2 : option A) : option A :=
  match o2 with Some _ => o2 | None => o1 end.

Definition overlay (p1 p2 : PartialStyle) : PartialStyle :=
  mkPartial (later (p_color p1) (p_color p2))
            (later (p_fontSize p1) (p_fontSize p2))
            (later (p_scale p1) (p_scale p2))
            (later (p_depthTest p1) (p_depthTest p2))
            (later (p_offset p1) (p_offset p2))
            (later (p_units p1) (p_units p2))
            (later (p_textBgColor p1) (p_textBgColor p2))
            (later (p_textMode p1) (p_textMode p2)).

(** The upper 3x3 block of a world matrix applied to a direction. *)
Definition linearPart (m : Matrix4) (t : Vector3) : Vector3 :=
  V3 (el m 0 * vx t + el m 4 * vy t + el m 8 * vz t)
     (el m 1 * vx t + el m 5 * vy t + el m 9 * vz t)
     (el m 2 * vx t + el m 6 * vy t + el m 10 * vz t).

Definition det3 (m : Matrix4) : R :=
  el m 0 * (el m 10 * el m 5 - el m 6 * el m 9)
  + el m 1 * (el m 6 * el m 8 - el m 10 * el m 4)
  + el m 2 * (el m 9 * el m 4 - el m 5 * el m 8).

(** [demo/main.ts], the two pointer listeners: a mouse move calls
    [onMouseMove] (the temporary plane goes to the plane helper), a click on
    the canvas calls [onClick]. *)
Inductive Input : Type :=
| Move (ev : PointerEvent)
| Click (ev : PointerEvent).

Definition handle (i : Input) (s : DimensionSystem) : option DimensionSystem :=
  match i with
  | Move ev => Some (fst (onMouseMove ev s))
  | Click ev => onClick ev s
  end.

Fixpoint run (inputs : list Input) (s : DimensionSystem)
    : option DimensionSystem :=
  match inputs with
  | [] => Some s
  | i :: rest =>
      match handle i s with
      | Some s' => run rest s'
      | None => None
      end
  end.

(* ===================================================================== *)
(** * Properties                                                          *)
(* ===================================================================== *)

(** ** Vectors and square roots *)

Lemma V3_eq (a b c x y z : R) :
  a = x -> b = y -> c = z -> V3 a b c = V3 x y z.
Proof. intros -> -> ->; reflexivity. Qed.

Lemma Vector3_eta (v : Vector3) : v = V3 (vx v) (vy v) (vz v).
Proof. destruct v; reflexivity. Qed.

Lemma lengthSq_nonneg (a : Vector3) : 0 <= Vec.lengthSq a.
Proof.
  unfold Vec.lengthSq, Vec.dot.
  pose proof (Rle_0_sqr (vx a)); pose proof (Rle_0_sqr (vy a));
    pose proof (Rle_0_sqr (vz a)).
  unfold Rsqr in *; lra.
Qed.

Lemma distanceToSquared_nonneg (a b : Vector3) : 0 <= Vec.distanceToSquared a b.
Proof.
  unfold Vec.distanceToSquared; cbv zeta.
  pose proof (Rle_0_sqr (vx a - vx b)); pose proof (Rle_0_sqr (vy a - vy b));
    pose proof (Rle_0_sqr (vz a - vz b)).
  unfold Rsqr in *; lra.
Qed.

Lemma distanceTo_nonneg (a b : Vector3) : 0 <= Vec.distanceTo a b.
Proof. apply sqrt_pos. Qed.

Lemma distanceTo_self (a : Vector3) : Vec.distanceTo a a = 0.
Proof.
  unfold Vec.distanceTo, Vec.distanceToSquared; cbv zeta.
  replace ((vx a - vx a) * (vx a - vx a) + (vy a - vy a) * (vy a - vy a)
           + (vz a - vz a) * (vz a - vz a)) with 0 by ring.
  apply sqrt_0.
Qed.

Lemma distanceTo_length (a b : Vector3) :
  Vec.distanceTo a b = Vec.length (Vec.sub a b).
Proof. reflexivity. Qed.

Lemma length_nonneg (a : Vector3) : 0 <= Vec.length a.
Proof. apply sqrt_pos. Qed.

Lemma length_sqr (a : Vector3) : Vec.length a * Vec.length a = Vec.lengthSq a.
Proof. apply sqrt_sqrt, lengthSq_nonneg. Qed.

Lemma length_zero_iff (a : Vector3) : Vec.length a = 0 <-> a = Vec.zero.
Proof.
  split.
  - intros H. apply sqrt_eq_0 in H; [| apply lengthSq_nonneg].
    unfold Vec.lengthSq, Vec.dot in H.
    destruct a as [x y z]; simpl in *.
    assert (x = 0) by nra. assert (y = 0) by nra. assert (z = 0) by nra.
    subst; reflexivity.
  - intros ->. unfold Vec.length, Vec.lengthSq, Vec.dot, Vec.zero; simpl.
    replace (0 * 0 + 0 * 0 + 0 * 0) with 0 by ring. apply sqrt_0.
Qed.

Lemma length_pos (u : Vector3) : u <> Vec.zero -> 0 < Vec.length u.
Proof.
  intros H. pose proof (length_nonneg u).
  assert (Vec.length u <> 0) by (intros E; apply H, length_zero_iff, E).
  lra.
Qed.

Lemma dot_comm (u v : Vector3) : Vec.dot u v = Vec.dot v u.
Proof. destruct u, v; unfold Vec.dot; simpl; ring. Qed.

(** A square root is settled by exhibiting it. *)
Lemma sqrt_is (x y : R) : 0 <= y -> y * y = x -> sqrt x = y.
Proof. intros Hy Hx. apply sqrt_lem_1; try assumption. rewrite <- Hx. nra. Qed.

Lemma orElse_nonzero (x d : R) : x <> 0 -> Vec.orElse x d = x.
Proof. intros H; unfold Vec.orElse; destruct (Req_dec_T x 0); tauto. Qed.

Lemma orElse_zero (d : R) : Vec.orElse 0 d = d.
Proof. unfold Vec.orElse; destruct (Req_dec_T 0 0); tauto. Qed.

(** [normalize] leaves the zero vector alone and makes every other vector
    a unit vector. *)
Lemma normalize_zero : Vec.normalize Vec.zero = Vec.zero.
Proof.
  unfold Vec.normalize.
  replace (Vec.length Vec.zero) with 0
    by (symmetry; apply length_zero_iff; reflexivity).
  rewrite orElse_zero.
  unfold Vec.divideScalar, Vec.multiplyScalar, Vec.zero; simpl.
  apply V3_eq; field.
Qed.

Lemma normalize_nonzero (a : Vector3) :
  a <> Vec.zero -> Vec.normalize a = Vec.multiplyScalar a (1 / Vec.length a).
Proof.
  intros H. unfold Vec.normalize, Vec.divideScalar.
  rewrite orElse_nonzero; [reflexivity|].
  intros E; apply H, length_zero_iff, E.
Qed.

Lemma lengthSq_multiplyScalar (a : Vector3) (s : R) :
  Vec.lengthSq (Vec.multiplyScalar a s) = s * s * Vec.lengthSq a.
Proof. unfold Vec.lengthSq, Vec.dot, Vec.multiplyScalar; simpl; ring. Qed.

Lemma lengthSq_normalize (a : Vector3) :
  a <> Vec.zero -> Vec.lengthSq (Vec.normalize a) = 1.
Proof.
  intros H. rewrite normalize_nonzero by assumption.
  rewrite lengthSq_multiplyScalar, <- length_sqr.
  assert (Vec.length a <> 0) by (intros E; apply H, length_zero_iff, E).
  field; assumption.
Qed.

Lemma applyMatrix4_identity (v : Vector3) : applyMatrix4 v identity4 = v.
Proof.
  destruct v as [x y z]. unfold applyMatrix4, el, identity4; simpl.
  apply V3_eq; field.
Qed.

(** ** The running minimum of the snap loops *)

Lemma vertexSnap_scan mesh point vs st :
  vertexSnap mesh point vs st = scan (vertexCandidates mesh point vs) st.
Proof.
  unfold vertexSnap, scan, vertexCandidates.
  revert st; induction vs as [| v vs IH]; intros st; simpl; [reflexivity|].
  rewrite IH; reflexivity.
Qed.

Lemma midpointSnap_scan mesh point es st :
  midpointSnap mesh point es st = scan (midpointCandidates mesh point es) st.
Proof.
  unfold midpointSnap, scan, midpointCandidates.
  revert st; induction es as [| e es IH]; intros st; simpl; [reflexivity|].
  rewrite IH; reflexivity.
Qed.

Lemma edgeSnap_scan mesh point es st :
  edgeSnap mesh point es st = scan (edgeCandidates mesh point es) st.
Proof.
  unfold edgeSnap, scan, edgeCandidates.
  revert st; induction es as [| e es IH]; intros st; simpl; [reflexivity|].
  rewrite IH; reflexivity.
Qed.

Lemma centroidSnap_scan mesh point v0 v1 v2 st :
  centroidSnap mesh point v0 v1 v2 st
  = scan (centroidCandidates mesh point v0 v1 v2) st.
Proof. reflexivity. Qed.

Lemma scan_app cs ds st : scan (cs ++ ds) st = scan ds (scan cs st).
Proof. unfold scan; apply fold_left_app. Qed.

Lemma scan_nil st : scan [] st = st.
Proof. reflexivity. Qed.

Lemma scan_cons c cs st : scan (c :: cs) st = scan cs (consider st c).
Proof. reflexivity. Qed.

(** The search of [getSnapPoint] is one running minimum over the combined
    candidate list. *)
Lemma findBestSnap_scan (m : SnappingManager) (hit : Intersection) :
  findBestSnap m hit = snd (scan (snapCandidates m hit) (snapThreshold, None)).
Proof.
  unfold findBestSnap, snapCandidates.
  destruct (hit_object hit) as [g mw | mw]; [| reflexivity].
  destruct (hit_face hit) as [f |]; [| reflexivity].
  destruct (isBufferGeometry g); [| reflexivity].
  destruct (worldVertices g mw f) as [[v0 v1] v2].
  rewrite !scan_app.
  destruct (snapVertices m), (snapMidpoints m), (snapCentroids m), (snapEdges m);
    rewrite ?vertexSnap_scan, ?midpointSnap_scan, ?centroidSnap_scan,
            ?edgeSnap_scan, ?scan_nil; reflexivity.
Qed.

Section RunningMinimum.

(** The bound from which the search starts: the snap threshold. *)
Variable d0 : R.

Lemma scanInv_start : scanInv d0 [] (d0, None).
Proof. simpl; split; [reflexivity | intros c []]. Qed.

Lemma scanInv_step (seen : list SnapResult) (st : Best) (c : SnapResult) :
  scanInv d0 seen st -> scanInv d0 (seen ++ [c]) (consider st c).
Proof.
  destruct st as [d [r |]]; unfold scanInv, consider; simpl.
  - intros (Hd & Hlt & i & Hi & Hmin & Hfirst); subst d.
    destruct (Rlt_dec (snap_distance c) (snap_distance r)) as [Hc | Hc]; simpl.
    + split; [reflexivity|]. split; [lra|].
      exists (List.length seen). repeat split.
      * rewrite nth_error_app2, Nat.sub_diag by lia. reflexivity.
      * intros c' Hin. apply in_app_or in Hin as [Hin | [<- | []]].
        -- specialize (Hmin _ Hin). lra.
        -- lra.
      * intros j c' Hj Hnth. rewrite nth_error_app1 in Hnth by assumption.
        apply nth_error_In in Hnth. specialize (Hmin _ Hnth). lra.
    + split; [reflexivity|]. split; [assumption|].
      assert (Hlen : (i < List.length seen)%nat)
        by (apply nth_error_Some; rewrite Hi; discriminate).
      exists i. repeat split.
      * rewrite nth_error_app1 by assumption. exact Hi.
      * intros c' Hin. apply in_app_or in Hin as [Hin | [<- | []]].
        -- apply Hmin, Hin.
        -- lra.
      * intros j c' Hj Hnth. rewrite nth_error_app1 in Hnth by lia.
        eapply Hfirst; eassumption.
  - intros (Hd & Hall); subst d.
    destruct (Rlt_dec (snap_distance c) d0) as [Hc | Hc]; simpl.
    + split; [reflexivity|]. split; [assumption|].
      exists (List.length seen). repeat split.
      * rewrite nth_error_app2, Nat.sub_diag by lia. reflexivity.
      * intros c' Hin. apply in_app_or in Hin as [Hin | [<- | []]].
        -- specialize (Hall _ Hin). lra.
        -- lra.
      * intros j c' Hj Hnth. rewrite nth_error_app1 in Hnth by assumption.
        apply nth_error_In in Hnth. specialize (Hall _ Hnth). lra.
    + split; [reflexivity|].
      intros c' Hin. apply in_app_or in Hin as [Hin | [<- | []]].
      * apply Hall, Hin.
      * lra.
Qed.

Lemma scanInv_scan (cs seen : list SnapResult) (st : Best) :
  scanInv d0 seen st -> scanInv d0 (seen ++ cs) (scan cs st).
Proof.
  revert seen st; induction cs as [| c cs IH]; intros seen st H.
  - rewrite app_nil_r; exact H.
  - replace (seen ++ c :: cs) with ((seen ++ [c]) ++ cs)
      by (rewrite <- app_assoc; reflexivity).
    apply IH, scanInv_step, H.
Qed.

End RunningMinimum.

(** Every candidate records its own distance to the raw hit point. *)
Lemma snapCandidates_distance (m : SnappingManager) (hit : Intersection) c :
  In c (snapCandidates m hit) ->
  snap_distance c = Vec.distanceTo (snap_point c) (hit_point hit).
Proof.
  unfold snapCandidates.
  destruct (hit_object hit) as [g mw | mw]; [| intros []].
  destruct (hit_face hit) as [f |]; [| intros []].
  destruct (isBufferGeometry g); [| intros []].
  destruct (worldVertices g mw f) as [[v0 v1] v2].
  intros Hin.
  repeat (apply in_app_or in Hin as [Hin | Hin]);
    [ destruct (snapVertices m) | destruct (snapMidpoints m)
    | destruct (snapCentroids m) | destruct (snapEdges m) ];
    simpl in Hin;
    repeat (destruct Hin as [<- | Hin]; [reflexivity|]); destruct Hin.
Qed.

Lemma snapCandidates_nonneg (m : SnappingManager) (hit : Intersection) c :
  In c (snapCandidates m hit) -> 0 <= snap_distance c.
Proof.
  intros H. rewrite (snapCandidates_distance m hit c H).
  apply distanceTo_nonneg.
Qed.

(** Nothing beats a candidate that sits exactly on the hit point. *)
Lemma scan_floor (cs : list SnapResult) (b : option SnapResult) :
  (forall c, In c cs -> 0 <= snap_distance c) -> scan cs (0, b) = (0, b).
Proof.
  induction cs as [| c cs IH]; intros H; [reflexivity|].
  unfold scan; simpl. unfold consider at 2; simpl.
  destruct (Rlt_dec (snap_distance c) 0) as [Hlt | _].
  - specialize (H c (or_introl eq_refl)). lra.
  - apply IH. intros c' Hc'. apply H; right; exact Hc'.
Qed.

Lemma worldVertices_triangle (a b c n : Vector3) :
  worldVertices (mkGeometry true [a; b; c]) identity4 (mkFace 0 1 2 n)
  = (a, b, c).
Proof.
  unfold worldVertices, fromBufferAttribute.
  cbn [position face_a face_b face_c nth].
  rewrite !applyMatrix4_identity. reflexivity.
Qed.

Lemma snapCandidates_triangle (m : SnappingManager) (a b c p : Vector3) :
  snapCandidates m (triangleHit a b c p)
  = (if snapVertices m
     then vertexCandidates (triangleMesh a b c) p [a; b; c] else [])
    ++ (if snapMidpoints m
        then midpointCandidates (triangleMesh a b c) p (triangleEdges a b c)
        else [])
    ++ (if snapCentroids m
        then centroidCandidates (triangleMesh a b c) p a b c else [])
    ++ (if snapEdges m
        then edgeCandidates (triangleMesh a b c) p (triangleEdges a b c)
        else []).
Proof.
  unfold snapCandidates, triangleHit, triangleMesh.
  cbn [hit_object hit_face hit_point isBufferGeometry].
  rewrite worldVertices_triangle. reflexivity.
Qed.

(** Scenario 1 of the specification in its sharpest form: a hit exactly on
    a corner of the triangle snaps to that corner. *)
Lemma getSnapPoint_on_vertex (m : SnappingManager) (a b c : Vector3)
    (rest : list Intersection) :
  enabled m = true -> snapVertices m = true ->
  fst (getSnapPoint m (triangleHit a b c a :: rest))
  = Some (mkSnap a snap_vertex 0 (triangleMesh a b c) None).
Proof.
  intros He Hv.
  assert (Hbest : findBestSnap m (triangleHit a b c a)
                  = Some (mkSnap a snap_vertex 0 (triangleMesh a b c) None)).
  { rewrite findBestSnap_scan.
    pose proof (snapCandidates_nonneg m (triangleHit a b c a)) as Hnn.
    rewrite snapCandidates_triangle in *. rewrite Hv in *.
    unfold vertexCandidates in *. cbn [map app] in *.
    rewrite distanceTo_self in *.
    rewrite scan_cons. unfold consider at 1; cbn [fst snap_distance].
    destruct (Rlt_dec 0 snapThreshold) as [_ | Hn];
      [| exfalso; apply Hn; unfold snapThreshold; lra].
    rewrite scan_floor; [reflexivity|].
    intros c' Hc'. apply Hnn. right. exact Hc'. }
  unfold getSnapPoint. rewrite He; cbn [negb]. rewrite Hbest. reflexivity.
Qed.

(** ** Snapping *)

(** C1.  With snapping enabled, whatever [getSnapPoint] returns for a hit is
    taken from the combined candidate list of the enabled categories
    (vertices, then midpoints, then the centroid, then the closest points on
    the edges); no candidate is closer to the raw hit point, and every
    candidate that comes earlier in that order is strictly farther, so among
    equally near candidates the first one wins.  The query always answers:
    when it returns nothing, every candidate is at least a threshold away. *)
Theorem getSnapPoint_nearest_first
    (m : SnappingManager) (hit : Intersection) (rest : list Intersection) :
  enabled m = true ->
  let cands := snapCandidates m hit in
  let d := fun c => Vec.distanceTo (snap_point c) (hit_point hit) in
  match fst (getSnapPoint m (hit :: rest)) with
  | Some r =>
      exists i : nat,
        nth_error cands i = Some r /\
        (forall c, In c cands -> d r <= d c) /\
        (forall j c, (j < i)%nat -> nth_error cands j = Some c -> d r < d c)
  | None => forall c, In c cands -> snapThreshold <= d c
  end.
Proof.
  intros He cands d.
  assert (Hfst : fst (getSnapPoint m (hit :: rest)) = findBestSnap m hit).
  { unfold getSnapPoint. rewrite He; cbn [negb].
    destruct (findBestSnap m hit); reflexivity. }
  rewrite Hfst, findBestSnap_scan.
  pose proof (scanInv_scan snapThreshold (snapCandidates m hit) []
                (snapThreshold, None) (scanInv_start snapThreshold)) as Hinv.
  cbn [app] in Hinv. fold cands in Hinv |- *.
  assert (Hd : forall c, In c cands -> snap_distance c = d c)
    by (intros c Hc; apply snapCandidates_distance with (m := m); exact Hc).
  unfold scanInv in Hinv.
  destruct (snd (scan cands (snapThreshold, None))) as [r |].
  - destruct Hinv as (_ & _ & i & Hi & Hmin & Hfirst).
    assert (Hr : In r cands) by (eapply nth_error_In; exact Hi).
    exists i. split; [exact Hi|]. split.
    + intros c Hc. rewrite <- (Hd r Hr), <- (Hd c Hc). apply Hmin, Hc.
    + intros j c Hj Hc.
      rewrite <- (Hd r Hr), <- (Hd c (nth_error_In _ _ Hc)).
      eapply Hfirst; eassumption.
  - destruct Hinv as (_ & Hall). intros c Hc. rewrite <- (Hd c Hc).
    apply Hall, Hc.
Qed.

Lemma getSnapPoint_nearest_first_witness :
  exists i : nat,
    nth_error (snapCandidates newSnappingManager
                 (triangleHit (V3 0 0 0) (V3 1 0 0) (V3 0 1 0) (V3 0 0 0))) i
    = Some (mkSnap (V3 0 0 0) snap_vertex 0
              (triangleMesh (V3 0 0 0) (V3 1 0 0) (V3 0 1 0)) None).
Proof.
  pose proof (getSnapPoint_nearest_first newSnappingManager
                (triangleHit (V3 0 0 0) (V3 1 0 0) (V3 0 1 0) (V3 0 0 0)) []
                eq_refl) as H.
  cbv zeta in H.
  rewrite getSnapPoint_on_vertex in H by reflexivity.
  destruct H as (i & Hi & _). exists i. exact Hi.
Defined.

(** C2.  The threshold is 0.2 world units.  Whenever [getSnapPoint] returns a
    snap result there was a hit, and the returned point is strictly closer
    than the threshold to the raw hit point; and when no candidate of the
    hit triangle is strictly within the threshold, the query returns none
    although a surface was hit. *)
Theorem getSnapPoint_within_threshold
    (m : SnappingManager) (intersects : list Intersection) :
  snapThreshold = 2 / 10 /\
  (forall r, fst (getSnapPoint m intersects) = Some r ->
     exists hit rest,
       intersects = hit :: rest /\
       Vec.distanceTo (snap_point r) (hit_point hit) < snapThreshold) /\
  (forall hit rest,
     intersects = hit :: rest ->
     (forall c, In c (snapCandidates m hit) ->
                ~ Vec.distanceTo (snap_point c) (hit_point hit) < snapThreshold) ->
     fst (getSnapPoint m intersects) = None).
Proof.
  split; [reflexivity|].
  assert (Hinv : forall hit,
             scanInv snapThreshold (snapCandidates m hit)
                     (scan (snapCandidates m hit) (snapThreshold, None))).
  { intros hit.
    apply (scanInv_scan snapThreshold (snapCandidates m hit) []
             (snapThreshold, None) (scanInv_start snapThreshold)). }
  split.
  - intros r Hr. unfold getSnapPoint in Hr.
    destruct (negb (enabled m)); [discriminate|].
    destruct intersects as [| hit rest]; [discriminate|].
    exists hit, rest. split; [reflexivity|].
    destruct (findBestSnap m hit) as [b |] eqn:Hb; [| discriminate].
    cbn [fst] in Hr. injection Hr as ->.
    rewrite findBestSnap_scan in Hb. specialize (Hinv hit).
    unfold scanInv in Hinv. rewrite Hb in Hinv.
    destruct Hinv as (_ & Hlt & i & Hi & _).
    rewrite <- (snapCandidates_distance m hit r (nth_error_In _ _ Hi)).
    exact Hlt.
  - intros hit rest -> Hfar. unfold getSnapPoint.
    destruct (negb (enabled m)); [reflexivity|].
    destruct (findBestSnap m hit) as [b |] eqn:Hb; [| reflexivity].
    exfalso. rewrite findBestSnap_scan in Hb. specialize (Hinv hit).
    unfold scanInv in Hinv. rewrite Hb in Hinv.
    destruct Hinv as (_ & Hlt & i & Hi & _).
    apply (Hfar b (nth_error_In _ _ Hi)).
    rewrite <- (snapCandidates_distance m hit b (nth_error_In _ _ Hi)).
    exact Hlt.
Qed.

Lemma getSnapPoint_within_threshold_witness :
  Vec.distanceTo (V3 0 0 0) (V3 0 0 0) < snapThreshold.
Proof.
  destruct (getSnapPoint_within_threshold newSnappingManager
              [triangleHit (V3 0 0 0) (V3 1 0 0) (V3 0 1 0) (V3 0 0 0)])
    as (_ & Hsome & _).
  destruct (Hsome _ (getSnapPoint_on_vertex newSnappingManager
                       (V3 0 0 0) (V3 1 0 0) (V3 0 1 0) [] eq_refl eq_refl))
    as (hit & rest & Heq & Hlt).
  injection Heq as <- <-. exact Hlt.
Defined.

(** ** The linear builder *)

Lemma distanceTo_sym (a b : Vector3) : Vec.distanceTo a b = Vec.distanceTo b a.
Proof.
  unfold Vec.distanceTo, Vec.distanceToSquared; cbv zeta. f_equal. ring.
Qed.

Lemma sub_add_cancel (a v : Vector3) : Vec.sub (Vec.add a v) a = v.
Proof.
  destruct a, v; unfold Vec.sub, Vec.add; simpl. apply V3_eq; ring.
Qed.

Lemma distanceToSquared_on_line (a b p : Vector3) (t : R) :
  Vec.distanceToSquared (Vec.add (Vec.multiplyScalar (Vec.sub b a) t) a) p
  = t * t * Vec.dot (Vec.sub b a) (Vec.sub b a)
    - 2 * t * Vec.dot (Vec.sub b a) (Vec.sub p a)
    + Vec.dot (Vec.sub p a) (Vec.sub p a).
Proof.
  destruct a, b, p.
  unfold Vec.distanceToSquared, Vec.add, Vec.multiplyScalar, Vec.sub, Vec.dot;
    simpl. ring.
Qed.

(** Lagrange's identity. *)
Lemma cross_lagrange (u v : Vector3) :
  Vec.lengthSq (Vec.cross u v)
  = Vec.lengthSq u * Vec.lengthSq v - Vec.dot u v * Vec.dot u v.
Proof.
  destruct u, v; unfold Vec.lengthSq, Vec.cross, Vec.dot; simpl. ring.
Qed.

(** The offset vector is what remains of [O - A] once its component along
    the base line is taken away; this holds whatever scalar [normalize]
    divided by. *)
Lemma cross_linearPerpVec (a b o : Vector3) :
  Vec.cross (linearPerpVec a b o) (Vec.sub b a)
  = Vec.cross (Vec.sub o a) (Vec.sub b a).
Proof.
  unfold linearPerpVec, Vec.normalize, Vec.divideScalar.
  set (k := 1 / Vec.orElse (Vec.length (Vec.sub b a)) 1).
  destruct a, b, o;
    unfold Vec.cross, Vec.sub, Vec.multiplyScalar, Vec.dot; simpl.
  apply V3_eq; ring.
Qed.

Lemma cross_shifted_end (a b v : Vector3) :
  Vec.cross (Vec.sub (Vec.add b v) a) (Vec.sub b a)
  = Vec.cross v (Vec.sub b a).
Proof.
  destruct a, b, v; unfold Vec.cross, Vec.sub, Vec.add; simpl.
  apply V3_eq; ring.
Qed.

Lemma sub_nonzero_of_distance (a b : Vector3) :
  0 < Vec.distanceTo a b -> Vec.sub b a <> Vec.zero.
Proof.
  intros H E. rewrite distanceTo_sym, distanceTo_length, E in H.
  replace (Vec.length Vec.zero) with 0 in H
    by (symmetry; apply length_zero_iff; reflexivity).
  lra.
Qed.

Lemma dot_linearPerpVec (a b o : Vector3) :
  Vec.sub b a <> Vec.zero ->
  Vec.dot (linearPerpVec a b o) (Vec.sub b a) = 0.
Proof.
  intros Hne. unfold linearPerpVec. rewrite normalize_nonzero by assumption.
  assert (HL : Vec.length (Vec.sub b a) <> 0)
    by (intros E; apply Hne, length_zero_iff, E).
  pose proof (length_sqr (Vec.sub b a)) as Hsq.
  set (L := Vec.length (Vec.sub b a)) in *.
  assert (Hk : (1 / L) * (1 / L) * Vec.lengthSq (Vec.sub b a) = 1)
    by (rewrite <- Hsq; field; assumption).
  set (k := 1 / L) in *. clearbody k. clear Hsq HL.
  set (w := Vec.sub o a) in *. set (ab := Vec.sub b a) in *.
  clearbody w ab.
  transitivity (Vec.dot w ab * (1 - k * k * Vec.lengthSq ab)).
  - destruct w, ab;
      unfold Vec.lengthSq, Vec.dot, Vec.sub, Vec.multiplyScalar; simpl; ring.
  - rewrite Hk; ring.
Qed.

Lemma distToLine_linearPerpVec (a b o : Vector3) :
  Vec.sub b a <> Vec.zero ->
  distToLine o a b = Vec.length (linearPerpVec a b o).
Proof.
  intros Hne. unfold distToLine.
  rewrite <- cross_linearPerpVec.
  assert (HL : Vec.length (Vec.sub b a) <> 0)
    by (intros E; apply Hne, length_zero_iff, E).
  unfold Vec.length at 1.
  rewrite cross_lagrange, dot_linearPerpVec by assumption.
  replace (Vec.lengthSq (linearPerpVec a b o) * Vec.lengthSq (Vec.sub b a)
           - 0 * 0)
    with (Vec.lengthSq (linearPerpVec a b o) * Vec.lengthSq (Vec.sub b a))
    by ring.
  rewrite sqrt_mult by apply lengthSq_nonneg.
  fold (Vec.length (linearPerpVec a b o)). fold (Vec.length (Vec.sub b a)).
  field; assumption.
Qed.

(** [distToLine] is the least distance from [x] to a point of the line
    through [a] and [b], and some point of the line attains it. *)
Lemma distToLine_least (x a b : Vector3) :
  Vec.sub b a <> Vec.zero ->
  (forall t, distToLine x a b
             <= Vec.distanceTo (Vec.add (Vec.multiplyScalar (Vec.sub b a) t) a) x)
  /\
  exists t, Vec.distanceTo (Vec.add (Vec.multiplyScalar (Vec.sub b a) t) a) x
            = distToLine x a b.
Proof.
  intros Hne.
  pose proof (length_pos _ Hne) as HL.
  pose proof (length_sqr (Vec.sub b a)) as Hsq.
  assert (HD : 0 < Vec.lengthSq (Vec.sub b a))
    by (rewrite <- Hsq; apply Rmult_lt_0_compat; exact HL).
  assert (Hd : distToLine x a b
               = sqrt (Vec.lengthSq (Vec.cross (Vec.sub x a) (Vec.sub b a))
                       / Vec.lengthSq (Vec.sub b a))).
  { unfold distToLine, Vec.length. rewrite sqrt_div_alt by exact HD.
    reflexivity. }
  assert (Hsqd : forall t,
             Vec.distanceToSquared
               (Vec.add (Vec.multiplyScalar (Vec.sub b a) t) a) x
             = Vec.lengthSq (Vec.cross (Vec.sub x a) (Vec.sub b a))
               / Vec.lengthSq (Vec.sub b a)
               + Vec.lengthSq (Vec.sub b a)
                 * ((t - Vec.dot (Vec.sub b a) (Vec.sub x a)
                        / Vec.lengthSq (Vec.sub b a))
                    * (t - Vec.dot (Vec.sub b a) (Vec.sub x a)
                           / Vec.lengthSq (Vec.sub b a)))).
  { intros t. rewrite distanceToSquared_on_line, cross_lagrange.
    rewrite (dot_comm (Vec.sub x a) (Vec.sub b a)).
    unfold Vec.lengthSq in *. field. lra. }
  split.
  - intros t. rewrite Hd. unfold Vec.distanceTo. apply sqrt_le_1_alt.
    rewrite Hsqd.
    pose proof (Rle_0_sqr (t - Vec.dot (Vec.sub b a) (Vec.sub x a)
                               / Vec.lengthSq (Vec.sub b a))) as Hs.
    unfold Rsqr in Hs.
    pose proof (Rmult_le_pos _ _ (Rlt_le _ _ HD) Hs). lra.
  - exists (Vec.dot (Vec.sub b a) (Vec.sub x a) / Vec.lengthSq (Vec.sub b a)).
    rewrite Hd. unfold Vec.distanceTo. f_equal. rewrite Hsqd. ring.
Qed.

(** C3.  When the base line is at least 0.001 long the linear builder
    returns a group whose first line, the dimension line, runs from [A + v]
    to [B + v], where [v] is [O - A] minus its projection onto
    [normalize (B - A)]; [v] is perpendicular to the base line, and both ends
    of the dimension line are exactly as far from the infinite line through
    [A] and [B] as the offset point [O] is, namely [|v|]. *)
Theorem linear_dimension_line_offset
    (st : DimensionStyle) (data : DimensionData) (isPreview : bool) :
  let A := d_start data in
  let B := d_end data in
  let O := d_offsetPoint data in
  1 / 1000 <= Vec.distanceTo A B ->
  let d := Vec.normalize (Vec.sub B A) in
  let v := Vec.sub (Vec.sub O A)
                   (Vec.multiplyScalar d (Vec.dot (Vec.sub O A) d)) in
  (exists mat rest,
     buildLinearGeometry st data isPreview
     = Some (Line [Vec.add A v; Vec.add B v] mat :: rest)) /\
  Vec.dot v (Vec.sub B A) = 0 /\
  distToLine (Vec.add A v) A B = distToLine O A B /\
  distToLine (Vec.add B v) A B = distToLine O A B /\
  distToLine O A B = Vec.length v.
Proof.
  intros A B O Hlen d v.
  assert (Hne : Vec.sub B A <> Vec.zero)
    by (apply sub_nonzero_of_distance; lra).
  change v with (linearPerpVec A B O).
  split; [| split; [| split; [| split]]].
  - unfold buildLinearGeometry. fold A B O.
    destruct (Rlt_dec (Vec.distanceTo A B) (1 / 1000)) as [Hlt | _]; [lra|].
    eexists _, _. reflexivity.
  - apply dot_linearPerpVec, Hne.
  - unfold distToLine.
    rewrite sub_add_cancel, cross_linearPerpVec. reflexivity.
  - unfold distToLine.
    rewrite cross_shifted_end, cross_linearPerpVec. reflexivity.
  - apply distToLine_linearPerpVec, Hne.
Qed.

Lemma distance_2_0 : Vec.distanceTo (V3 0 0 0) (V3 2 0 0) = 2.
Proof.
  unfold Vec.distanceTo, Vec.distanceToSquared; simpl.
  apply sqrt_is; lra.
Qed.

(** Scenario 2 of the specification: A = (0,0,0), B = (2,0,0), O = (1,1,0). *)
Lemma linear_dimension_line_offset_witness :
  distToLine (V3 1 1 0) (V3 0 0 0) (V3 2 0 0)
  = Vec.length (linearPerpVec (V3 0 0 0) (V3 2 0 0) (V3 1 1 0)).
Proof.
  refine (proj2 (proj2 (proj2 (proj2
    (linear_dimension_line_offset defaultStyle
       (mkData 0 dim_linear (V3 0 0 0) (V3 2 0 0) (V3 1 1 0) None None)
       false _))))).
  cbn [d_start d_end]. rewrite distance_2_0. lra.
Defined.

(** ** The angle builder *)

(** Cauchy-Schwarz, from Lagrange's identity. *)
Lemma dot_bound (u v : Vector3) :
  - (Vec.length u * Vec.length v) <= Vec.dot u v <= Vec.length u * Vec.length v.
Proof.
  pose proof (cross_lagrange u v) as HL.
  pose proof (lengthSq_nonneg (Vec.cross u v)) as Hc.
  pose proof (length_sqr u) as Hu. pose proof (length_sqr v) as Hv.
  pose proof (length_nonneg u) as Hu0. pose proof (length_nonneg v) as Hv0.
  set (a := Vec.length u) in *. set (b := Vec.length v) in *.
  set (x := Vec.dot u v) in *.
  assert (Hsq : x * x <= (a * b) * (a * b)).
  { replace ((a * b) * (a * b)) with ((a * a) * (b * b)) by ring.
    rewrite Hu, Hv. lra. }
  assert (Hab : 0 <= a * b) by (apply Rmult_le_pos; assumption).
  split; nra.
Qed.

Lemma clamp_inside (x lo hi : R) : lo <= x <= hi -> Vec.clamp x lo hi = x.
Proof.
  intros [H1 H2]. unfold Vec.clamp.
  rewrite (Rmin_right hi x) by assumption.
  apply Rmax_right; assumption.
Qed.

Lemma angleTo_analytic (u v : Vector3) :
  u <> Vec.zero -> v <> Vec.zero ->
  Vec.angleTo u v = analyticAngle u v /\
  -1 <= Vec.dot u v / (Vec.length u * Vec.length v) <= 1.
Proof.
  intros Hu Hv.
  pose proof (length_pos u Hu) as Hpu. pose proof (length_pos v Hv) as Hpv.
  assert (Hden : sqrt (Vec.lengthSq u * Vec.lengthSq v)
                 = Vec.length u * Vec.length v)
    by (apply sqrt_mult; apply lengthSq_nonneg).
  assert (Hpos : 0 < Vec.length u * Vec.length v)
    by (apply Rmult_lt_0_compat; assumption).
  assert (Hin : -1 <= Vec.dot u v / (Vec.length u * Vec.length v) <= 1).
  { pose proof (dot_bound u v) as [Hlo Hhi]. split.
    - apply Rle_trans with (- (Vec.length u * Vec.length v)
                            / (Vec.length u * Vec.length v)).
      + right. field. lra.
      + apply Rmult_le_compat_r; [left; apply Rinv_0_lt_compat, Hpos | exact Hlo].
    - apply Rle_trans with ((Vec.length u * Vec.length v)
                            / (Vec.length u * Vec.length v)).
      + apply Rmult_le_compat_r; [left; apply Rinv_0_lt_compat, Hpos | exact Hhi].
      + right. field. lra. }
  split; [| exact Hin].
  unfold Vec.angleTo, analyticAngle. cbv zeta. rewrite Hden.
  destruct (Req_dec_T (Vec.length u * Vec.length v) 0) as [E | _]; [lra|].
  rewrite clamp_inside by exact Hin. reflexivity.
Qed.

Lemma angleTo_bound (u v : Vector3) : 0 <= Vec.angleTo u v <= PI.
Proof.
  unfold Vec.angleTo; cbv zeta.
  destruct (Req_dec_T (sqrt (Vec.lengthSq u * Vec.lengthSq v)) 0).
  - pose proof PI_RGT_0. lra.
  - apply acos_bound.
Qed.

(** C4.  For a center [C] and arm ends [P1], [P2] with nonzero directions
    and a radius point at least 0.001 from [C], the angle builder returns a
    group, and the angle [theta] it computes is the analytic angle between
    [P1 - C] and [P2 - C]: it lies in the closed interval from 0 to pi and its
    cosine is the normalised dot product of the two directions.  It is this
    angle that the group shows: the label prints its degrees with one
    decimal, and the arc is the circle arc of that radius from angle 0 to
    [theta], in 24 steps, laid out from [C] with the first arm's direction
    as its x axis. *)
Theorem angle_builder_analytic_angle
    (st : DimensionStyle) (data : DimensionData) (isPreview : bool)
    (P2 : Vector3) :
  let C := d_start data in
  let P1 := d_end data in
  let radius := Vec.distanceTo C (d_offsetPoint data) in
  d_angleP2 data = Some P2 ->
  Vec.sub P1 C <> Vec.zero ->
  Vec.sub P2 C <> Vec.zero ->
  1 / 1000 <= radius ->
  let theta := angleOf C P1 P2 in
  theta = analyticAngle (Vec.sub P1 C) (Vec.sub P2 C) /\
  0 <= theta <= PI /\
  cos theta * (Vec.length (Vec.sub P1 C) * Vec.length (Vec.sub P2 C))
  = Vec.dot (Vec.sub P1 C) (Vec.sub P2 C) /\
  exists g yAxis,
    buildAngleGeometry st data isPreview = Some g /\
    groupLabel g = Some (toFixed (radToDeg theta) 1 degreeSuffix) /\
    groupArc g
    = Some (map (inFrame C (Vec.normalize (Vec.sub P1 C)) yAxis)
                (ellipsePoints radius theta 24)).
Proof.
  intros C P1 radius HP2 Hu Hv Hr theta.
  destruct (angleTo_analytic _ _ Hu Hv) as [Heq Hin].
  split; [exact Heq|]. split; [apply angleTo_bound|]. split.
  - unfold theta, angleOf; cbv zeta. rewrite Heq. unfold analyticAngle.
    rewrite cos_acos by exact Hin.
    pose proof (length_pos _ Hu). pose proof (length_pos _ Hv).
    field. split; lra.
  - unfold buildAngleGeometry. rewrite HP2. fold C P1 radius.
    destruct (Rlt_dec radius (1 / 1000)) as [Hlt | _]; [lra|].
    eexists _, _. split; [reflexivity|]. split; [reflexivity|].
    reflexivity.
Qed.

Lemma length_unit_x : Vec.length (V3 1 0 0) = 1.
Proof.
  unfold Vec.length, Vec.lengthSq, Vec.dot; simpl. apply sqrt_is; lra.
Qed.

Lemma V3_neq_x (a b c x y z : R) : a <> x -> V3 a b c <> V3 x y z.
Proof. intros H E; injection E; intros; contradiction. Qed.

Lemma V3_neq_y (a b c x y z : R) : b <> y -> V3 a b c <> V3 x y z.
Proof. intros H E; injection E; intros; contradiction. Qed.

Lemma V3_neq_z (a b c x y z : R) : c <> z -> V3 a b c <> V3 x y z.
Proof. intros H E; injection E; intros; contradiction. Qed.

Lemma analyticAngle_right :
  analyticAngle (Vec.sub (V3 1 0 0) (V3 0 0 0)) (Vec.sub (V3 0 1 0) (V3 0 0 0))
  = PI / 2.
Proof.
  unfold analyticAngle.
  replace (Vec.dot (Vec.sub (V3 1 0 0) (V3 0 0 0))
                   (Vec.sub (V3 0 1 0) (V3 0 0 0))) with 0
    by (unfold Vec.dot, Vec.sub; simpl; ring).
  unfold Rdiv. rewrite Rmult_0_l. apply acos_0.
Qed.

Lemma angleOf_right : angleOf (V3 0 0 0) (V3 1 0 0) (V3 0 1 0) = PI / 2.
Proof.
  unfold angleOf; cbv zeta.
  destruct (angleTo_analytic (Vec.sub (V3 1 0 0) (V3 0 0 0))
                             (Vec.sub (V3 0 1 0) (V3 0 0 0))) as [Heq _].
  - unfold Vec.sub, Vec.zero; simpl. apply V3_neq_x; lra.
  - unfold Vec.sub, Vec.zero; simpl. apply V3_neq_y; lra.
  - rewrite Heq. apply analyticAngle_right.
Qed.

(** The right angle of scenario 3: C = (0,0,0), P1 = (1,0,0), P2 = (0,1,0). *)
Lemma angle_builder_analytic_angle_witness :
  exists g,
    buildAngleGeometry defaultStyle
      (mkData 0 dim_angle (V3 0 0 0) (V3 1 0 0) (V3 1 0 0)
              (Some (V3 0 1 0)) None) false = Some g /\
    groupLabel g = Some (toFixed (radToDeg (PI / 2)) 1 degreeSuffix).
Proof.
  destruct (angle_builder_analytic_angle defaultStyle
              (mkData 0 dim_angle (V3 0 0 0) (V3 1 0 0) (V3 1 0 0)
                      (Some (V3 0 1 0)) None)
              false (V3 0 1 0) eq_refl)
    as (_ & _ & _ & g & yAxis & Hb & Hl & _).
  - unfold Vec.sub, Vec.zero; simpl. apply V3_neq_x; lra.
  - unfold Vec.sub, Vec.zero; simpl. apply V3_neq_y; lra.
  - cbn [d_start d_offsetPoint].
    rewrite distanceTo_sym, distanceTo_length.
    replace (Vec.sub (V3 1 0 0) (V3 0 0 0)) with (V3 1 0 0)
      by (unfold Vec.sub; simpl; apply V3_eq; ring).
    rewrite length_unit_x. lra.
  - exists g. split; [exact Hb|].
    cbn [d_start d_end] in Hl. rewrite angleOf_right in Hl. exact Hl.
Defined.

(** ** Degenerate inputs of the builders *)

(** C7, as stated, fails: an angle record without its second arm yields no
    group although its radius is 1. *)
Lemma angle_builder_none_without_second_arm :
  let data := mkData 0 dim_angle (V3 0 0 0) (V3 1 0 0) (V3 1 0 0) None None in
  buildAngleGeometry defaultStyle data false = None /\
  ~ Vec.distanceTo (d_start data) (d_offsetPoint data) < 1 / 1000.
Proof.
  cbv zeta. split; [reflexivity|].
  cbn [d_start d_offsetPoint].
  rewrite distanceTo_sym, distanceTo_length.
  replace (Vec.sub (V3 1 0 0) (V3 0 0 0)) with (V3 1 0 0)
    by (unfold Vec.sub; simpl; apply V3_eq; ring).
  rewrite length_unit_x. lra.
Qed.

(** C7, amended.  The builders are total.  The linear (and aligned) builder
    returns none exactly when [|B - A| < 0.001]; the angle builder returns
    none exactly when the record has no second arm or the radius [|C - R|] is
    below 0.001; the leader builder always returns a group; and
    [buildGeometry] dispatches on the record's type accordingly. *)
Theorem builders_none_iff
    (st : DimensionStyle) (data : DimensionData) (isPreview : bool) :
  (buildLinearGeometry st data isPreview = None
   <-> Vec.distanceTo (d_start data) (d_end data) < 1 / 1000) /\
  (buildAngleGeometry st data isPreview = None
   <-> d_angleP2 data = None
       \/ Vec.distanceTo (d_start data) (d_offsetPoint data) < 1 / 1000) /\
  buildLeaderGeometry st data isPreview <> None /\
  buildGeometry st data isPreview
  = match d_type data with
    | dim_angle => buildAngleGeometry st data isPreview
    | dim_leader => buildLeaderGeometry st data isPreview
    | dim_linear | dim_aligned => buildLinearGeometry st data isPreview
    end.
Proof.
  split; [| split; [| split]].
  - unfold buildLinearGeometry.
    destruct (Rlt_dec (Vec.distanceTo (d_start data) (d_end data)) (1 / 1000));
      split; intros H; try reflexivity; try assumption;
      try discriminate; contradiction.
  - unfold buildAngleGeometry.
    destruct (d_angleP2 data) as [p2 |].
    + destruct (Rlt_dec (Vec.distanceTo (d_start data) (d_offsetPoint data))
                        (1 / 1000)); split; intros H.
      * right; assumption.
      * reflexivity.
      * discriminate.
      * destruct H as [H | H]; [discriminate | contradiction].
    + split; intros _; [left|]; reflexivity.
  - discriminate.
  - unfold buildGeometry. destruct (d_type data); reflexivity.
Qed.

(** ** The free-point resolver *)

Lemma at_zero (r : Ray) : at_ r 0 = ray_origin r.
Proof.
  unfold at_, Vec.add, Vec.multiplyScalar; simpl.
  rewrite (Vector3_eta (ray_origin r)) at 4. apply V3_eq; ring.
Qed.

(** Signed offset of a point of the ray from the plane through [o]. *)
Lemma dot_at (n o : Vector3) (r : Ray) (t : R) :
  Vec.dot n (Vec.sub (at_ r t) o)
  = (Vec.dot n (ray_origin r) + - Vec.dot o n)
    + t * Vec.dot n (ray_direction r).
Proof.
  destruct r as [ro rd], n, o, ro, rd.
  unfold Vec.dot, Vec.sub, at_, Vec.add, Vec.multiplyScalar; simpl. ring.
Qed.

Lemma getRayPoint_unfold (s : DimensionSystem) (ray : Ray)
    (referencePoint : option Vector3) :
  let n := cp_normal (cplane s) in
  let o := resolveOrigin s referencePoint in
  let off := Vec.dot n (ray_origin ray) + - Vec.dot o n in
  let den := Vec.dot n (ray_direction ray) in
  getRayPoint s ray referencePoint
  = if Req_dec_T den 0 then
      if Req_dec_T off 0 then ray_origin ray else at_ ray 10
    else if Rle_dec 0 (- off / den) then at_ ray (- off / den)
         else at_ ray 10.
Proof.
  cbv zeta. unfold getRayPoint, intersectPlane, distanceToPlane, resolveOrigin,
    setFromNormalAndCoplanarPoint, distanceToPoint.
  cbn [plane_normal plane_constant].
  set (o := match referencePoint with
            | Some p => p
            | None => cp_origin (cplane s)
            end).
  rewrite (dot_comm (ray_origin ray) (cp_normal (cplane s))).
  destruct (Req_dec_T (Vec.dot (cp_normal (cplane s)) (ray_direction ray)) 0).
  - destruct (Req_dec_T _ 0); [apply at_zero | reflexivity].
  - destruct (Rle_dec 0 _); reflexivity.
Qed.

Lemma distance_at (r : Ray) (t : R) :
  0 <= t -> Vec.length (ray_direction r) = 1 ->
  Vec.distanceTo (at_ r t) (ray_origin r) = t.
Proof.
  intros Ht Hu. unfold Vec.distanceTo. apply sqrt_is; [exact Ht|].
  pose proof (length_sqr (ray_direction r)) as Hsq. rewrite Hu in Hsq.
  unfold Vec.lengthSq, Vec.dot in Hsq.
  unfold Vec.distanceToSquared, at_, Vec.add, Vec.multiplyScalar; simpl.
  destruct r as [ro rd]; simpl in *.
  transitivity (t * t * (vx rd * vx rd + vy rd * vy rd + vz rd * vz rd));
    [| ring].
  rewrite <- Hsq. ring.
Qed.

(** C8, as stated, fails: a ray that lies in the construction plane is
    parallel to it, and the resolver answers with the ray's origin, not with
    the point ten units along the ray. *)
Lemma getRayPoint_ray_in_plane :
  let ray := mkRay (V3 0 0 0) (V3 1 0 0) in
  let s := newDimensionSystem in
  Vec.dot (cp_normal (cplane s)) (ray_direction ray) = 0 /\
  getRayPoint s ray None = V3 0 0 0 /\
  getRayPoint s ray None <> at_ ray 10.
Proof.
  cbv zeta.
  assert (Hp : getRayPoint newDimensionSystem (mkRay (V3 0 0 0) (V3 1 0 0)) None
               = V3 0 0 0).
  { rewrite getRayPoint_unfold.
    cbn [newDimensionSystem cplane cp_normal cp_origin resolveOrigin
         ray_origin ray_direction].
    destruct (Req_dec_T _ 0) as [_ | Hn];
      [| exfalso; apply Hn; unfold Vec.dot; simpl; ring].
    destruct (Req_dec_T _ 0) as [_ | Hn];
      [reflexivity | exfalso; apply Hn; unfold Vec.dot; simpl; ring]. }
  split; [unfold Vec.dot; simpl; ring|]. split; [exact Hp|].
  rewrite Hp. unfold at_, Vec.add, Vec.multiplyScalar; simpl.
  apply V3_neq_x. lra.
Qed.

(** C8, amended.  The resolver always returns a point.  Let the plane be the
    one through the reference origin (the construction plane's own origin
    when none is given) with the construction plane's normal.  If the ray, a
    half-line, meets that plane, the returned point lies on both; it is the
    only common point when the ray is not parallel to the plane, and it is
    the ray's origin when the ray lies in the plane.  If the ray does not
    meet the plane, because it is parallel to it and off it or because the
    plane lies behind the ray, the returned point is the fallback at
    parameter 10 of the ray, which is 10 units from the ray's origin for a
    unit direction. *)
Theorem getRayPoint_resolves
    (s : DimensionSystem) (ray : Ray) (referencePoint : option Vector3) :
  let n := cp_normal (cplane s) in
  let o := resolveOrigin s referencePoint in
  let p := getRayPoint s ray referencePoint in
  (rayMeetsPlane ray n o -> onRay ray p /\ onPlane n o p) /\
  (Vec.dot n (ray_direction ray) <> 0 ->
   forall q, onRay ray q -> onPlane n o q -> q = p) /\
  (Vec.dot n (ray_direction ray) = 0 -> onPlane n o (ray_origin ray) ->
   p = ray_origin ray) /\
  (~ rayMeetsPlane ray n o -> p = at_ ray 10) /\
  (Vec.dot n (ray_direction ray) = 0 -> ~ onPlane n o (ray_origin ray) ->
   p = at_ ray 10) /\
  (Vec.length (ray_direction ray) = 1 ->
   Vec.distanceTo (at_ ray 10) (ray_origin ray) = 10).
Proof.
  intros n o p.
  pose proof (getRayPoint_unfold s ray referencePoint) as Hp.
  cbv zeta in Hp. fold n o p in Hp.
  set (off := Vec.dot n (ray_origin ray) + - Vec.dot o n) in *.
  set (den := Vec.dot n (ray_direction ray)) in *.
  assert (Hat : forall t, Vec.dot n (Vec.sub (at_ ray t) o) = off + t * den)
    by (intros t; apply dot_at).
  assert (Horigin : onPlane n o (ray_origin ray) <-> off = 0).
  { unfold onPlane. rewrite <- (at_zero ray), Hat. split; intros H; lra. }
  assert (Hmeet_par : den = 0 -> rayMeetsPlane ray n o -> off = 0).
  { intros Hd (q & (t & _ & ->) & Hq). unfold onPlane in Hq.
    rewrite Hat, Hd in Hq. lra. }
  assert (Hmeet_cut : den <> 0 ->
            forall t, 0 <= t -> onPlane n o (at_ ray t) -> t = - off / den).
  { intros Hd t _ Hq. unfold onPlane in Hq. rewrite Hat in Hq.
    field_simplify_eq; [lra | exact Hd]. }
  assert (Hon_cut : den <> 0 -> onPlane n o (at_ ray (- off / den))).
  { intros Hd. unfold onPlane. rewrite Hat. field. exact Hd. }
  split; [| split; [| split; [| split; [| split]]]].
  - intros Hmeet. destruct (Req_dec_T den 0) as [Hd | Hd].
    + pose proof (Hmeet_par Hd Hmeet) as Hoff.
      destruct (Req_dec_T off 0) as [_ | Hn]; [| contradiction].
      rewrite Hp. split; [| apply Horigin, Hoff].
      exists 0. split; [lra | symmetry; apply at_zero].
    + destruct Hmeet as (q & (t & Ht & ->) & Hq).
      pose proof (Hmeet_cut Hd t Ht Hq) as Et.
      destruct (Rle_dec 0 (- off / den)) as [Hpos | Hneg]; [| lra].
      rewrite Hp. split; [| apply Hon_cut, Hd].
      exists (- off / den). split; [exact Hpos | reflexivity].
  - intros Hd q (t & Ht & ->) Hq.
    pose proof (Hmeet_cut Hd t Ht Hq) as Et.
    destruct (Req_dec_T den 0) as [Hd0 | _]; [contradiction|].
    destruct (Rle_dec 0 (- off / den)) as [_ | Hneg]; [| lra].
    rewrite Hp, Et. reflexivity.
  - intros Hd Hon. apply Horigin in Hon.
    destruct (Req_dec_T den 0) as [_ | Hn]; [| contradiction].
    destruct (Req_dec_T off 0) as [_ | Hn]; [exact Hp | contradiction].
  - intros Hno. destruct (Req_dec_T den 0) as [Hd | Hd].
    + destruct (Req_dec_T off 0) as [Hoff | _]; [| exact Hp].
      exfalso. apply Hno. exists (ray_origin ray). split.
      * exists 0. split; [lra | symmetry; apply at_zero].
      * apply Horigin, Hoff.
    + destruct (Rle_dec 0 (- off / den)) as [Hpos | _]; [| exact Hp].
      exfalso. apply Hno. exists (at_ ray (- off / den)). split.
      * exists (- off / den). split; [exact Hpos | reflexivity].
      * apply Hon_cut, Hd.
  - intros Hd Hoff. rewrite Horigin in Hoff.
    destruct (Req_dec_T den 0) as [_ | Hn]; [| contradiction].
    destruct (Req_dec_T off 0) as [E | _]; [contradiction | exact Hp].
  - intros Hu. apply distance_at; [lra | exact Hu].
Qed.

(** ** Restyling *)

Lemma pick_pick {A : Type} (o : option A) (d : A) : pick o (pick o d) = pick o d.
Proof. destruct o; reflexivity. Qed.

Lemma mergeStyle_idempotent (st : DimensionStyle) (p : PartialStyle) :
  mergeStyle (mergeStyle st p) p = mergeStyle st p.
Proof.
  unfold mergeStyle; cbn [color fontSize scale depthTest offset units
                          textBgColor textMode].
  rewrite !pick_pick. reflexivity.
Qed.

Lemma mergeStyle_wholeStyle (st : DimensionStyle) :
  mergeStyle st (wholeStyle st) = st.
Proof. destruct st; reflexivity. Qed.

Lemma setStyle_fields (p : PartialStyle) (r : DimensionRenderer) :
  setStyle p r
  = mkRenderer (rebuildGroups (mergeStyle (style r) p) (dimensionData r))
               (previewGroup r) (dimensionData r) (nextId r)
               (mergeStyle (style r) p).
Proof. reflexivity. Qed.

(** The rebuild reads the records and never writes them. *)
Lemma rebuildAll_dimensionData (r : DimensionRenderer) :
  dimensionData (rebuildAll r) = dimensionData r.
Proof. reflexivity. Qed.

(** C9.  [setStyle] with the current style leaves the style and the records
    (hence their anchors) as they were and rebuilds the primitive sets as a
    function of the records and the style alone; a second call produces the
    same primitive sets, indeed the same renderer.  More generally [setStyle]
    with any fixed argument is idempotent. *)
Theorem setStyle_current_idempotent (r : DimensionRenderer) :
  let r1 := setStyle (wholeStyle (style r)) r in
  let r2 := setStyle (wholeStyle (style r1)) r1 in
  dimensionsGroup r1 = rebuildGroups (style r) (dimensionData r) /\
  dimensionsGroup r2 = dimensionsGroup r1 /\
  r2 = r1 /\
  style r1 = style r /\
  dimensionData r1 = dimensionData r /\
  dimensionData r2 = dimensionData r /\
  (forall p : PartialStyle,
     dimensionData (setStyle p r) = dimensionData r /\
     setStyle p (setStyle p r) = setStyle p r) /\
  (forall p : PartialStyle,
     mergeStyle (style r) p = style r ->
     dimensionsGroup (setStyle p r) = rebuildGroups (style r) (dimensionData r) /\
     dimensionsGroup (setStyle p (setStyle p r)) = dimensionsGroup (setStyle p r)).
Proof.
  cbv zeta.
  assert (Hidem : forall p, setStyle p (setStyle p r) = setStyle p r).
  { intros p. rewrite !setStyle_fields.
    cbn [style dimensionData previewGroup nextId].
    rewrite mergeStyle_idempotent. reflexivity. }
  assert (H1 : setStyle (wholeStyle (style r)) r
               = mkRenderer (rebuildGroups (style r) (dimensionData r))
                            (previewGroup r) (dimensionData r) (nextId r)
                            (style r)).
  { rewrite setStyle_fields, mergeStyle_wholeStyle. reflexivity. }
  rewrite H1. cbn [style dimensionsGroup dimensionData].
  assert (H2 : setStyle (wholeStyle (style r))
                 (mkRenderer (rebuildGroups (style r) (dimensionData r))
                             (previewGroup r) (dimensionData r) (nextId r)
                             (style r))
               = mkRenderer (rebuildGroups (style r) (dimensionData r))
                            (previewGroup r) (dimensionData r) (nextId r)
                            (style r)).
  { rewrite setStyle_fields. cbn [style dimensionData previewGroup nextId].
    rewrite mergeStyle_wholeStyle. reflexivity. }
  rewrite H2. cbn [dimensionsGroup dimensionData].
  repeat split; try reflexivity.
  - apply Hidem.
  - rewrite setStyle_fields. cbn [dimensionsGroup]. rewrite H. reflexivity.
  - rewrite Hidem. reflexivity.
Qed.

(** ** Rejected clicks *)

Lemma getSnapPoint_pair (m : SnappingManager) (l : list Intersection) :
  getSnapPoint m l = (fst (getSnapPoint m l), snd (getSnapPoint m l)).
Proof. apply surjective_pairing. Qed.

(** C10.  A click in state [drawing] of a mode other than leader, snapped to
    a point within 0.001 of the buffered start point, is rejected: the state
    stays [drawing], yet the end-point slot now holds the clicked point.
    Likewise a click in state [drawing_angle_p2] whose point (snapped, or
    resolved on the plane through the start point) lies within 0.001 of the
    start point leaves the state at [drawing_angle_p2] and the second-arm
    slot holding that point.  The other slots and the mode are untouched. *)
Theorem rejected_click_writes_buffer
    (ev : PointerEvent) (s : DimensionSystem) (a : Vector3) :
  startPoint s = Some a ->
  let snap := fst (getSnapPoint (snappingManager s) (ev_intersects ev)) in
  (state s = drawing -> mode s <> dim_leader ->
   forall sn, snap = Some sn ->
   Vec.distanceTo a (snap_point sn) < 1 / 1000 ->
   exists s',
     onClick ev s = Some s' /\ state s' = drawing /\
     endPoint s' = Some (snap_point sn) /\ startPoint s' = Some a /\
     angleP2 s' = angleP2 s /\ mode s' = mode s)
  /\
  (state s = drawing_angle_p2 ->
   let point := snapOrRay s snap (ev_ray ev) (Some a) in
   Vec.distanceTo a point < 1 / 1000 ->
   exists s',
     onClick ev s = Some s' /\ state s' = drawing_angle_p2 /\
     angleP2 s' = Some point /\ startPoint s' = Some a /\
     endPoint s' = endPoint s /\ mode s' = mode s).
Proof.
  intros Hstart snap. split.
  - intros Hst Hmode sn Hsnap Hnear.
    unfold onClick. rewrite getSnapPoint_pair. fold snap. rewrite Hsnap.
    cbn [withSnapping state mode startPoint withEndPoint].
    rewrite Hst, Hstart.
    destruct (Rlt_dec (Vec.distanceTo a (snap_point sn)) (1 / 1000));
      [| contradiction].
    destruct (mode s) eqn:Hm; try contradiction;
      (eexists; split; [reflexivity|]; cbn; rewrite ?Hst, ?Hstart, ?Hm;
       repeat split; reflexivity).
  - intros Hst point Hnear.
    unfold onClick. rewrite getSnapPoint_pair. fold snap.
    cbn [withSnapping state mode startPoint withAngleP2].
    rewrite Hst, Hstart.
    change (snapOrRay _ snap (ev_ray ev) (Some a)) with point.
    destruct (Rlt_dec (Vec.distanceTo a point) (1 / 1000)); [| contradiction].
    eexists; split; [reflexivity|]. cbn. rewrite ?Hst, ?Hstart.
    repeat split; reflexivity.
Qed.

Lemma rejected_click_writes_buffer_witness :
  exists s',
    onClick
      (mkEvent (mkRay (V3 0 0 5) (V3 0 0 (-1)))
               [triangleHit (V3 0 0 0) (V3 1 0 0) (V3 0 1 0) (V3 0 0 0)] [] None)
      (withState drawing (withStartPoint (Some (V3 0 0 0)) newDimensionSystem))
    = Some s' /\
    state s' = drawing /\ endPoint s' = Some (V3 0 0 0).
Proof.
  destruct (rejected_click_writes_buffer
              (mkEvent (mkRay (V3 0 0 5) (V3 0 0 (-1)))
                 [triangleHit (V3 0 0 0) (V3 1 0 0) (V3 0 1 0) (V3 0 0 0)]
                 [] None)
              (withState drawing
                 (withStartPoint (Some (V3 0 0 0)) newDimensionSystem))
              (V3 0 0 0) eq_refl) as [Hdrawing _].
  destruct (Hdrawing eq_refl ltac:(discriminate) _
              (getSnapPoint_on_vertex newSnappingManager
                 (V3 0 0 0) (V3 1 0 0) (V3 0 1 0) [] eq_refl eq_refl))
    as (s' & Hclick & Hstate & Hend & _).
  - cbn [snap_point]. rewrite distanceTo_self. lra.
  - exists s'. repeat split; assumption.
Defined.

(** ** The three-point plane definition *)

Lemma normalize_known (a : Vector3) (l : R) :
  0 < l -> l * l = Vec.lengthSq a ->
  Vec.normalize a = Vec.multiplyScalar a (1 / l).
Proof.
  intros Hl Hsq. unfold Vec.normalize, Vec.divideScalar.
  replace (Vec.length a) with l
    by (symmetry; apply sqrt_is; [lra | exact Hsq]).
  rewrite orElse_nonzero by lra. reflexivity.
Qed.

Lemma normalize_unit (a : Vector3) : Vec.lengthSq a = 1 -> Vec.normalize a = a.
Proof.
  intros H. rewrite (normalize_known a 1) by lra.
  destruct a; unfold Vec.multiplyScalar; simpl. apply V3_eq; field.
Qed.

Lemma normalize_normalize (a : Vector3) :
  Vec.normalize (Vec.normalize a) = Vec.normalize a.
Proof.
  destruct (length_zero_iff a) as [_ Hz].
  destruct (Req_dec_T (Vec.length a) 0) as [E | E].
  - apply length_zero_iff in E. subst a. rewrite !normalize_zero. reflexivity.
  - apply normalize_unit, lengthSq_normalize.
    intros ->. apply E, Hz. reflexivity.
Qed.

Lemma lengthSq_zero : Vec.lengthSq Vec.zero = 0.
Proof. unfold Vec.lengthSq, Vec.dot, Vec.zero; simpl; ring. Qed.

(** The collinearity test of [defining_cplane_p3] looks at the length of a
    vector that has already been normalized: it fires when the cross product
    is exactly zero ... *)
Lemma defineCPlaneP3_collinear (p1 p2 p3 : Vector3) (s : DimensionSystem) :
  Vec.cross (Vec.normalize (Vec.sub p2 p1)) (Vec.normalize (Vec.sub p3 p1))
  = Vec.zero ->
  defineCPlaneP3 p1 p2 p3 s = reset s.
Proof.
  intros H. unfold defineCPlaneP3. rewrite H, normalize_zero, lengthSq_zero.
  destruct (Rlt_dec 0 (1 / 1000)) as [_ | Hn]; [reflexivity | lra].
Qed.

(** ... and never otherwise, however short the cross product is. *)
Lemma defineCPlaneP3_redefines (p1 p2 p3 : Vector3) (s : DimensionSystem) :
  let c := Vec.cross (Vec.normalize (Vec.sub p2 p1))
                     (Vec.normalize (Vec.sub p3 p1)) in
  c <> Vec.zero ->
  defineCPlaneP3 p1 p2 p3 s = reset (setCPlane p1 (Vec.normalize c) s) /\
  cplane (defineCPlaneP3 p1 p2 p3 s) = mkCPlane p1 (Vec.normalize c) /\
  Vec.lengthSq (cp_normal (cplane (defineCPlaneP3 p1 p2 p3 s))) = 1.
Proof.
  intros c Hc.
  assert (E : defineCPlaneP3 p1 p2 p3 s
              = reset (setCPlane p1 (Vec.normalize c) s)).
  { unfold defineCPlaneP3. fold c. rewrite lengthSq_normalize by exact Hc.
    destruct (Rlt_dec 1 (1 / 1000)) as [Hn | _]; [lra | reflexivity]. }
  rewrite E. split; [reflexivity|].
  unfold reset, setCPlane; cbn [cplane cp_normal].
  rewrite normalize_normalize. split; [reflexivity|].
  apply lengthSq_normalize, Hc.
Qed.

Lemma onClick_defining_cplane_p3 (ev : PointerEvent) (s : DimensionSystem)
    (p1 p2 : Vector3) (sn : SnapResult) :
  state s = defining_cplane_p3 ->
  startPoint s = Some p1 -> endPoint s = Some p2 ->
  fst (getSnapPoint (snappingManager s) (ev_intersects ev)) = Some sn ->
  onClick ev s
  = Some (defineCPlaneP3 p1 p2 (snap_point sn)
            (withSnapping
               (snd (getSnapPoint (snappingManager s) (ev_intersects ev))) s)).
Proof.
  intros Hst Hp1 Hp2 Hsnap. unfold onClick.
  rewrite getSnapPoint_pair, Hsnap.
  cbn [withSnapping state startPoint endPoint]. rewrite Hst, Hp1, Hp2.
  reflexivity.
Qed.

(** The part of C5 that the code does deliver: three points whose normalized
    directions have an exactly vanishing cross product abort the definition;
    plane, origin and normal stay, and the next free point is resolved on the
    plane as it was. *)
Lemma onClick_collinear_keeps_plane (ev : PointerEvent) (s : DimensionSystem)
    (p1 p2 : Vector3) (sn : SnapResult) :
  state s = defining_cplane_p3 ->
  startPoint s = Some p1 -> endPoint s = Some p2 ->
  fst (getSnapPoint (snappingManager s) (ev_intersects ev)) = Some sn ->
  Vec.cross (Vec.normalize (Vec.sub p2 p1))
            (Vec.normalize (Vec.sub (snap_point sn) p1)) = Vec.zero ->
  exists s',
    onClick ev s = Some s' /\ cplane s' = cplane s /\ state s' = idle /\
    forall ray ref, getRayPoint s' ray ref = getRayPoint s ray ref.
Proof.
  intros Hst Hp1 Hp2 Hsnap Hcol.
  rewrite (onClick_defining_cplane_p3 ev s p1 p2 sn Hst Hp1 Hp2 Hsnap).
  rewrite defineCPlaneP3_collinear by exact Hcol.
  eexists; split; [reflexivity|]. repeat split; reflexivity.
Qed.

Lemma sub_origin (a : Vector3) : Vec.sub a (V3 0 0 0) = a.
Proof. destruct a; unfold Vec.sub; simpl. apply V3_eq; ring. Qed.

Lemma normalize_z_axis (z : R) : 0 < z -> Vec.normalize (V3 0 0 z) = V3 0 0 1.
Proof.
  intros Hz. rewrite (normalize_known (V3 0 0 z) z);
    [| exact Hz | unfold Vec.lengthSq, Vec.dot; simpl; ring].
  unfold Vec.multiplyScalar; simpl. apply V3_eq; field; lra.
Qed.

(** Three points of the plane z = 0, the third one [y > 0] off the line
    through the first two, define the plane z = 0, however small [y] is. *)
Lemma defineCPlaneP3_in_xy_plane (x y : R) (s : DimensionSystem) :
  0 < y ->
  let h := sqrt (x * x + y * y) in
  let c := Vec.cross (Vec.normalize (Vec.sub (V3 1 0 0) (V3 0 0 0)))
                     (Vec.normalize (Vec.sub (V3 x y 0) (V3 0 0 0))) in
  c = V3 0 0 (y / h) /\
  Vec.lengthSq c = y * y / (x * x + y * y) /\
  cplane (defineCPlaneP3 (V3 0 0 0) (V3 1 0 0) (V3 x y 0) s)
  = mkCPlane (V3 0 0 0) (V3 0 0 1) /\
  state (defineCPlaneP3 (V3 0 0 0) (V3 1 0 0) (V3 x y 0) s) = idle.
Proof.
  intros Hy h c.
  assert (Hpos2 : 0 < x * x + y * y) by nra.
  assert (Hh : 0 < h) by (apply sqrt_lt_R0, Hpos2).
  assert (Hsq : h * h = x * x + y * y) by (apply sqrt_sqrt; lra).
  assert (Hc : c = V3 0 0 (y / h)).
  { unfold c. rewrite !sub_origin.
    rewrite (normalize_unit (V3 1 0 0))
      by (unfold Vec.lengthSq, Vec.dot; simpl; ring).
    rewrite (normalize_known (V3 x y 0) h);
      [| exact Hh | unfold Vec.lengthSq, Vec.dot; simpl; lra].
    unfold Vec.cross, Vec.multiplyScalar; simpl. apply V3_eq; field; lra. }
  assert (Hpos : 0 < y / h) by (apply Rdiv_lt_0_compat; assumption).
  assert (Hne : c <> Vec.zero).
  { rewrite Hc. unfold Vec.zero. apply V3_neq_z. lra. }
  destruct (defineCPlaneP3_redefines (V3 0 0 0) (V3 1 0 0) (V3 x y 0) s Hne)
    as (E & Hplane & _).
  split; [exact Hc|]. split; [| split].
  - rewrite Hc. unfold Vec.lengthSq, Vec.dot; simpl. rewrite <- Hsq.
    field. lra.
  - rewrite Hplane. fold c. rewrite Hc, normalize_z_axis by exact Hpos.
    reflexivity.
  - rewrite E. reflexivity.
Qed.

(** C5 at a failing input.  P1 = (0,0,0), P2 = (1,0,0) and
    P3 = (2, 0.000002, 0) are collinear up to a millionth: the cross product
    of the two normalized directions has squared length below the 0.001 of
    the source's own test.  A click on P3 in state [defining_cplane_p3]
    nevertheless replaces the plane (normal (0,1,0)) by the plane with
    normal (0,0,1). *)
Theorem near_collinear_points_redefine_plane :
  let P1 := V3 0 0 0 in
  let P2 := V3 1 0 0 in
  let P3 := V3 2 (2 / 1000000) 0 in
  let s := mkSystem newSnappingManager newDimensionRenderer dim_linear
                    (mkCPlane (V3 0 0 0) (V3 0 1 0))
                    defining_cplane_p3 (Some P1) (Some P2) None in
  let ev := mkEvent (mkRay (V3 2 0 5) (V3 0 0 (-1)))
                    [triangleHit P3 (V3 2 1 0) (V3 2 0 1) P3] [] None in
  Vec.lengthSq (Vec.cross (Vec.normalize (Vec.sub P2 P1))
                          (Vec.normalize (Vec.sub P3 P1))) < 1 / 1000 /\
  exists s',
    onClick ev s = Some s' /\
    cplane s' = mkCPlane P1 (V3 0 0 1) /\
    cplane s' <> cplane s /\
    state s' = idle.
Proof.
  cbv zeta.
  set (y := 2 / 1000000).
  assert (Hy : 0 < y) by (unfold y; lra).
  split.
  - destruct (defineCPlaneP3_in_xy_plane 2 y newDimensionSystem Hy)
      as (_ & Hlen & _).
    cbv zeta in Hlen. rewrite Hlen.
    apply Rmult_lt_reg_r with (2 * 2 + y * y); [nra|].
    replace (y * y / (2 * 2 + y * y) * (2 * 2 + y * y)) with (y * y)
      by (field; nra).
    unfold y. lra.
  - rewrite (onClick_defining_cplane_p3
               (mkEvent (mkRay (V3 2 0 5) (V3 0 0 (-1)))
                        [triangleHit (V3 2 y 0) (V3 2 1 0) (V3 2 0 1) (V3 2 y 0)]
                        [] None)
               (mkSystem newSnappingManager newDimensionRenderer dim_linear
                         (mkCPlane (V3 0 0 0) (V3 0 1 0))
                         defining_cplane_p3 (Some (V3 0 0 0)) (Some (V3 1 0 0))
                         None)
               (V3 0 0 0) (V3 1 0 0)
               (mkSnap (V3 2 y 0) snap_vertex 0
                  (triangleMesh (V3 2 y 0) (V3 2 1 0) (V3 2 0 1)) None)
               eq_refl eq_refl eq_refl
               (getSnapPoint_on_vertex newSnappingManager
                  (V3 2 y 0) (V3 2 1 0) (V3 2 0 1) [] eq_refl eq_refl)).
    cbn [snap_point].
    eexists; split; [reflexivity|].
    match goal with
    | |- context [defineCPlaneP3 _ _ _ ?s0] =>
        destruct (defineCPlaneP3_in_xy_plane 2 y s0 Hy)
          as (_ & _ & Hplane & Hstate)
    end.
    rewrite Hplane. repeat split.
    + intros E. injection E. intros. lra.
    + exact Hstate.
Qed.

(** ** The non-null assertions of [onClick] *)

Lemma bufferReady_new : bufferReady newDimensionSystem.
Proof. exact I. Qed.

Lemma bufferReady_reset (s : DimensionSystem) : bufferReady (reset s).
Proof. exact I. Qed.

Lemma bufferReady_cancel (s : DimensionSystem) : bufferReady (cancel s).
Proof. exact I. Qed.

Lemma bufferReady_onModeChange (v : DimensionType) (s : DimensionSystem) :
  bufferReady (onModeChange v s).
Proof. exact I. Qed.

Lemma bufferReady_start (s : DimensionSystem) :
  bufferReady (startDefineCPlane s) /\
  bufferReady (startDefineCPlaneFromFace s) /\
  bufferReady (startTranslateCPlane s).
Proof. repeat split. Qed.

Ltac split_cases :=
  repeat match goal with
         | |- context [match ?x with _ => _ end] => destruct x eqn:?
         end.

(** From a state whose buffer is ready a click never raises, and it leaves
    the buffer ready: the system started by the constructor and driven by
    clicks, cancels and mode switches never meets a null point. *)
Lemma onClick_never_raises (ev : PointerEvent) (s : DimensionSystem) :
  bufferReady s -> exists s', onClick ev s = Some s' /\ bufferReady s'.
Proof.
  intros H. unfold onClick. rewrite getSnapPoint_pair.
  set (snap := fst (getSnapPoint (snappingManager s) (ev_intersects ev))).
  set (m := snd (getSnapPoint (snappingManager s) (ev_intersects ev))).
  clearbody snap m.
  destruct s as [sm dr md cp st sp ep a2].
  unfold bufferReady in H; cbn in H.
  cbn [withSnapping state mode startPoint endPoint angleP2 cplane
       snappingManager dimensionRenderer].
  destruct st; cbn in H;
    try match type of H with _ /\ _ => destruct H as [H H'] end;
    try (destruct sp as [sp |]; [| contradiction]);
    try (destruct ep as [ep |]; [| contradiction]).
  all: cbn [withEndPoint withAngleP2 withStartPoint withState state
            startPoint endPoint mode].
  all: split_cases.
  all: try discriminate.
  all: eexists; (split; [reflexivity|]).
  all: unfold bufferReady, defineCPlaneP3; cbn.
  all: try exact I.
  all: try (split; discriminate).
  all: try discriminate.
  all: try (destruct (Rlt_dec _ _); exact I).
Qed.

(** ** The edge candidate is the nearest point of the edge *)

Lemma clamp_cases (x : R) :
  (x <= 0 /\ Vec.clamp x 0 1 = 0) \/
  (0 <= x <= 1 /\ Vec.clamp x 0 1 = x) \/
  (1 <= x /\ Vec.clamp x 0 1 = 1).
Proof.
  unfold Vec.clamp, Rmax, Rmin.
  destruct (Rle_dec 1 x) as [H1 | H1]; destruct (Rle_dec 0 _) as [H0 | H0].
  - right; right; split; [exact H1 | reflexivity].
  - exfalso; lra.
  - right; left; split; [lra | reflexivity].
  - left; split; [lra | reflexivity].
Qed.

(** X1.  For a segment with distinct ends, [getClosestPointOnLineSegment]
    returns a point of the segment, and no point of the segment is closer to
    the given point. *)
Lemma getClosestPointOnLineSegment_nearest (p a b : Vector3) :
  Vec.sub b a <> Vec.zero ->
  let c := getClosestPointOnLineSegment p a b in
  onSegment a b c /\
  forall q, onSegment a b q -> Vec.distanceTo c p <= Vec.distanceTo q p.
Proof.
  intros Hne c.
  pose proof (length_pos _ Hne) as HL.
  pose proof (length_sqr (Vec.sub b a)) as Hsq. unfold Vec.lengthSq in Hsq.
  set (D := Vec.dot (Vec.sub b a) (Vec.sub b a)) in *.
  assert (HD : 0 < D) by (rewrite <- Hsq; apply Rmult_lt_0_compat; exact HL).
  set (K := Vec.dot (Vec.sub b a) (Vec.sub p a)).
  set (t0 := K / D).
  assert (Hc : c = Vec.add (Vec.multiplyScalar (Vec.sub b a) (Vec.clamp t0 0 1)) a)
    by reflexivity.
  assert (HK : K = t0 * D) by (unfold t0; field; lra).
  split.
  - exists (Vec.clamp t0 0 1). split; [| exact Hc].
    destruct (clamp_cases t0) as [[_ ->] | [[H ->] | [_ ->]]]; lra.
  - intros q (u & Hu & ->). unfold Vec.distanceTo. apply sqrt_le_1_alt.
    rewrite Hc, !distanceToSquared_on_line. fold D K.
    set (t := Vec.clamp t0 0 1).
    assert (Hprod : 0 <= (u - t) * (u + t - 2 * t0)).
    { unfold t.
      destruct (clamp_cases t0) as [[H ->] | [[H ->] | [H ->]]].
      - apply Rmult_le_pos; lra.
      - replace ((u - t0) * (u + t0 - 2 * t0)) with ((u - t0) * (u - t0))
          by ring.
        apply Rle_0_sqr.
      - replace ((u - 1) * (u + 1 - 2 * t0))
          with ((1 - u) * (2 * t0 - u - 1)) by ring.
        apply Rmult_le_pos; lra. }
    assert (Hdiff : (u * u * D - 2 * u * K) - (t * t * D - 2 * t * K)
                    = D * ((u - t) * (u + t - 2 * t0)))
      by (rewrite HK; ring).
    pose proof (Rmult_le_pos D _ (Rlt_le _ _ HD) Hprod). lra.
Qed.

(** ** The scenarios of the specification *)

(** Scenario 2: linear mode, A = (0,0,0), B = (2,0,0), offset O = (1,1,0):
    the dimension line spans (0,1,0)-(2,1,0) and the label is the distance 2
    with two decimals and the suffix "m". *)
Lemma scenario_linear :
  let data := mkData 0 dim_linear (V3 0 0 0) (V3 2 0 0) (V3 1 1 0) None None in
  exists mat rest,
    buildGeometry defaultStyle data false
    = Some (Line [V3 0 1 0; V3 2 1 0] mat :: rest) /\
    groupLabel (Line [V3 0 1 0; V3 2 1 0] mat :: rest)
    = Some (toFixed 2 2 "m").
Proof.
  cbv zeta. unfold buildGeometry, buildLinearGeometry.
  cbn [d_type d_start d_end d_offsetPoint].
  rewrite distance_2_0.
  destruct (Rlt_dec 2 (1 / 1000)) as [Hlt | _]; [lra|].
  assert (Hv : linearPerpVec (V3 0 0 0) (V3 2 0 0) (V3 1 1 0) = V3 0 1 0).
  { unfold linearPerpVec. rewrite !sub_origin.
    rewrite (normalize_known (V3 2 0 0) 2);
      [| lra | unfold Vec.lengthSq, Vec.dot; simpl; ring].
    unfold Vec.sub, Vec.multiplyScalar, Vec.dot; simpl. apply V3_eq; field. }
  rewrite Hv.
  replace (Vec.add (V3 0 0 0) (V3 0 1 0)) with (V3 0 1 0)
    by (unfold Vec.add; simpl; apply V3_eq; ring).
  replace (Vec.add (V3 2 0 0) (V3 0 1 0)) with (V3 2 1 0)
    by (unfold Vec.add; simpl; apply V3_eq; ring).
  eexists _, _. split; reflexivity.
Qed.

(** Scenario 3: angle mode, C = (0,0,0), P1 = (1,0,0), P2 = (0,1,0), radius
    point R = (0.5,0,0): the label shows 90 degrees with one decimal and the
    first arm ends on the arc of radius 0.5. *)
Lemma scenario_angle :
  let data := mkData 0 dim_angle (V3 0 0 0) (V3 1 0 0) (V3 (1 / 2) 0 0)
                     (Some (V3 0 1 0)) None in
  exists mat rest,
    buildGeometry defaultStyle data false
    = Some (Line [V3 0 0 0; V3 (1 / 2) 0 0] mat :: rest) /\
    groupLabel (Line [V3 0 0 0; V3 (1 / 2) 0 0] mat :: rest)
    = Some (toFixed 90 1 degreeSuffix).
Proof.
  cbv zeta. unfold buildGeometry, buildAngleGeometry.
  cbn [d_type d_start d_end d_offsetPoint d_angleP2].
  assert (Hr : Vec.distanceTo (V3 0 0 0) (V3 (1 / 2) 0 0) = 1 / 2).
  { unfold Vec.distanceTo, Vec.distanceToSquared; simpl. apply sqrt_is; lra. }
  rewrite Hr.
  destruct (Rlt_dec (1 / 2) (1 / 1000)) as [Hlt | _]; [lra|].
  rewrite angleOf_right.
  replace (radToDeg (PI / 2)) with 90
    by (unfold radToDeg; field; apply PI_neq0).
  rewrite !sub_origin.
  rewrite (normalize_unit (V3 1 0 0))
    by (unfold Vec.lengthSq, Vec.dot; simpl; ring).
  replace (Vec.add (V3 0 0 0) (Vec.multiplyScalar (V3 1 0 0) (1 / 2)))
    with (V3 (1 / 2) 0 0)
    by (unfold Vec.add, Vec.multiplyScalar; simpl; apply V3_eq; field).
  eexists _, _. split; reflexivity.
Qed.

(** Scenario 4: a leader whose elbow coincides with its origin points its
    arrow along the global up axis. *)
Lemma scenario_leader_degenerate (st : DimensionStyle) (a e : Vector3)
    (text : option string) (isPreview : bool) :
  let data := mkData 0 dim_leader a a e None text in
  exists l1 l2 lbl,
    buildGeometry st data isPreview
    = Some [ l1; l2;
             Cone (5 / 100 * scale st) (2 / 10 * scale st) 8
                  (builderColor st isPreview) (depthTest st)
                  (setFromUnitVectors up up)
                  (Vec.sub a (Vec.multiplyScalar up (2 / 10 * scale st / 2)));
             lbl ].
Proof.
  cbv zeta. unfold buildGeometry, buildLeaderGeometry.
  cbn [d_type d_start d_end d_offsetPoint d_text].
  replace (Vec.sub a a) with Vec.zero
    by (destruct a; unfold Vec.sub, Vec.zero; simpl; apply V3_eq; ring).
  rewrite normalize_zero, lengthSq_zero.
  destruct (Rlt_dec 0 (1 / 10000)) as [_ | Hn]; [| lra].
  eexists _, _, _. reflexivity.
Qed.

(** ** A preview and its cancellation *)

(** In state [drawing] of linear mode with start point (0,0,0), moving the
    pointer onto the vertex (2,0,0) shows a preview; cancelling discards it
    and empties the buffer. *)
Lemma preview_then_cancel :
  let s := withState drawing
             (withStartPoint (Some (V3 0 0 0)) newDimensionSystem) in
  let ev := mkEvent (mkRay (V3 2 0 5) (V3 0 0 (-1)))
                    [triangleHit (V3 2 0 0) (V3 2 1 0) (V3 2 0 1) (V3 2 0 0)]
                    [] None in
  let s1 := fst (onMouseMove ev s) in
  previewGroup (dimensionRenderer s1) <> [] /\
  state s1 = drawing /\
  previewGroup (dimensionRenderer (cancel s1)) = [] /\
  state (cancel s1) = idle /\ startPoint (cancel s1) = None /\
  startPoint s1 = Some (V3 0 0 0) /\ mode s1 = dim_linear.
Proof.
  cbv zeta. unfold onMouseMove. rewrite getSnapPoint_pair.
  unfold newDimensionSystem, withState, withStartPoint.
  cbn [ev_intersects snappingManager dimensionRenderer mode cplane state
       startPoint endPoint angleP2].
  rewrite getSnapPoint_on_vertex by reflexivity.
  unfold withSnapping, withRenderer, snapOrRay.
  cbn [snappingManager dimensionRenderer mode cplane state startPoint
       endPoint angleP2 snap_point fst].
  unfold cancel, reset, withRenderer, clearPreview, updatePreview,
    buildGeometry, buildLinearGeometry.
  cbn [d_type d_start d_end d_offsetPoint previewGroup dimensionRenderer
       state startPoint style newDimensionRenderer].
  rewrite distance_2_0.
  destruct (Rlt_dec 2 (1 / 1000)) as [Hlt | _]; [lra|].
  repeat split; try reflexivity. discriminate.
Qed.

(** ** Cancelling and switching the mode *)

(** C6, as stated, fails for the mode switch it cites, the assignment to the
    public field [mode]: in state [drawing] with a buffered start point and a
    preview on screen, assigning another mode changes the mode and nothing
    else.  The state stays [drawing], the start point stays in the buffer and
    the preview stays on screen. *)
Lemma mode_assignment_resets_nothing :
  let s := withState drawing
             (withStartPoint (Some (V3 0 0 0)) newDimensionSystem) in
  let ev := mkEvent (mkRay (V3 2 0 5) (V3 0 0 (-1)))
                    [triangleHit (V3 2 0 0) (V3 2 1 0) (V3 2 0 1) (V3 2 0 0)]
                    [] None in
  let s1 := fst (onMouseMove ev s) in
  let s2 := withMode dim_angle s1 in
  mode s1 = dim_linear /\ mode s2 = dim_angle /\
  state s2 = drawing /\ state s2 <> idle /\
  startPoint s2 = Some (V3 0 0 0) /\
  previewGroup (dimensionRenderer s2) <> [].
Proof.
  destruct preview_then_cancel as (Hp & Hs & _ & _ & _ & Hsp & Hm).
  cbv zeta in *. unfold withMode.
  cbn [mode state startPoint dimensionRenderer].
  split; [exact Hm|]. split; [reflexivity|].
  split; [exact Hs|]. split; [rewrite Hs; discriminate|].
  split; [exact Hsp | exact Hp].
Qed.

(** C6, amended.  In every interaction state, idle or not, an explicit
    cancel (the Escape key, the cancel action) empties the scratch buffer
    (start point, end point, second angle arm), puts the state machine in
    [idle] and empties the preview group, and touches neither the persisted
    dimensions nor the construction plane nor the mode.  The mode selector of
    the demo assigns the mode and then calls cancel, so it does the same and
    installs the new mode.  The assignment to the public field [mode] by
    itself installs the new mode and changes nothing else: state, buffer and
    preview stay as they were. *)
Theorem cancel_resets_mode_assignment_does_not
    (s : DimensionSystem) (v : DimensionType) :
  let cleared := fun s' : DimensionSystem =>
    state s' = idle /\ startPoint s' = None /\ endPoint s' = None /\
    angleP2 s' = None /\ previewGroup (dimensionRenderer s') = [] /\
    dimensionsGroup (dimensionRenderer s') = dimensionsGroup (dimensionRenderer s) /\
    dimensionData (dimensionRenderer s') = dimensionData (dimensionRenderer s) /\
    cplane s' = cplane s in
  (cleared (cancel s) /\ cleared (onEscape s) /\ mode (cancel s) = mode s) /\
  (cleared (onModeChange v s) /\ mode (onModeChange v s) = v) /\
  (mode (withMode v s) = v /\ state (withMode v s) = state s /\
   startPoint (withMode v s) = startPoint s /\
   endPoint (withMode v s) = endPoint s /\
   angleP2 (withMode v s) = angleP2 s /\
   dimensionRenderer (withMode v s) = dimensionRenderer s /\
   cplane (withMode v s) = cplane s /\
   snappingManager (withMode v s) = snappingManager s).
Proof.
  cbv zeta. repeat split; reflexivity.
Qed.

(* ===================================================================== *)
(** * Further properties of the code                                      *)
(* ===================================================================== *)

(** ** Snap results and the visual helpers *)

Lemma findBestSnap_In (m : SnappingManager) (hit : Intersection) (r : SnapResult) :
  findBestSnap m hit = Some r -> In r (snapCandidates m hit).
Proof.
  intros H. rewrite findBestSnap_scan in H.
  pose proof (scanInv_scan snapThreshold (snapCandidates m hit) []
                (snapThreshold, None) (scanInv_start snapThreshold)) as Hinv.
  cbn [app] in Hinv. unfold scanInv in Hinv. rewrite H in Hinv.
  destruct Hinv as (_ & _ & i & Hi & _). eapply nth_error_In; exact Hi.
Qed.

Lemma snapCandidates_mesh (m : SnappingManager) (hit : Intersection) (r : SnapResult) :
  In r (snapCandidates m hit) ->
  exists g mw f,
    hit_object hit = Mesh g mw /\ hit_face hit = Some f /\
    isBufferGeometry g = true /\ snap_object r = hit_object hit /\
    let '(v0, v1, v2) := worldVertices g mw f in
    snapShape m v0 v1 v2 (hit_point hit) r.
Proof.
  unfold snapCandidates.
  destruct (hit_object hit) as [g mw | mw] eqn:Ho; [| intros []].
  destruct (hit_face hit) as [f |] eqn:Hf; [| intros []].
  destruct (isBufferGeometry g) eqn:Hb; [| intros []].
  intros Hin. exists g, mw, f.
  split; [reflexivity|]. split; [reflexivity|]. split; [exact Hb|].
  destruct (worldVertices g mw f) as [[v0 v1] v2].
  repeat (apply in_app_or in Hin as [Hin | Hin]).
  - destruct (snapVertices m) eqn:Hv; [| destruct Hin].
    unfold vertexCandidates in Hin. cbn [map] in Hin.
    destruct Hin as [<- | [<- | [<- | []]]];
      (split; [reflexivity|]); unfold snapShape; cbn;
      (split; [exact Hv|]); (split; [| reflexivity]); auto.
  - destruct (snapMidpoints m) eqn:Hv; [| destruct Hin].
    unfold midpointCandidates, triangleEdges in Hin. cbn [map] in Hin.
    destruct Hin as [<- | [<- | [<- | []]]];
      (split; [reflexivity|]); unfold snapShape; cbn [snap_type];
      (split; [exact Hv|]); eexists; (split; [| split; reflexivity]);
      unfold triangleEdges; cbn; auto.
  - destruct (snapCentroids m) eqn:Hv; [| destruct Hin].
    unfold centroidCandidates in Hin.
    destruct Hin as [<- | []].
    split; [reflexivity|]. unfold snapShape; cbn.
    split; [exact Hv|]. split; reflexivity.
  - destruct (snapEdges m) eqn:Hv; [| destruct Hin].
    unfold edgeCandidates, triangleEdges in Hin. cbn [map] in Hin.
    destruct Hin as [<- | [<- | [<- | []]]];
      (split; [reflexivity|]); unfold snapShape; cbn [snap_type];
      (split; [exact Hv|]); eexists; (split; [| split; reflexivity]);
      unfold triangleEdges; cbn; auto.
Qed.

Lemma getSnapPoint_Some (m : SnappingManager) (xs : list Intersection)
    (r : SnapResult) :
  fst (getSnapPoint m xs) = Some r ->
  enabled m = true /\
  exists hit rest, xs = hit :: rest /\ findBestSnap m hit = Some r /\
                   snd (getSnapPoint m xs) = showSnap m r.
Proof.
  unfold getSnapPoint. destruct (enabled m); cbn [negb]; [| discriminate].
  destruct xs as [| hit rest]; [discriminate|].
  destruct (findBestSnap m hit) as [b |] eqn:Hb; [| discriminate].
  cbn [fst snd]. intros [= ->]. split; [reflexivity|].
  exists hit, rest. repeat split. exact Hb.
Qed.

(** X2.  A snap result always comes from a mesh hit with a face while
    snapping is enabled, and it is of one of the four feature kinds, never
    [face] or [none].  Its kind tells what it is: a [vertex] result is a
    corner of the hit triangle, a [midpoint] result the midpoint of one of
    its edges, a [centroid] result its centroid, an [edge] result the closest
    point of one edge to the raw hit point; midpoint and edge results carry
    their edge, the others carry none; and a result of a kind is only ever
    returned while that kind's toggle is on. *)
Theorem getSnapPoint_result_kind
    (m : SnappingManager) (xs : list Intersection) (r : SnapResult) :
  fst (getSnapPoint m xs) = Some r ->
  enabled m = true /\
  exists hit rest g mw f,
    xs = hit :: rest /\
    hit_object hit = Mesh g mw /\ hit_face hit = Some f /\
    isBufferGeometry g = true /\ snap_object r = hit_object hit /\
    let '(v0, v1, v2) := worldVertices g mw f in
    snapShape m v0 v1 v2 (hit_point hit) r.
Proof.
  intros H. destruct (getSnapPoint_Some m xs r H)
    as (He & hit & rest & -> & Hb & _).
  split; [exact He|].
  destruct (snapCandidates_mesh m hit r (findBestSnap_In m hit r Hb))
    as (g & mw & f & Ho & Hf & Hbg & Hobj & Hshape).
  exists hit, rest, g, mw, f. repeat split; assumption.
Qed.

Lemma getSnapPoint_result_kind_witness :
  snapShape newSnappingManager (V3 0 0 0) (V3 1 0 0) (V3 0 1 0) (V3 0 0 0)
            (mkSnap (V3 0 0 0) snap_vertex 0
                    (triangleMesh (V3 0 0 0) (V3 1 0 0) (V3 0 1 0)) None).
Proof.
  destruct (getSnapPoint_result_kind newSnappingManager
              [triangleHit (V3 0 0 0) (V3 1 0 0) (V3 0 1 0) (V3 0 0 0)] _
              (getSnapPoint_on_vertex newSnappingManager
                 (V3 0 0 0) (V3 1 0 0) (V3 0 1 0) [] eq_refl eq_refl))
    as (_ & hit & rest & g & mw & f & Hxs & Ho & Hf & _ & _ & Hshape).
  injection Hxs as <- <-.
  unfold triangleHit in Ho, Hf; cbn [hit_object hit_face] in Ho, Hf.
  unfold triangleMesh in Ho. injection Ho as <- <-. injection Hf as <-.
  rewrite worldVertices_triangle in Hshape. exact Hshape.
Defined.

(** X3.  [getSnapPoint] never touches the enabled flag or the four toggles.
    Afterwards the snap marker is visible exactly when a result was returned,
    and then it sits on the returned point; the edge highlighter is visible
    exactly when the result is an [edge] or a [midpoint], and then it spans
    the two ends of that edge; when nothing is returned both helpers are
    hidden and keep their old placement. *)
Theorem getSnapPoint_helpers (m : SnappingManager) (xs : list Intersection) :
  let res := fst (getSnapPoint m xs) in
  let m' := snd (getSnapPoint m xs) in
  (enabled m' = enabled m /\ snapVertices m' = snapVertices m /\
   snapEdges m' = snapEdges m /\ snapMidpoints m' = snapMidpoints m /\
   snapCentroids m' = snapCentroids m) /\
  (marker_visible m' = true <-> res <> None) /\
  (forall r, res = Some r ->
     marker_position m' = snap_point r /\
     (highlighter_visible m' = true
      <-> snap_type r = snap_edge \/ snap_type r = snap_midpoint) /\
     (highlighter_visible m' = true ->
      snap_edgeVertices r = Some (highlighter_positions m'))) /\
  (res = None ->
     highlighter_visible m' = false /\
     marker_position m' = marker_position m /\
     highlighter_positions m' = highlighter_positions m).
Proof.
  cbv zeta.
  destruct (fst (getSnapPoint m xs)) as [r |] eqn:Hres.
  - destruct (getSnapPoint_Some m xs r Hres)
      as (He & hit & rest & Hxs & Hb & Hm').
    rewrite Hm'.
    destruct (snapCandidates_mesh m hit r (findBestSnap_In m hit r Hb))
      as (g & mw & f & _ & _ & _ & _ & Hshape).
    destruct (worldVertices g mw f) as [[v0 v1] v2].
    unfold snapShape in Hshape.
    split; [repeat split|]. split; [split; [discriminate | reflexivity]|].
    split; [| discriminate].
    intros r' [= <-]. split; [reflexivity|].
    unfold showSnap; cbn [highlighter_visible highlighter_positions].
    destruct (snap_type r) eqn:Ht.
    + destruct Hshape as (_ & _ & ->).
      split; [split; [discriminate | intros [H | H]; discriminate]
             | discriminate].
    + destruct Hshape as (_ & e & _ & _ & ->).
      split; [split; [auto | reflexivity] | reflexivity].
    + destruct Hshape as (_ & e & _ & _ & ->).
      split; [split; [auto | reflexivity] | reflexivity].
    + destruct Hshape as (_ & _ & ->).
      split; [split; [discriminate | intros [H | H]; discriminate]
             | discriminate].
    + destruct Hshape.
    + destruct Hshape.
  - assert (Hm' : snd (getSnapPoint m xs) = hideHelpers m).
    { unfold getSnapPoint. unfold getSnapPoint in Hres.
      destruct (negb (enabled m)); [reflexivity|].
      destruct xs as [| hit rest]; [reflexivity|].
      destruct (findBestSnap m hit); [discriminate | reflexivity]. }
    rewrite Hm'.
    split; [repeat split|].
    split; [split; [discriminate | intros H; exfalso; apply H; reflexivity]|].
    split; [discriminate|]. intros _. repeat split.
Qed.

(** ** What pointer events leave alone *)

Lemma sameToggles_getSnapPoint (m : SnappingManager) (xs : list Intersection) :
  sameToggles m (snd (getSnapPoint m xs)).
Proof.
  unfold getSnapPoint.
  destruct (negb (enabled m)); [repeat split|].
  destruct xs as [| hit rest]; [repeat split|].
  destruct (findBestSnap m hit); repeat split.
Qed.

Lemma findBestSnap_sameToggles (m1 m2 : SnappingManager) (hit : Intersection) :
  sameToggles m1 m2 -> findBestSnap m1 hit = findBestSnap m2 hit.
Proof.
  intros (_ & Hv & He & Hm & Hc). unfold findBestSnap.
  rewrite Hv, He, Hm, Hc. reflexivity.
Qed.

Lemma getSnapPoint_sameToggles (m1 m2 : SnappingManager) (xs : list Intersection) :
  sameToggles m1 m2 -> fst (getSnapPoint m1 xs) = fst (getSnapPoint m2 xs).
Proof.
  intros H. pose proof H as (He & _). unfold getSnapPoint. rewrite He.
  destruct (negb (enabled m2)); [reflexivity|].
  destruct xs as [| hit rest]; [reflexivity|].
  rewrite (findBestSnap_sameToggles m1 m2 hit H).
  destruct (findBestSnap m2 hit); reflexivity.
Qed.

Lemma onMouseMove_fields (ev : PointerEvent) (s : DimensionSystem) :
  let s' := fst (onMouseMove ev s) in
  let r := dimensionRenderer s in
  let r' := dimensionRenderer s' in
  state s' = state s /\ startPoint s' = startPoint s /\
  endPoint s' = endPoint s /\ angleP2 s' = angleP2 s /\
  mode s' = mode s /\ cplane s' = cplane s /\
  dimensionData r' = dimensionData r /\
  dimensionsGroup r' = dimensionsGroup r /\
  nextId r' = nextId r /\ style r' = style r /\
  sameToggles (snappingManager s) (snappingManager s') /\
  (previewGroup r' = previewGroup r \/ (List.length (previewGroup r') <= 1)%nat) /\
  (state s = translating_cplane <-> snd (onMouseMove ev s) <> None) /\
  (forall c, snd (onMouseMove ev s) = Some c ->
             cp_normal c = cp_normal (cplane s)).
Proof.
  cbv zeta. unfold onMouseMove. rewrite getSnapPoint_pair.
  pose proof (sameToggles_getSnapPoint (snappingManager s) (ev_intersects ev))
    as Htog.
  set (snap := fst (getSnapPoint (snappingManager s) (ev_intersects ev))) in *.
  set (m := snd (getSnapPoint (snappingManager s) (ev_intersects ev))) in *.
  clearbody snap m.
  destruct s as [sm dr md cp st sp ep a2].
  cbn [snappingManager] in Htog.
  cbn [withSnapping state mode startPoint endPoint angleP2 cplane
       snappingManager dimensionRenderer].
  assert (Hpre : forall g : option Group,
            (List.length (match g with Some x => [x] | None => [] end) <= 1)%nat)
    by (intros [g |]; simpl; lia).
  destruct st, md, sp as [sp |], ep as [ep |], a2 as [a2 |];
    cbn -[buildGeometry snapOrRay].
  all: repeat first [exact Htog | split].
  all: try reflexivity; try discriminate; try congruence.
  all: try (left; reflexivity); try (right; apply Hpre).
  all: try (intros H; exfalso; apply H; reflexivity).
  all: try (intros c [= <-]; reflexivity).
Qed.

(** X4.  Moving the pointer never advances the interaction: [onMouseMove]
    leaves the state, the three buffered points, the mode, the construction
    plane, the stored records, their groups, the id counter and the style as
    they were.  It only replaces the preview and moves the snap helpers; a
    plane is handed to the plane helper exactly in state
    [translating_cplane], and that plane has the current normal. *)
Theorem onMouseMove_frame (ev : PointerEvent) (s : DimensionSystem) :
  let s' := fst (onMouseMove ev s) in
  let r := dimensionRenderer s in
  let r' := dimensionRenderer s' in
  state s' = state s /\ startPoint s' = startPoint s /\
  endPoint s' = endPoint s /\ angleP2 s' = angleP2 s /\
  mode s' = mode s /\ cplane s' = cplane s /\
  dimensionData r' = dimensionData r /\
  dimensionsGroup r' = dimensionsGroup r /\
  nextId r' = nextId r /\ style r' = style r /\
  sameToggles (snappingManager s) (snappingManager s') /\
  (previewGroup r' = previewGroup r \/ (List.length (previewGroup r') <= 1)%nat) /\
  (state s = translating_cplane <-> snd (onMouseMove ev s) <> None) /\
  (forall c, snd (onMouseMove ev s) = Some c ->
             cp_normal c = cp_normal (cplane s)).
Proof. exact (onMouseMove_fields ev s). Qed.

(** X5.  In the states that insist on a snap (idle, the three point states
    of the plane definition, and [drawing] outside leader mode) a click under
    which nothing snapped is ignored: the system afterwards differs from the
    one before only in its snap helpers. *)
Theorem click_without_snap_is_ignored (ev : PointerEvent) (s : DimensionSystem) :
  requiresSnap s = true ->
  fst (getSnapPoint (snappingManager s) (ev_intersects ev)) = None ->
  onClick ev s
  = Some (withSnapping
            (snd (getSnapPoint (snappingManager s) (ev_intersects ev))) s).
Proof.
  intros Hreq Hsnap. unfold onClick. rewrite getSnapPoint_pair, Hsnap.
  unfold requiresSnap in Hreq.
  cbn [withSnapping state mode].
  destruct (state s); try discriminate; try reflexivity.
  destruct (mode s); try discriminate; reflexivity.
Qed.

Lemma click_without_snap_is_ignored_witness :
  onClick (mkEvent (mkRay (V3 0 0 5) (V3 0 0 (-1))) [] [] None)
          newDimensionSystem
  = Some (withSnapping
            (snd (getSnapPoint (snappingManager newDimensionSystem) []))
            newDimensionSystem).
Proof.
  apply (click_without_snap_is_ignored
           (mkEvent (mkRay (V3 0 0 5) (V3 0 0 (-1))) [] [] None)
           newDimensionSystem); reflexivity.
Defined.

Lemma onClick_fields (ev : PointerEvent) (s s' : DimensionSystem) :
  onClick ev s = Some s' ->
  mode s' = mode s /\
  style (dimensionRenderer s') = style (dimensionRenderer s) /\
  sameToggles (snappingManager s) (snappingManager s') /\
  (definingPlane (state s) = true -> dimensionRenderer s' = dimensionRenderer s) /\
  (definingPlane (state s) = false -> cplane s' = cplane s) /\
  (exists new,
     dimensionData (dimensionRenderer s')
     = dimensionData (dimensionRenderer s) ++ new /\
     (List.length new <= 1)%nat /\
     (new <> [] -> state s = offsetting)).
Proof.
  unfold onClick. rewrite getSnapPoint_pair.
  pose proof (sameToggles_getSnapPoint (snappingManager s) (ev_intersects ev))
    as Htog.
  set (snap := fst (getSnapPoint (snappingManager s) (ev_intersects ev))) in *.
  set (m := snd (getSnapPoint (snappingManager s) (ev_intersects ev))) in *.
  clearbody snap m.
  destruct s as [sm dr md cp st sp ep a2].
  cbn [snappingManager] in Htog.
  cbn [withSnapping state mode startPoint endPoint angleP2 cplane
       snappingManager dimensionRenderer].
  assert (Hkeep : exists new : list DimensionData,
            dimensionData dr = dimensionData dr ++ new /\
            (List.length new <= 1)%nat /\ (new <> [] -> st = offsetting)).
  { exists []. rewrite app_nil_r. repeat split; [simpl; lia | congruence]. }
  destruct st; cbn [definingPlane].
  all: split_cases.
  all: intros [= <-].
  all: unfold defineCPlaneP3;
    try match goal with
        | |- context [Rlt_dec ?a ?b] => destruct (Rlt_dec a b)
        end.
  all: cbn -[buildGeometry snapOrRay rebuildGroups].
  all: repeat first [exact Htog | exact Hkeep | split].
  all: try reflexivity; try discriminate.
  all: try (eexists [_]; rewrite ?app_nil_r;
            split; [reflexivity | split; [simpl; lia | reflexivity]]).
Qed.

(** X6.  What a click never does.  It never changes the mode or the style,
    and it keeps the toggles of the snapping manager.  A click of the
    plane-definition workflow leaves the renderer, records and preview
    included, untouched; a click of the dimension workflow leaves the
    construction plane untouched.  Stored records are never altered or
    removed: the record list afterwards is the old one, possibly followed by
    one new record, and a new record can only appear in state
    [offsetting]. *)
Theorem onClick_frame (ev : PointerEvent) (s s' : DimensionSystem) :
  onClick ev s = Some s' ->
  mode s' = mode s /\
  style (dimensionRenderer s') = style (dimensionRenderer s) /\
  sameToggles (snappingManager s) (snappingManager s') /\
  (definingPlane (state s) = true -> dimensionRenderer s' = dimensionRenderer s) /\
  (definingPlane (state s) = false -> cplane s' = cplane s) /\
  (exists new,
     dimensionData (dimensionRenderer s')
     = dimensionData (dimensionRenderer s) ++ new /\
     (List.length new <= 1)%nat /\
     (new <> [] -> state s = offsetting)).
Proof. exact (onClick_fields ev s s'). Qed.

Lemma onClick_frame_witness :
  mode (withSnapping (hideHelpers newSnappingManager) newDimensionSystem)
  = mode newDimensionSystem.
Proof.
  exact (proj1 (onClick_frame
                  (mkEvent (mkRay (V3 0 0 5) (V3 0 0 (-1))) [] [] None)
                  newDimensionSystem
                  (withSnapping (hideHelpers newSnappingManager)
                                newDimensionSystem)
                  eq_refl)).
Defined.

(** ** Whole interactions *)

Lemma onClick_idle (ev : PointerEvent) (s : DimensionSystem) (a : SnapResult) :
  state s = idle ->
  fst (getSnapPoint (snappingManager s) (ev_intersects ev)) = Some a ->
  onClick ev s
  = Some (mkSystem (snd (getSnapPoint (snappingManager s) (ev_intersects ev)))
                   (dimensionRenderer s) (mode s) (cplane s) drawing
                   (Some (snap_point a)) (endPoint s) (angleP2 s)).
Proof.
  destruct s as [sm dr md cp st sp ep a2]. cbn. intros -> Hsnap.
  unfold onClick. cbn [snappingManager].
  destruct (getSnapPoint sm (ev_intersects ev)) as [snap m].
  cbn in Hsnap. subst snap. reflexivity.
Qed.

Lemma onClick_drawing_snap (ev : PointerEvent) (s : DimensionSystem)
    (a : Vector3) (b : SnapResult) :
  state s = drawing -> mode s <> dim_leader -> startPoint s = Some a ->
  fst (getSnapPoint (snappingManager s) (ev_intersects ev)) = Some b ->
  1 / 1000 <= Vec.distanceTo a (snap_point b) ->
  onClick ev s
  = Some (mkSystem (snd (getSnapPoint (snappingManager s) (ev_intersects ev)))
                   (dimensionRenderer s) (mode s) (cplane s)
                   (match mode s with
                    | dim_angle => drawing_angle_p2
                    | _ => offsetting
                    end)
                   (Some a) (Some (snap_point b)) (angleP2 s)).
Proof.
  destruct s as [sm dr md cp st sp ep a2]. cbn.
  intros -> Hmode -> Hsnap Hfar.
  unfold onClick. cbn [snappingManager].
  destruct (getSnapPoint sm (ev_intersects ev)) as [snap m].
  cbn in Hsnap. subst snap.
  cbn [withSnapping state mode startPoint withEndPoint snd].
  destruct (Rlt_dec (Vec.distanceTo a (snap_point b)) (1 / 1000)); [lra|].
  destruct md; try contradiction; reflexivity.
Qed.

Lemma onClick_offsetting (ev : PointerEvent) (s : DimensionSystem)
    (a b : Vector3) :
  state s = offsetting -> mode s <> dim_leader ->
  startPoint s = Some a -> endPoint s = Some b ->
  let snap := fst (getSnapPoint (snappingManager s) (ev_intersects ev)) in
  let m := snd (getSnapPoint (snappingManager s) (ev_intersects ev)) in
  let point := snapOrRay s snap (ev_ray ev) (Some a) in
  onClick ev s
  = Some (mkSystem m
            (clearPreview
               (createDimension (mode s) a b point (angleP2 s) None
                                (dimensionRenderer s)))
            (mode s) (cplane s) idle None None None).
Proof.
  destruct s as [sm dr md cp st sp ep a2]. cbn.
  intros -> Hmode -> ->.
  unfold onClick. cbn [snappingManager].
  destruct (getSnapPoint sm (ev_intersects ev)) as [snap m].
  cbn [withSnapping state mode startPoint endPoint angleP2 dimensionRenderer
       fst snd].
  destruct md; try contradiction; reflexivity.
Qed.

Lemma snap_after (m : SnappingManager) (xs ys : list Intersection) :
  fst (getSnapPoint (snd (getSnapPoint m xs)) ys) = fst (getSnapPoint m ys).
Proof.
  symmetry. apply getSnapPoint_sameToggles, sameToggles_getSnapPoint.
Qed.

(** X7.  A linear (or aligned) dimension takes three clicks.  From [idle], a
    click snapped to [A], a click snapped to [B] at least 0.001 away from
    [A], and a third click anywhere bring the system back to [idle] with an
    empty buffer and no preview, the plane untouched, and exactly one new
    record at the end of the record list: it has the next free id, the
    current mode as type, the anchors [A] and [B], and as offset point the
    third click's snap point or, with no snap, its ray resolved on the plane
    through [A]. *)
Theorem linear_dimension_in_three_clicks
    (e1 e2 e3 : PointerEvent) (s : DimensionSystem) (a b : SnapResult) :
  state s = idle -> mode s = dim_linear \/ mode s = dim_aligned ->
  fst (getSnapPoint (snappingManager s) (ev_intersects e1)) = Some a ->
  fst (getSnapPoint (snappingManager s) (ev_intersects e2)) = Some b ->
  1 / 1000 <= Vec.distanceTo (snap_point a) (snap_point b) ->
  let o := snapOrRay s
             (fst (getSnapPoint (snappingManager s) (ev_intersects e3)))
             (ev_ray e3) (Some (snap_point a)) in
  exists s1 s2 s3,
    onClick e1 s = Some s1 /\ onClick e2 s1 = Some s2 /\
    onClick e3 s2 = Some s3 /\
    state s1 = drawing /\ state s2 = offsetting /\ state s3 = idle /\
    startPoint s3 = None /\ endPoint s3 = None /\ angleP2 s3 = None /\
    previewGroup (dimensionRenderer s3) = [] /\
    cplane s3 = cplane s /\
    dimensionData (dimensionRenderer s3)
    = dimensionData (dimensionRenderer s)
      ++ [mkData (nextId (dimensionRenderer s)) (mode s)
                 (snap_point a) (snap_point b) o (angleP2 s) None].
Proof.
  intros Hst Hmode Ha Hb Hfar o.
  assert (Hnl : mode s <> dim_leader) by (destruct Hmode as [-> | ->]; discriminate).
  eexists _, _, _.
  split; [apply (onClick_idle e1 s a Hst Ha)|].
  split.
  { rewrite (onClick_drawing_snap e2 _ (snap_point a) b); try reflexivity.
    - exact Hnl.
    - cbn [snappingManager]. rewrite snap_after. exact Hb.
    - exact Hfar. }
  cbn [mode snappingManager dimensionRenderer cplane angleP2].
  split.
  { rewrite (onClick_offsetting e3 _ (snap_point a) (snap_point b));
      try reflexivity.
    - cbn [state mode]. destruct Hmode as [-> | ->]; reflexivity.
    - exact Hnl. }
  cbn [state startPoint endPoint angleP2 dimensionRenderer cplane mode
       snappingManager].
  repeat split.
  - destruct Hmode as [-> | ->]; reflexivity.
  - unfold clearPreview, createDimension, rebuildAll.
    cbn [dimensionData]. unfold o, snapOrRay. rewrite !snap_after.
    reflexivity.
Qed.

Lemma linear_dimension_in_three_clicks_witness :
  exists s3,
    state s3 = idle /\
    dimensionData (dimensionRenderer s3)
    = [mkData 0 dim_linear (V3 0 0 0) (V3 2 0 0)
              (snapOrRay newDimensionSystem None
                         (mkRay (V3 1 1 5) (V3 0 0 (-1))) (Some (V3 0 0 0)))
              None None].
Proof.
  destruct (linear_dimension_in_three_clicks
              (mkEvent (mkRay (V3 0 0 5) (V3 0 0 (-1)))
                 [triangleHit (V3 0 0 0) (V3 2 0 0) (V3 0 1 0) (V3 0 0 0)]
                 [] None)
              (mkEvent (mkRay (V3 2 0 5) (V3 0 0 (-1)))
                 [triangleHit (V3 2 0 0) (V3 0 1 0) (V3 0 0 0) (V3 2 0 0)]
                 [] None)
              (mkEvent (mkRay (V3 1 1 5) (V3 0 0 (-1))) [] [] None)
              newDimensionSystem
              (mkSnap (V3 0 0 0) snap_vertex 0
                 (triangleMesh (V3 0 0 0) (V3 2 0 0) (V3 0 1 0)) None)
              (mkSnap (V3 2 0 0) snap_vertex 0
                 (triangleMesh (V3 2 0 0) (V3 0 1 0) (V3 0 0 0)) None)
              eq_refl (or_introl eq_refl)
              (getSnapPoint_on_vertex newSnappingManager
                 (V3 0 0 0) (V3 2 0 0) (V3 0 1 0) [] eq_refl eq_refl)
              (getSnapPoint_on_vertex newSnappingManager
                 (V3 2 0 0) (V3 0 1 0) (V3 0 0 0) [] eq_refl eq_refl))
    as (s1 & s2 & s3 & _ & _ & _ & _ & _ & Hst & _ & _ & _ & _ & _ & Hdata).
  - cbn [snap_point]. rewrite distance_2_0. lra.
  - exists s3. split; [exact Hst | exact Hdata].
Defined.

Lemma snapOrRay_withSnapping (m : SnappingManager) (s : DimensionSystem)
    (snap : option SnapResult) (ray : Ray) (ref : option Vector3) :
  snapOrRay (withSnapping m s) snap ray ref = snapOrRay s snap ray ref.
Proof. destruct snap; reflexivity. Qed.

Lemma onClick_drawing_angle_p2 (ev : PointerEvent) (s : DimensionSystem)
    (a : Vector3) :
  state s = drawing_angle_p2 -> startPoint s = Some a ->
  let snap := fst (getSnapPoint (snappingManager s) (ev_intersects ev)) in
  let m := snd (getSnapPoint (snappingManager s) (ev_intersects ev)) in
  let point := snapOrRay s snap (ev_ray ev) (Some a) in
  1 / 1000 <= Vec.distanceTo a point ->
  onClick ev s
  = Some (mkSystem m (dimensionRenderer s) (mode s) (cplane s) offsetting
                   (Some a) (endPoint s) (Some point)).
Proof.
  destruct s as [sm dr md cp st sp ep a2]. cbn.
  intros -> -> Hfar.
  unfold onClick. cbn [snappingManager].
  destruct (getSnapPoint sm (ev_intersects ev)) as [snap m].
  rewrite snapOrRay_withSnapping.
  cbn [withSnapping state mode startPoint withAngleP2 fst snd] in *.
  match goal with
  | |- context [Rlt_dec ?x ?y] => destruct (Rlt_dec x y) as [Hlt | _]
  end; [lra | reflexivity].
Qed.

(** X8.  An angle dimension takes four clicks.  From [idle] in angle mode: a
    click snapped to the center [C], a click snapped to the first arm [P1]
    at least 0.001 from [C], a click giving the second arm [P2] (its snap
    point or, with no snap, its ray resolved on the plane through [C]) at
    least 0.001 from [C], and a last click anywhere.  The system is back in
    [idle] with an empty buffer and no preview, and the record list has
    gained exactly one record of type [angle] with anchors [C], [P1], the
    last click's point as radius point and [P2] as second arm. *)
Theorem angle_dimension_in_four_clicks
    (e1 e2 e3 e4 : PointerEvent) (s : DimensionSystem) (c p1 : SnapResult) :
  state s = idle -> mode s = dim_angle ->
  fst (getSnapPoint (snappingManager s) (ev_intersects e1)) = Some c ->
  fst (getSnapPoint (snappingManager s) (ev_intersects e2)) = Some p1 ->
  1 / 1000 <= Vec.distanceTo (snap_point c) (snap_point p1) ->
  let p2 := snapOrRay s
              (fst (getSnapPoint (snappingManager s) (ev_intersects e3)))
              (ev_ray e3) (Some (snap_point c)) in
  1 / 1000 <= Vec.distanceTo (snap_point c) p2 ->
  let r := snapOrRay s
             (fst (getSnapPoint (snappingManager s) (ev_intersects e4)))
             (ev_ray e4) (Some (snap_point c)) in
  exists s1 s2 s3 s4,
    onClick e1 s = Some s1 /\ onClick e2 s1 = Some s2 /\
    onClick e3 s2 = Some s3 /\ onClick e4 s3 = Some s4 /\
    state s1 = drawing /\ state s2 = drawing_angle_p2 /\
    state s3 = offsetting /\ state s4 = idle /\
    startPoint s4 = None /\ endPoint s4 = None /\ angleP2 s4 = None /\
    previewGroup (dimensionRenderer s4) = [] /\
    dimensionData (dimensionRenderer s4)
    = dimensionData (dimensionRenderer s)
      ++ [mkData (nextId (dimensionRenderer s)) dim_angle
                 (snap_point c) (snap_point p1) r (Some p2) None].
Proof.
  intros Hst Hmode Hc Hp1 Hfar1 p2 Hfar2 r.
  eexists _, _, _, _.
  split; [apply (onClick_idle e1 s c Hst Hc)|].
  split.
  { rewrite (onClick_drawing_snap e2 _ (snap_point c) p1); try reflexivity.
    - cbn [mode]. rewrite Hmode. discriminate.
    - cbn [snappingManager]. rewrite snap_after. exact Hp1.
    - exact Hfar1. }
  cbn [mode snappingManager dimensionRenderer cplane angleP2]. rewrite Hmode.
  split.
  { rewrite (onClick_drawing_angle_p2 e3 _ (snap_point c)); try reflexivity.
    cbn [snappingManager]. rewrite !snap_after. exact Hfar2. }
  cbn [mode snappingManager dimensionRenderer cplane endPoint].
  split.
  { rewrite (onClick_offsetting e4 _ (snap_point c) (snap_point p1));
      try reflexivity.
    cbn [mode]. discriminate. }
  cbn [state startPoint endPoint angleP2 dimensionRenderer cplane mode
       snappingManager].
  repeat split.
  unfold clearPreview, createDimension, rebuildAll.
  cbn [dimensionData]. unfold r, p2, snapOrRay. rewrite !snap_after.
  reflexivity.
Qed.

Lemma distance_0_y : Vec.distanceTo (V3 0 0 0) (V3 0 2 0) = 2.
Proof.
  unfold Vec.distanceTo, Vec.distanceToSquared; simpl. apply sqrt_is; lra.
Qed.

Lemma angle_dimension_in_four_clicks_witness :
  exists s4 r,
    state s4 = idle /\
    dimensionData (dimensionRenderer s4)
    = [mkData 0 dim_angle (V3 0 0 0) (V3 2 0 0) r (Some (V3 0 2 0)) None].
Proof.
  destruct (angle_dimension_in_four_clicks
              (mkEvent (mkRay (V3 0 0 5) (V3 0 0 (-1)))
                 [triangleHit (V3 0 0 0) (V3 2 0 0) (V3 0 2 0) (V3 0 0 0)]
                 [] None)
              (mkEvent (mkRay (V3 2 0 5) (V3 0 0 (-1)))
                 [triangleHit (V3 2 0 0) (V3 0 2 0) (V3 0 0 0) (V3 2 0 0)]
                 [] None)
              (mkEvent (mkRay (V3 0 2 5) (V3 0 0 (-1)))
                 [triangleHit (V3 0 2 0) (V3 0 0 0) (V3 2 0 0) (V3 0 2 0)]
                 [] None)
              (mkEvent (mkRay (V3 1 1 5) (V3 0 0 (-1))) [] [] None)
              (withMode dim_angle newDimensionSystem)
              (mkSnap (V3 0 0 0) snap_vertex 0
                 (triangleMesh (V3 0 0 0) (V3 2 0 0) (V3 0 2 0)) None)
              (mkSnap (V3 2 0 0) snap_vertex 0
                 (triangleMesh (V3 2 0 0) (V3 0 2 0) (V3 0 0 0)) None)
              eq_refl eq_refl
              (getSnapPoint_on_vertex newSnappingManager
                 (V3 0 0 0) (V3 2 0 0) (V3 0 2 0) [] eq_refl eq_refl)
              (getSnapPoint_on_vertex newSnappingManager
                 (V3 2 0 0) (V3 0 2 0) (V3 0 0 0) [] eq_refl eq_refl))
    as (s1 & s2 & s3 & s4 & _ & _ & _ & _ & _ & _ & _ & Hst & _ & _ & _ & _
        & Hdata).
  - cbn [snap_point]. rewrite distance_2_0. lra.
  - cbn [withMode snappingManager newDimensionSystem ev_intersects snap_point].
    rewrite (getSnapPoint_on_vertex newSnappingManager
               (V3 0 2 0) (V3 0 0 0) (V3 2 0 0) [] eq_refl eq_refl).
    cbn [snapOrRay snap_point]. rewrite distance_0_y. lra.
  - cbn [withMode snappingManager newDimensionSystem ev_intersects snap_point]
      in Hdata.
    rewrite (getSnapPoint_on_vertex newSnappingManager
               (V3 0 2 0) (V3 0 0 0) (V3 2 0 0) [] eq_refl eq_refl) in Hdata.
    cbn [snapOrRay snap_point dimensionRenderer newDimensionRenderer
         dimensionData nextId app] in Hdata.
    eexists s4, _. split; [exact Hst | exact Hdata].
Defined.

Lemma onClick_drawing_leader (ev : PointerEvent) (s : DimensionSystem) :
  state s = drawing -> mode s = dim_leader ->
  let snap := fst (getSnapPoint (snappingManager s) (ev_intersects ev)) in
  let m := snd (getSnapPoint (snappingManager s) (ev_intersects ev)) in
  onClick ev s
  = Some (mkSystem m (dimensionRenderer s) dim_leader (cplane s) offsetting
                   (startPoint s)
                   (Some (snapOrRay s snap (ev_ray ev) (startPoint s)))
                   (angleP2 s)).
Proof.
  destruct s as [sm dr md cp st sp ep a2]. cbn.
  intros -> ->.
  unfold onClick. cbn [snappingManager].
  destruct (getSnapPoint sm (ev_intersects ev)) as [snap m].
  rewrite snapOrRay_withSnapping. reflexivity.
Qed.

Lemma onClick_offsetting_leader (ev : PointerEvent) (s : DimensionSystem)
    (a b : Vector3) :
  state s = offsetting -> mode s = dim_leader ->
  startPoint s = Some a -> endPoint s = Some b ->
  let snap := fst (getSnapPoint (snappingManager s) (ev_intersects ev)) in
  let m := snd (getSnapPoint (snappingManager s) (ev_intersects ev)) in
  let point := snapOrRay s snap (ev_ray ev) (Some a) in
  onClick ev s
  = Some (mkSystem m
            (clearPreview
               (match ev_prompt ev with
                | Some text =>
                    createDimension dim_leader a b point None (Some text)
                                    (dimensionRenderer s)
                | None => dimensionRenderer s
                end))
            dim_leader (cplane s) idle None None None).
Proof.
  destruct s as [sm dr md cp st sp ep a2]. cbn.
  intros -> -> -> ->.
  unfold onClick. cbn [snappingManager].
  destruct (getSnapPoint sm (ev_intersects ev)) as [snap m].
  rewrite snapOrRay_withSnapping.
  cbn [withSnapping state mode startPoint endPoint dimensionRenderer fst snd].
  destruct (ev_prompt ev); reflexivity.
Qed.

(** X9.  A leader takes three clicks and a text.  From [idle] in leader mode,
    after a click snapped to the origin [A], the second click always sets
    the elbow and the third always finishes, snapped or not: each of them
    takes the snap point or, with no snap, the ray resolved on the plane
    through [A].  If the prompt of the third click is answered, exactly one
    leader record with the origin, the elbow, the extension point and the
    answered text (even the empty one) is appended; if the prompt is
    dismissed, no record is added.  Either way the system is back in [idle]
    with an empty buffer and no preview. *)
Theorem leader_in_three_clicks
    (e1 e2 e3 : PointerEvent) (s : DimensionSystem) (a : SnapResult) :
  state s = idle -> mode s = dim_leader ->
  fst (getSnapPoint (snappingManager s) (ev_intersects e1)) = Some a ->
  let elbow := snapOrRay s
                 (fst (getSnapPoint (snappingManager s) (ev_intersects e2)))
                 (ev_ray e2) (Some (snap_point a)) in
  let ext := snapOrRay s
               (fst (getSnapPoint (snappingManager s) (ev_intersects e3)))
               (ev_ray e3) (Some (snap_point a)) in
  exists s1 s2 s3,
    onClick e1 s = Some s1 /\ onClick e2 s1 = Some s2 /\
    onClick e3 s2 = Some s3 /\
    state s1 = drawing /\ state s2 = offsetting /\ state s3 = idle /\
    startPoint s3 = None /\ endPoint s3 = None /\ angleP2 s3 = None /\
    previewGroup (dimensionRenderer s3) = [] /\
    dimensionData (dimensionRenderer s3)
    = dimensionData (dimensionRenderer s)
      ++ match ev_prompt e3 with
         | Some text =>
             [mkData (nextId (dimensionRenderer s)) dim_leader
                     (snap_point a) elbow ext None (Some text)]
         | None => []
         end.
Proof.
  intros Hst Hmode Ha elbow ext.
  eexists _, _, _.
  split; [apply (onClick_idle e1 s a Hst Ha)|].
  split.
  { rewrite (onClick_drawing_leader e2); try reflexivity.
    cbn [mode]. exact Hmode. }
  cbn [mode snappingManager dimensionRenderer cplane angleP2 startPoint].
  split.
  { erewrite (onClick_offsetting_leader e3) by reflexivity. reflexivity. }
  cbn [state startPoint endPoint angleP2 dimensionRenderer cplane mode
       snappingManager].
  repeat split.
  unfold elbow, ext, snapOrRay. rewrite !snap_after.
  destruct (ev_prompt e3) as [text |].
  - unfold clearPreview, createDimension, rebuildAll.
    cbn [dimensionData]. reflexivity.
  - cbn [clearPreview dimensionData]. rewrite app_nil_r. reflexivity.
Qed.

Lemma leader_in_three_clicks_witness :
  exists s3 elbow ext,
    state s3 = idle /\
    dimensionData (dimensionRenderer s3)
    = [mkData 0 dim_leader (V3 0 0 0) elbow ext None (Some "Steel"%string)].
Proof.
  destruct (leader_in_three_clicks
              (mkEvent (mkRay (V3 0 0 5) (V3 0 0 (-1)))
                 [triangleHit (V3 0 0 0) (V3 2 0 0) (V3 0 2 0) (V3 0 0 0)]
                 [] None)
              (mkEvent (mkRay (V3 1 1 5) (V3 0 0 (-1))) [] [] None)
              (mkEvent (mkRay (V3 2 1 5) (V3 0 0 (-1))) [] []
                       (Some "Steel"%string))
              (withMode dim_leader newDimensionSystem)
              (mkSnap (V3 0 0 0) snap_vertex 0
                 (triangleMesh (V3 0 0 0) (V3 2 0 0) (V3 0 2 0)) None)
              eq_refl eq_refl
              (getSnapPoint_on_vertex newSnappingManager
                 (V3 0 0 0) (V3 2 0 0) (V3 0 2 0) [] eq_refl eq_refl))
    as (s1 & s2 & s3 & _ & _ & _ & _ & _ & Hst & _ & _ & _ & _ & Hdata).
  eexists s3, _, _. split; [exact Hst | exact Hdata].
Defined.

Lemma getClosestPointOnLineSegment_nearest_witness :
  onSegment (V3 0 0 0) (V3 1 0 0)
            (getClosestPointOnLineSegment (V3 3 4 0) (V3 0 0 0) (V3 1 0 0)).
Proof.
  refine (proj1 (getClosestPointOnLineSegment_nearest
                   (V3 3 4 0) (V3 0 0 0) (V3 1 0 0) _)).
  unfold Vec.sub, Vec.zero; simpl. apply V3_neq_x. lra.
Defined.

(** ** The record list and its groups *)

Lemma rebuildGroups_app (st : DimensionStyle) (ds es : list DimensionData) :
  rebuildGroups st (ds ++ es) = rebuildGroups st ds ++ rebuildGroups st es.
Proof.
  induction ds as [| d ds IH]; [reflexivity|].
  cbn [app rebuildGroups]. destruct (buildGeometry st d false);
    rewrite IH; reflexivity.
Qed.

(** X10.  [createDimension] stores the record whatever its geometry: the
    record list grows by exactly one record, placed last, holding the given
    type, anchors, second arm and text under the current id counter, which
    then advances by one; style and preview are kept.  The displayed groups
    are those of the old records followed by the new record's group, or by
    nothing when its geometry is degenerate: such a record is stored but
    never drawn. *)
Theorem createDimension_appends
    (type : DimensionType) (a b o : Vector3) (a2 : option Vector3)
    (text : option string) (r : DimensionRenderer) :
  let data := mkData (nextId r) type a b o a2 text in
  let r' := createDimension type a b o a2 text r in
  dimensionData r' = dimensionData r ++ [data] /\
  nextId r' = (nextId r + 1)%Z /\
  style r' = style r /\ previewGroup r' = previewGroup r /\
  dimensionsGroup r'
  = rebuildGroups (style r) (dimensionData r)
    ++ match buildGeometry (style r) data false with
       | Some g => [g]
       | None => []
       end /\
  (List.length (rebuildGroups (style r) (dimensionData r))
   <= List.length (dimensionData r))%nat.
Proof.
  cbv zeta. unfold createDimension, rebuildAll.
  cbn [dimensionData nextId style previewGroup dimensionsGroup].
  repeat split.
  - rewrite rebuildGroups_app. cbn [rebuildGroups].
    destruct (buildGeometry _ _ false); reflexivity.
  - induction (dimensionData r) as [| d ds IH]; [simpl; lia|].
    cbn [rebuildGroups]. destruct (buildGeometry _ d false); simpl; lia.
Qed.

Lemma StronglySorted_snoc (l : list Z) (y : Z) :
  StronglySorted Z.lt l -> Forall (fun x => (x < y)%Z) l ->
  StronglySorted Z.lt (l ++ [y]).
Proof.
  induction l as [| x l IH]; intros Hs Hf.
  - repeat constructor.
  - apply StronglySorted_inv in Hs as [Hs Hx].
    apply Forall_cons_iff in Hf as [Hxy Hf].
    cbn [app]. constructor; [apply IH; assumption|].
    apply Forall_app. split; [exact Hx | repeat constructor; exact Hxy].
Qed.

Lemma rendererOk_new : rendererOk newDimensionRenderer.
Proof. split; [cbn; lia|]. repeat split; constructor. Qed.

Lemma rendererOk_createDimension
    (type : DimensionType) (a b o : Vector3) (a2 : option Vector3)
    (text : option string) (r : DimensionRenderer) :
  rendererOk r -> rendererOk (createDimension type a b o a2 text r).
Proof.
  intros (Hn & Hs & Hf & _). unfold rendererOk, createDimension, rebuildAll.
  cbn [dimensionData nextId style dimensionsGroup].
  split; [lia|]. split; [| split; [| reflexivity]].
  - rewrite map_app. cbn [map d_id]. apply StronglySorted_snoc; [exact Hs|].
    rewrite Forall_map. eapply Forall_impl; [| exact Hf].
    cbn. intros d Hd. lia.
  - apply Forall_app. split.
    + eapply Forall_impl; [| exact Hf]. cbn. intros d Hd. lia.
    + repeat constructor; cbn [d_id]; lia.
Qed.

Lemma rendererOk_setStyle (p : PartialStyle) (r : DimensionRenderer) :
  rendererOk r -> rendererOk (setStyle p r).
Proof.
  intros (Hn & Hs & Hf & _). unfold rendererOk. rewrite setStyle_fields.
  cbn [dimensionData nextId style dimensionsGroup]. repeat split; assumption.
Qed.

Lemma rendererOk_preview (r : DimensionRenderer) (pg : list Group) :
  rendererOk r ->
  rendererOk (mkRenderer (dimensionsGroup r) pg (dimensionData r) (nextId r)
                         (style r)).
Proof. intros H. exact H. Qed.

Lemma rendererOk_clear (r : DimensionRenderer) :
  rendererOk r -> rendererOk (clear r).
Proof.
  intros (Hn & _). unfold rendererOk, clear.
  cbn [dimensionData nextId style dimensionsGroup rebuildGroups map].
  repeat split; try constructor; assumption.
Qed.

Lemma StronglySorted_lt_NoDup (l : list Z) :
  StronglySorted Z.lt l -> NoDup l.
Proof.
  induction 1 as [| x l Hs IH Hx]; constructor; [| exact IH].
  intros Hin. rewrite Forall_forall in Hx. specialize (Hx x Hin). lia.
Qed.

(** X11.  The renderer keeps its books.  In a renderer produced by the
    constructor and the public operations, the ids of the stored records are
    pairwise distinct, increase along the list and lie below the id counter,
    and the displayed groups are exactly the rebuild of the stored records
    under the current style.  [createDimension], [setStyle], [updatePreview],
    [clearPreview] and [clear] all preserve this; [clear] empties the records
    without resetting the counter, so ids are never reused. *)
Theorem renderer_keeps_its_books (r : DimensionRenderer) :
  rendererOk r ->
  NoDup (map d_id (dimensionData r)) /\
  (forall type a b o a2 text,
     rendererOk (createDimension type a b o a2 text r)) /\
  (forall p, rendererOk (setStyle p r)) /\
  (forall type a b o a2 text,
     rendererOk (updatePreview type a b o a2 text r)) /\
  rendererOk (clearPreview r) /\
  rendererOk (clear r) /\
  nextId (clear r) = nextId r /\ dimensionData (clear r) = [] /\
  (forall type a b o a2 text d,
     In d (dimensionData r) ->
     d_id d <> nextId r /\
     (d_id d < d_id (mkData (nextId r) type a b o a2 text))%Z).
Proof.
  intros H. pose proof H as (Hn & Hs & Hf & Hg).
  split; [apply StronglySorted_lt_NoDup, Hs|].
  split; [intros; apply rendererOk_createDimension, H|].
  split; [intros; apply rendererOk_setStyle, H|].
  split; [intros; apply (rendererOk_preview r _ H)|].
  split; [apply (rendererOk_preview r _ H)|].
  split; [apply rendererOk_clear, H|].
  split; [reflexivity|]. split; [reflexivity|].
  intros type a b o a2 text d Hin. rewrite Forall_forall in Hf.
  specialize (Hf d Hin). cbn [d_id]. lia.
Qed.

Lemma renderer_keeps_its_books_witness :
  rendererOk (createDimension dim_linear (V3 0 0 0) (V3 2 0 0) (V3 1 1 0)
                              None None newDimensionRenderer).
Proof.
  exact (proj1 (proj2 (renderer_keeps_its_books newDimensionRenderer
                         rendererOk_new))
               dim_linear (V3 0 0 0) (V3 2 0 0) (V3 1 1 0) None None).
Defined.

(** ** The system stays well formed *)

Lemma normalize_unitOrZero (v : Vector3) : unitOrZero (Vec.normalize v).
Proof.
  destruct (Req_dec_T (Vec.length v) 0) as [E | E].
  - right. apply length_zero_iff in E. subst v. apply normalize_zero.
  - left. apply lengthSq_normalize. intros ->. apply E.
    apply length_zero_iff. reflexivity.
Qed.

Lemma normalize_of_unitOrZero (v : Vector3) :
  unitOrZero v -> Vec.normalize v = v.
Proof.
  intros [H | ->]; [apply normalize_unit, H | apply normalize_zero].
Qed.

Lemma onClick_renderer_cases (ev : PointerEvent) (s s' : DimensionSystem) :
  onClick ev s = Some s' ->
  dimensionRenderer s' = dimensionRenderer s \/
  dimensionRenderer s' = clearPreview (dimensionRenderer s) \/
  exists type a b o a2 text,
    dimensionRenderer s'
    = clearPreview (createDimension type a b o a2 text (dimensionRenderer s)).
Proof.
  unfold onClick. rewrite getSnapPoint_pair.
  set (snap := fst (getSnapPoint (snappingManager s) (ev_intersects ev))).
  set (m := snd (getSnapPoint (snappingManager s) (ev_intersects ev))).
  clearbody snap m.
  destruct s as [sm dr md cp st sp ep a2].
  cbn [withSnapping state mode startPoint endPoint angleP2 cplane
       snappingManager dimensionRenderer].
  destruct st.
  all: split_cases.
  all: intros [= <-].
  all: unfold defineCPlaneP3;
    try match goal with
        | |- context [Rlt_dec ?a ?b] => destruct (Rlt_dec a b)
        end.
  all: cbn -[buildGeometry snapOrRay rebuildGroups createDimension clearPreview].
  all: try (left; reflexivity).
  all: try (right; left; reflexivity).
  all: right; right; eexists _, _, _, _, _, _; reflexivity.
Qed.

Lemma onClick_cplane_cases (ev : PointerEvent) (s s' : DimensionSystem) :
  onClick ev s = Some s' ->
  cplane s' = cplane s \/
  exists o n, cplane s' = mkCPlane o (Vec.normalize n).
Proof.
  unfold onClick. rewrite getSnapPoint_pair.
  set (snap := fst (getSnapPoint (snappingManager s) (ev_intersects ev))).
  set (m := snd (getSnapPoint (snappingManager s) (ev_intersects ev))).
  clearbody snap m.
  destruct s as [sm dr md cp st sp ep a2].
  cbn [withSnapping state mode startPoint endPoint angleP2 cplane
       snappingManager dimensionRenderer].
  destruct st.
  all: split_cases.
  all: intros [= <-].
  all: unfold defineCPlaneP3;
    try match goal with
        | |- context [Rlt_dec ?a ?b] => destruct (Rlt_dec a b)
        end.
  all: cbn -[buildGeometry snapOrRay rebuildGroups createDimension
             clearPreview Vec.normalize applyNormalMatrixOf].
  all: try (left; reflexivity).
  all: right; eexists _, _; reflexivity.
Qed.

(** X12.  The constructor's system is well formed, and every public operation
    keeps it so: clicks (which therefore never hit a null buffered point),
    pointer moves, cancel, the mode switch, the three plane-definition starts,
    [setCPlane], [setCPlaneToWorld], [setCPlaneToView], and restyling or
    clearing the renderer.  Well formed means: the buffer holds the points the
    state needs, the renderer keeps its books, and the plane normal has
    length 1 or is the zero vector. *)
Theorem wellFormed_preserved (s : DimensionSystem) :
  wellFormed newDimensionSystem /\
  (wellFormed s ->
   (forall ev, exists s', onClick ev s = Some s' /\ wellFormed s') /\
   (forall ev, wellFormed (fst (onMouseMove ev s))) /\
   wellFormed (cancel s) /\
   (forall v, wellFormed (onModeChange v s)) /\
   wellFormed (startDefineCPlane s) /\
   wellFormed (startDefineCPlaneFromFace s) /\
   wellFormed (startTranslateCPlane s) /\
   (forall o n, wellFormed (setCPlane o n s)) /\
   wellFormed (setCPlaneToWorld s) /\
   (forall cam, wellFormed (setCPlaneToView cam s)) /\
   (forall p, wellFormed (withRenderer (setStyle p (dimensionRenderer s)) s)) /\
   wellFormed (withRenderer (clear (dimensionRenderer s)) s)).
Proof.
  split.
  { split; [exact I|]. split; [exact rendererOk_new|].
    left. unfold newDimensionSystem; cbn.
    unfold Vec.lengthSq, Vec.dot; simpl; ring. }
  intros (Hb & Hr & Hn).
  split.
  { intros ev. destruct (onClick_never_raises ev s Hb) as (s' & Hs' & Hb').
    exists s'. split; [exact Hs'|]. split; [exact Hb'|]. split.
    - destruct (onClick_renderer_cases ev s s' Hs')
        as [-> | [-> | (t & a & b & o & a2 & txt & ->)]].
      + exact Hr.
      + exact (rendererOk_preview _ _ Hr).
      + exact (rendererOk_preview _ []
                 (rendererOk_createDimension t a b o a2 txt _ Hr)).
    - destruct (onClick_cplane_cases ev s s' Hs') as [-> | (o & n & ->)].
      + exact Hn.
      + apply normalize_unitOrZero. }
  split.
  { intros ev.
    pose proof (onMouseMove_fields ev s) as
      (Hst & Hsp & Hep & Ha2 & _ & Hcp & Hdd & Hdg & Hni & Hsty & _).
    cbv zeta in *. unfold wellFormed, bufferReady, rendererOk.
    rewrite Hst, Hsp, Hep, Hcp, Hdd, Hdg, Hni, Hsty.
    split; [exact Hb|]. split; [exact Hr | exact Hn]. }
  split; [split; [exact I | split; [exact (rendererOk_preview _ _ Hr) | exact Hn]]|].
  split; [intros v; split; [exact I | split; [exact (rendererOk_preview _ _ Hr) | exact Hn]]|].
  split; [split; [exact I | split; [exact Hr | exact Hn]]|].
  split; [split; [exact I | split; [exact Hr | exact Hn]]|].
  split; [split; [exact I | split; [exact Hr | exact Hn]]|].
  split; [intros o n; split; [exact Hb | split; [exact Hr | apply normalize_unitOrZero]]|].
  split; [split; [exact Hb | split; [exact Hr | apply normalize_unitOrZero]]|].
  split; [intros cam; split; [exact Hb | split; [exact Hr | apply normalize_unitOrZero]]|].
  split; [intros p; split; [exact Hb | split; [apply rendererOk_setStyle, Hr | exact Hn]]|].
  split; [exact Hb | split; [apply rendererOk_clear, Hr | exact Hn]].
Qed.

(** ** Redefining the construction plane *)

Lemma cross_zero_l (v : Vector3) : Vec.cross Vec.zero v = Vec.zero.
Proof. unfold Vec.cross, Vec.zero; simpl. apply V3_eq; ring. Qed.

Lemma cross_zero_r (v : Vector3) : Vec.cross v Vec.zero = Vec.zero.
Proof. unfold Vec.cross, Vec.zero; simpl. apply V3_eq; ring. Qed.

Lemma cross_multiplyScalar (u v : Vector3) (a b : R) :
  Vec.cross (Vec.multiplyScalar u a) (Vec.multiplyScalar v b)
  = Vec.multiplyScalar (Vec.cross u v) (a * b).
Proof.
  destruct u, v; unfold Vec.cross, Vec.multiplyScalar; simpl.
  apply V3_eq; ring.
Qed.

Lemma multiplyScalar_nonzero (v : Vector3) (k : R) :
  v <> Vec.zero -> k <> 0 -> Vec.multiplyScalar v k <> Vec.zero.
Proof.
  intros Hv Hk E. apply Hv. destruct v as [x y z].
  unfold Vec.multiplyScalar, Vec.zero in *; simpl in *.
  injection E as Ex Ey Ez.
  apply V3_eq.
  - apply Rmult_integral in Ex as [Ex | Ex]; [exact Ex | contradiction].
  - apply Rmult_integral in Ey as [Ey | Ey]; [exact Ey | contradiction].
  - apply Rmult_integral in Ez as [Ez | Ez]; [exact Ez | contradiction].
Qed.

Lemma dot_cross_left (u v : Vector3) : Vec.dot (Vec.cross u v) u = 0.
Proof. destruct u, v; unfold Vec.dot, Vec.cross; simpl; ring. Qed.

Lemma dot_cross_right (u v : Vector3) : Vec.dot (Vec.cross u v) v = 0.
Proof. destruct u, v; unfold Vec.dot, Vec.cross; simpl; ring. Qed.

Lemma dot_multiplyScalar_l (u v : Vector3) (k : R) :
  Vec.dot (Vec.multiplyScalar u k) v = k * Vec.dot u v.
Proof. destruct u, v; unfold Vec.dot, Vec.multiplyScalar; simpl; ring. Qed.

(** The normal that the three-point definition computes is a positive
    multiple of [(P2 - P1) x (P3 - P1)]. *)
Lemma three_point_normal (u v : Vector3) :
  Vec.cross u v <> Vec.zero ->
  exists k : R,
    0 < k /\
    Vec.cross (Vec.normalize u) (Vec.normalize v) <> Vec.zero /\
    Vec.normalize (Vec.cross (Vec.normalize u) (Vec.normalize v))
    = Vec.multiplyScalar (Vec.cross u v) k.
Proof.
  intros Hc.
  assert (Hu : u <> Vec.zero) by (intros ->; apply Hc, cross_zero_l).
  assert (Hv : v <> Vec.zero) by (intros ->; apply Hc, cross_zero_r).
  pose proof (length_pos u Hu) as Lu. pose proof (length_pos v Hv) as Lv.
  rewrite (normalize_nonzero u Hu), (normalize_nonzero v Hv).
  rewrite cross_multiplyScalar.
  set (k1 := 1 / Vec.length u * (1 / Vec.length v)).
  assert (Hk1 : 0 < k1).
  { unfold k1. apply Rmult_lt_0_compat; apply Rdiv_lt_0_compat; lra. }
  assert (Hne : Vec.multiplyScalar (Vec.cross u v) k1 <> Vec.zero)
    by (apply multiplyScalar_nonzero; [exact Hc | lra]).
  pose proof (length_pos _ Hne) as Lc.
  exists (k1 * (1 / Vec.length (Vec.multiplyScalar (Vec.cross u v) k1))).
  split; [| split; [exact Hne|]].
  - apply Rmult_lt_0_compat; [exact Hk1 | apply Rdiv_lt_0_compat; lra].
  - rewrite (normalize_nonzero _ Hne).
    set (k2 := 1 / Vec.length (Vec.multiplyScalar (Vec.cross u v) k1)).
    destruct (Vec.cross u v); unfold Vec.multiplyScalar; simpl.
    apply V3_eq; ring.
Qed.

(** X13.  The three-point definition, when its points are not collinear,
    puts the plane through them: after the third snapped click the system is
    idle with an empty buffer, the plane's origin is [P1], its normal has
    length 1, is perpendicular to [P2 - P1] and to [P3 - P1], so that [P2]
    and [P3] lie on the plane, and points to the side of
    [(P2 - P1) x (P3 - P1)]. *)
Theorem three_point_plane_contains_points
    (ev : PointerEvent) (s : DimensionSystem) (p1 p2 : Vector3)
    (sn : SnapResult) :
  state s = defining_cplane_p3 ->
  startPoint s = Some p1 -> endPoint s = Some p2 ->
  fst (getSnapPoint (snappingManager s) (ev_intersects ev)) = Some sn ->
  let p3 := snap_point sn in
  Vec.cross (Vec.sub p2 p1) (Vec.sub p3 p1) <> Vec.zero ->
  exists s',
    onClick ev s = Some s' /\ state s' = idle /\
    startPoint s' = None /\ endPoint s' = None /\ angleP2 s' = None /\
    cp_origin (cplane s') = p1 /\
    Vec.lengthSq (cp_normal (cplane s')) = 1 /\
    onPlane (cp_normal (cplane s')) p1 p2 /\
    onPlane (cp_normal (cplane s')) p1 p3 /\
    0 < Vec.dot (cp_normal (cplane s'))
                (Vec.cross (Vec.sub p2 p1) (Vec.sub p3 p1)).
Proof.
  intros Hst Hp1 Hp2 Hsnap p3 Hc.
  rewrite (onClick_defining_cplane_p3 ev s p1 p2 sn Hst Hp1 Hp2 Hsnap).
  fold p3.
  destruct (three_point_normal _ _ Hc) as (k & Hk & Hne & Hn).
  match goal with
  | |- context [defineCPlaneP3 p1 p2 p3 ?s0] =>
      destruct (defineCPlaneP3_redefines p1 p2 p3 s0 Hne) as (E & Hpl & Hunit)
  end.
  eexists. split; [reflexivity|].
  rewrite Hpl in *. cbn [cp_origin cp_normal] in *. rewrite E.
  split; [reflexivity|]. split; [reflexivity|]. split; [reflexivity|].
  split; [reflexivity|]. split; [reflexivity|]. split; [exact Hunit|].
  rewrite Hn. unfold onPlane.
  rewrite !(dot_multiplyScalar_l (Vec.cross (Vec.sub p2 p1) (Vec.sub p3 p1))).
  rewrite dot_cross_left, dot_cross_right.
  split; [ring|]. split; [ring|].
  apply Rmult_lt_0_compat; [exact Hk|].
  pose proof (lengthSq_nonneg (Vec.cross (Vec.sub p2 p1) (Vec.sub p3 p1))) as Hnn.
  unfold Vec.lengthSq in Hnn. destruct Hnn as [Hpos | Hz]; [exact Hpos|].
  exfalso. apply Hc, length_zero_iff. unfold Vec.length, Vec.lengthSq.
  rewrite <- Hz. apply sqrt_0.
Qed.

Lemma three_point_plane_contains_points_witness :
  exists s',
    onClick (mkEvent (mkRay (V3 0 2 5) (V3 0 0 (-1)))
               [triangleHit (V3 0 2 0) (V3 0 0 0) (V3 2 0 0) (V3 0 2 0)] [] None)
            (mkSystem newSnappingManager newDimensionRenderer dim_linear
                      (mkCPlane (V3 0 0 0) (V3 0 1 0)) defining_cplane_p3
                      (Some (V3 0 0 0)) (Some (V3 2 0 0)) None)
    = Some s' /\ cp_origin (cplane s') = V3 0 0 0.
Proof.
  destruct (three_point_plane_contains_points
              (mkEvent (mkRay (V3 0 2 5) (V3 0 0 (-1)))
                 [triangleHit (V3 0 2 0) (V3 0 0 0) (V3 2 0 0) (V3 0 2 0)]
                 [] None)
              (mkSystem newSnappingManager newDimensionRenderer dim_linear
                        (mkCPlane (V3 0 0 0) (V3 0 1 0)) defining_cplane_p3
                        (Some (V3 0 0 0)) (Some (V3 2 0 0)) None)
              (V3 0 0 0) (V3 2 0 0)
              (mkSnap (V3 0 2 0) snap_vertex 0
                 (triangleMesh (V3 0 2 0) (V3 0 0 0) (V3 2 0 0)) None)
              eq_refl eq_refl eq_refl
              (getSnapPoint_on_vertex newSnappingManager
                 (V3 0 2 0) (V3 0 0 0) (V3 2 0 0) [] eq_refl eq_refl))
    as (s' & Hs' & _ & _ & _ & _ & Ho & _).
  - cbn [snap_point]. unfold Vec.cross, Vec.sub, Vec.zero; simpl.
    apply V3_neq_z. lra.
  - exists s'. split; [exact Hs' | exact Ho].
Defined.

Lemma getRayPoint_on_plane (s : DimensionSystem) (ray : Ray)
    (referencePoint : option Vector3) :
  let n := cp_normal (cplane s) in
  let o := resolveOrigin s referencePoint in
  rayMeetsPlane ray n o -> onPlane n o (getRayPoint s ray referencePoint).
Proof.
  intros n o (q & (t & Ht & ->) & Hq).
  rewrite getRayPoint_unfold. fold n o.
  unfold onPlane in *. rewrite dot_at in Hq.
  set (off := Vec.dot n (ray_origin ray) + - Vec.dot o n) in *.
  set (den := Vec.dot n (ray_direction ray)) in *.
  destruct (Req_dec_T den 0) as [Hd | Hd].
  - assert (Hoff : off = 0) by (rewrite Hd in Hq; lra).
    destruct (Req_dec_T off 0) as [_ | Hn]; [| contradiction].
    rewrite <- (at_zero ray), dot_at. fold off den. lra.
  - assert (Et : t = - off / den) by (field_simplify_eq; [lra | exact Hd]).
    destruct (Rle_dec 0 (- off / den)) as [_ | Hneg]; [| lra].
    rewrite dot_at. fold off den. field. exact Hd.
Qed.

(** X14.  Translating the plane keeps its orientation.  A click in state
    [translating_cplane], snapped or not, always completes: the system is
    idle, the plane's origin is the clicked point (the snap point or, with no
    snap, the ray resolved on the current plane) and, for a normal of length
    1 or 0, the normal is the one before.  With no snap and a ray that meets
    the current plane, the new origin lies on the old plane: a free click
    moves the origin within the plane and not the plane. *)
Theorem translate_keeps_orientation (ev : PointerEvent) (s : DimensionSystem) :
  state s = translating_cplane ->
  unitOrZero (cp_normal (cplane s)) ->
  let snap := fst (getSnapPoint (snappingManager s) (ev_intersects ev)) in
  exists s',
    onClick ev s = Some s' /\ state s' = idle /\
    startPoint s' = None /\ endPoint s' = None /\ angleP2 s' = None /\
    cp_normal (cplane s') = cp_normal (cplane s) /\
    cp_origin (cplane s') = snapOrRay s snap (ev_ray ev) None /\
    dimensionRenderer s' = dimensionRenderer s /\
    (snap = None ->
     rayMeetsPlane (ev_ray ev) (cp_normal (cplane s)) (cp_origin (cplane s)) ->
     onPlane (cp_normal (cplane s)) (cp_origin (cplane s))
             (cp_origin (cplane s'))).
Proof.
  intros Hst Hn snap. unfold onClick. rewrite getSnapPoint_pair. fold snap.
  cbn [withSnapping state]. rewrite Hst.
  eexists. split; [reflexivity|].
  unfold reset, setCPlane, withSnapping.
  cbn [state startPoint endPoint angleP2 cplane cp_normal cp_origin
       dimensionRenderer snappingManager mode].
  rewrite (normalize_of_unitOrZero _ Hn).
  split; [reflexivity|]. split; [reflexivity|]. split; [reflexivity|].
  split; [reflexivity|]. split; [reflexivity|].
  split; [destruct snap; reflexivity|]. split; [reflexivity|].
  intros -> Hmeet. cbn [snapOrRay].
  exact (getRayPoint_on_plane s (ev_ray ev) None Hmeet).
Qed.

Lemma unitOrZero_up : unitOrZero (V3 0 1 0).
Proof. left. unfold Vec.lengthSq, Vec.dot; simpl; ring. Qed.

Lemma translate_keeps_orientation_witness :
  exists s',
    onClick (mkEvent (mkRay (V3 0 5 0) (V3 0 (-1) 0)) [] [] None)
            (startTranslateCPlane newDimensionSystem) = Some s' /\
    cp_normal (cplane s') = V3 0 1 0.
Proof.
  destruct (translate_keeps_orientation
              (mkEvent (mkRay (V3 0 5 0) (V3 0 (-1) 0)) [] [] None)
              (startTranslateCPlane newDimensionSystem) eq_refl unitOrZero_up)
    as (s' & Hs' & _ & _ & _ & _ & Hn & _).
  exists s'. split; [exact Hs' | exact Hn].
Defined.

Lemma negate_multiplyScalar (v : Vector3) :
  Vec.negate v = Vec.multiplyScalar v (-1).
Proof.
  destruct v; unfold Vec.negate, Vec.multiplyScalar; simpl. apply V3_eq; ring.
Qed.

(** X15.  [setCPlaneToView] puts the plane squarely in front of the camera.
    For a camera with a unit view direction [d] at position [P], the plane's
    normal is [-d], its origin is [P + 10 d], ten units from the camera, the
    camera lies ten units in front of the plane along the normal, and the
    picking ray straight ahead resolves to the plane's origin. *)
Theorem view_plane_faces_camera (cam : Camera) (s : DimensionSystem) :
  Vec.length (cam_worldDirection cam) = 1 ->
  let s' := setCPlaneToView cam s in
  let P := cam_position cam in
  let d := cam_worldDirection cam in
  cp_normal (cplane s') = Vec.negate d /\
  cp_origin (cplane s') = Vec.add P (Vec.multiplyScalar d 10) /\
  Vec.distanceTo (cp_origin (cplane s')) P = 10 /\
  Vec.dot (cp_normal (cplane s')) (Vec.sub P (cp_origin (cplane s'))) = 10 /\
  getRayPoint s' (mkRay P d) None = cp_origin (cplane s').
Proof.
  intros Hu s' P d.
  pose proof (length_sqr d) as Hsq. fold d in Hu. rewrite Hu in Hsq.
  assert (Hneg : Vec.normalize (Vec.negate d) = Vec.negate d).
  { apply normalize_unit. rewrite negate_multiplyScalar,
      lengthSq_multiplyScalar. rewrite <- Hsq. ring. }
  unfold Vec.lengthSq in Hsq.
  assert (Hn : cp_normal (cplane s') = Vec.negate d) by exact Hneg.
  assert (Ho : cp_origin (cplane s') = Vec.add P (Vec.multiplyScalar d 10))
    by reflexivity.
  split; [exact Hn|]. split; [exact Ho|]. split; [| split].
  - rewrite Ho. exact (distance_at (mkRay P d) 10 ltac:(lra) Hu).
  - rewrite Hn, Ho.
    transitivity (10 * Vec.dot d d); [| rewrite <- Hsq; ring].
    destruct P, d; unfold Vec.dot, Vec.negate, Vec.sub, Vec.add,
      Vec.multiplyScalar; simpl. ring.
  - rewrite getRayPoint_unfold. cbn [resolveOrigin ray_origin ray_direction].
    rewrite Hn, Ho.
    assert (Hden : Vec.dot (Vec.negate d) d = -1).
    { transitivity (- Vec.dot d d); [| rewrite <- Hsq; ring].
      destruct d; unfold Vec.dot, Vec.negate; simpl. ring. }
    assert (Hoff : Vec.dot (Vec.negate d) P
                   + - Vec.dot (Vec.add P (Vec.multiplyScalar d 10))
                               (Vec.negate d) = 10).
    { transitivity (10 * Vec.dot d d); [| rewrite <- Hsq; ring].
      destruct P, d; unfold Vec.dot, Vec.negate, Vec.add,
        Vec.multiplyScalar; simpl. ring. }
    rewrite Hden, Hoff.
    destruct (Req_dec_T (-1) 0) as [E | _]; [lra|].
    destruct (Rle_dec 0 _) as [_ | Hn10]; [| exfalso; apply Hn10; lra].
    unfold at_. cbn [ray_origin ray_direction]. do 2 f_equal. field.
Qed.

Lemma view_plane_faces_camera_witness :
  cp_normal (cplane (setCPlaneToView (mkCamera (V3 5 5 5) (V3 0 0 (-1)))
                                     newDimensionSystem))
  = Vec.negate (V3 0 0 (-1)).
Proof.
  refine (proj1 (view_plane_faces_camera
                   (mkCamera (V3 5 5 5) (V3 0 0 (-1))) newDimensionSystem _)).
  cbn [cam_worldDirection].
  unfold Vec.length, Vec.lengthSq, Vec.dot; simpl. apply sqrt_is; lra.
Defined.

(** ** Turning the up axis onto a direction *)

Lemma Number_EPSILON_pos : 0 < Number_EPSILON.
Proof. unfold Number_EPSILON. apply Rinv_0_lt_compat, pow_lt. lra. Qed.

Lemma Number_EPSILON_le_1 : Number_EPSILON <= 1.
Proof.
  unfold Number_EPSILON. apply Rle_trans with (/ 1); [| rewrite Rinv_1; lra].
  apply Rinv_le_contravar; [lra|]. apply pow_R1_Rle. lra.
Qed.

Lemma setFromUnitVectorsWith_up (eps : R) (n : Vector3) :
  0 < eps -> Vec.lengthSq n = 1 -> eps <= 1 + vy n ->
  applyQuaternion (V3 0 1 0) (setFromUnitVectorsWith eps (V3 0 1 0) n) = n.
Proof.
  destruct n as [a b c]. unfold Vec.lengthSq, Vec.dot; simpl.
  intros HE Hunit Heps.
  unfold setFromUnitVectorsWith. unfold Vec.dot; simpl.
  destruct (Rlt_dec (0 * a + 1 * b + 0 * c + 1) eps) as [Hlt | _];
    [lra|].
  unfold quat_normalize. cbn [qx qy qz qw].
  set (E := (1 * c - 0 * b) * (1 * c - 0 * b) +
            (0 * a - 0 * c) * (0 * a - 0 * c) +
            (0 * b - 1 * a) * (0 * b - 1 * a) +
            (0 * a + 1 * b + 0 * c + 1) * (0 * a + 1 * b + 0 * c + 1)).
  assert (HE2 : E = 2 * (1 + b)).
  { unfold E. transitivity (a * a + b * b + c * c + 2 * b + 1); [ring|].
    rewrite Hunit. ring. }
  assert (HL : sqrt E * sqrt E = E) by (apply sqrt_sqrt; lra).
  assert (HLpos : 0 < sqrt E) by (apply sqrt_lt_R0; lra).
  destruct (Req_dec_T (sqrt E) 0) as [E0 | _]; [lra|].
  assert (Hk : 1 / sqrt E * (1 / sqrt E) * (2 * (1 + b)) = 1).
  { replace (2 * (1 + b)) with (sqrt E * sqrt E) by lra. field. lra. }
  set (k := 1 / sqrt E) in *. clearbody k. clear HL HLpos HE2 E.
  unfold applyQuaternion. cbn [qx qy qz qw vx vy vz].
  apply V3_eq.
  - transitivity (a * (k * k * (2 * (1 + b)))); [ring | rewrite Hk; ring].
  - transitivity (1 - (1 - b) * (k * k * (2 * (1 + b)))
                  - 2 * k * k * (a * a + b * b + c * c - 1)); [ring|].
    rewrite Hk, Hunit. ring.
  - transitivity (c * (k * k * (2 * (1 + b)))); [ring | rewrite Hk; ring].
Qed.

Lemma setFromUnitVectorsWith_up_down (eps : R) :
  0 < eps ->
  applyQuaternion (V3 0 1 0)
                  (setFromUnitVectorsWith eps (V3 0 1 0) (V3 0 (-1) 0))
  = V3 0 (-1) 0.
Proof.
  intros HE.
  unfold setFromUnitVectorsWith. unfold Vec.dot; simpl.
  destruct (Rlt_dec (0 * 0 + 1 * -1 + 0 * 0 + 1) eps) as [_ | Hn];
    [| exfalso; apply Hn; lra].
  destruct (Rlt_dec (Rabs 0) (Rabs 0)) as [Hlt | _]; [lra|].
  unfold quat_normalize. cbn [qx qy qz qw].
  replace (sqrt (0 * 0 + - 0 * - 0 + 1 * 1 + 0 * 0)) with 1
    by (symmetry; apply sqrt_is; lra).
  destruct (Req_dec_T 1 0) as [E | _]; [lra|].
  unfold applyQuaternion. cbn [qx qy qz qw vx vy vz]. apply V3_eq; field.
Qed.

Lemma unitVectors_threshold : 0 < 1 / 10 ^ 8 <= 1.
Proof. lra. Qed.

Lemma Number_EPSILON_lt_threshold : Number_EPSILON < 1 / 10 ^ 8.
Proof.
  unfold Number_EPSILON.
  apply Rlt_le_trans with (/ 2 ^ 27).
  - apply Rinv_lt_contravar; [apply Rmult_lt_0_compat; apply pow_lt; lra|].
    apply Rlt_pow; [lra | lia].
  - lra.
Qed.

Lemma setFromUnitVectors_aligns (n : Vector3) :
  Vec.lengthSq n = 1 ->
  1 / 10 ^ 8 <= 1 + vy n \/ n = V3 0 (-1) 0 ->
  applyQuaternion (V3 0 1 0) (setFromUnitVectors (V3 0 1 0) n) = n.
Proof.
  pose proof unitVectors_threshold as [Hpos _].
  intros Hu [H | ->]; unfold setFromUnitVectors;
    [apply setFromUnitVectorsWith_up; assumption
    | apply setFromUnitVectorsWith_up_down; assumption].
Qed.

(** On the range of the two properties below the releases of three.js agree:
    where [r] is at least [1e-8], or below [Number.EPSILON], the older test
    [r < Number.EPSILON] takes the branch the current one takes. *)
Lemma setFromUnitVectors_releases (vFrom vTo : Vector3) :
  1 / 10 ^ 8 <= Vec.dot vFrom vTo + 1 \/ Vec.dot vFrom vTo + 1 < Number_EPSILON ->
  setFromUnitVectorsWith Number_EPSILON vFrom vTo
  = setFromUnitVectors vFrom vTo.
Proof.
  pose proof Number_EPSILON_lt_threshold as Hlt.
  intros H. unfold setFromUnitVectors, setFromUnitVectorsWith. cbv zeta.
  destruct (Rlt_dec (Vec.dot vFrom vTo + 1) Number_EPSILON) as [H1 | H1],
           (Rlt_dec (Vec.dot vFrom vTo + 1) (1 / 10 ^ 8)) as [H2 | H2];
    try reflexivity; exfalso; destruct H; lra.
Qed.

Lemma setFromUnitVectors_up_releases (n : Vector3) :
  1 / 10 ^ 8 <= 1 + vy n \/ n = V3 0 (-1) 0 ->
  setFromUnitVectorsWith Number_EPSILON (V3 0 1 0) n
  = setFromUnitVectors (V3 0 1 0) n.
Proof.
  intros H. apply setFromUnitVectors_releases.
  destruct H as [H | ->]; unfold Vec.dot; cbn [vx vy vz].
  - left. lra.
  - right. pose proof Number_EPSILON_pos. lra.
Qed.

Lemma applyQuaternion_scaled (q : Quaternion) (h : R) :
  applyQuaternion (V3 0 h 0) q
  = Vec.multiplyScalar (applyQuaternion (V3 0 1 0) q) h.
Proof.
  unfold applyQuaternion, Vec.multiplyScalar; simpl. apply V3_eq; ring.
Qed.

(** X16.  [CPlaneHelper.update] lays the helper's grid in the construction
    plane: the helper sits at the plane's origin, and its local up axis, the
    normal of its grid, is turned onto the normalized plane normal.  This
    holds for every nonzero normal whose normalized form keeps
    [1 + y >= 1e-8], and for the normal pointing exactly down; on this range
    the result does not depend on the release of three.js. *)
Theorem helper_grid_lies_in_plane (c : CPlane) (h : CPlaneHelper) :
  cp_normal c <> Vec.zero ->
  let n := Vec.normalize (cp_normal c) in
  1 / 10 ^ 8 <= 1 + vy n \/ n = V3 0 (-1) 0 ->
  helper_position (update c h) = cp_origin c /\
  helperNormal (update c h) = n /\
  Vec.lengthSq (helperNormal (update c h)) = 1 /\
  setFromUnitVectorsWith Number_EPSILON (V3 0 1 0) n
  = setFromUnitVectors (V3 0 1 0) n.
Proof.
  intros Hne n Hn.
  pose proof (lengthSq_normalize _ Hne) as Hu. fold n in Hu.
  assert (E : helperNormal (update c h) = n)
    by (apply setFromUnitVectors_aligns; assumption).
  split; [reflexivity|]. split; [exact E|]. split; [rewrite E; exact Hu|].
  apply setFromUnitVectors_up_releases. exact Hn.
Qed.

Lemma normalize_up : Vec.normalize (V3 0 1 0) = V3 0 1 0.
Proof. apply normalize_unit. unfold Vec.lengthSq, Vec.dot; simpl; ring. Qed.

Lemma helper_grid_lies_in_plane_witness :
  helperNormal (update (mkCPlane (V3 1 2 3) (V3 0 1 0))
                       (mkHelper Vec.zero (Quat 0 0 0 1)))
  = Vec.normalize (V3 0 1 0).
Proof.
  refine (proj1 (proj2 (helper_grid_lies_in_plane
                          (mkCPlane (V3 1 2 3) (V3 0 1 0))
                          (mkHelper Vec.zero (Quat 0 0 0 1)) _ _))).
  - cbn [cp_normal]. unfold Vec.zero. apply V3_neq_y. lra.
  - left. cbn [cp_normal]. rewrite normalize_up. cbn [vy]. lra.
Defined.

(** X17.  The arrow of a leader touches its origin.  With [arrowDir] the
    normalized direction from the elbow to the origin (the up axis when the
    two coincide), the cone of the leader group is turned so that its axis
    points along [arrowDir] and placed so that its tip is exactly the origin
    point, whatever the style's scale.  This holds whenever [arrowDir] keeps
    [1 + y >= 1e-8] or points exactly down; on this range the result does not
    depend on the release of three.js. *)
Theorem leader_arrow_touches_origin
    (st : DimensionStyle) (data : DimensionData) (isPreview : bool) :
  let start := d_start data in
  let end_ := d_end data in
  let arrowDir :=
    if Rlt_dec (Vec.lengthSq (Vec.normalize (Vec.sub start end_))) (1 / 10000)
    then up else Vec.normalize (Vec.sub start end_) in
  1 / 10 ^ 8 <= 1 + vy arrowDir \/ arrowDir = V3 0 (-1) 0 ->
  exists mat cone lbl rot pos,
    buildLeaderGeometry st data isPreview
    = Some [ Line [start; end_] mat;
             Line [end_; d_offsetPoint data] mat; cone; lbl ] /\
    cone = Cone (5 / 100 * scale st) (2 / 10 * scale st) 8
                (builderColor st isPreview) (depthTest st) rot pos /\
    applyQuaternion (V3 0 1 0) rot = arrowDir /\
    Vec.lengthSq arrowDir = 1 /\
    coneTip cone = Some start /\
    rot = setFromUnitVectorsWith Number_EPSILON up arrowDir.
Proof.
  intros start end_ arrowDir Hdir.
  assert (Hunit : Vec.lengthSq arrowDir = 1).
  { unfold arrowDir.
    destruct (Rlt_dec _ (1 / 10000)) as [Hlt | Hge].
    - unfold up, Vec.lengthSq, Vec.dot; simpl; ring.
    - destruct (normalize_unitOrZero (Vec.sub start end_)) as [H | H];
        [exact H|].
      exfalso. apply Hge. rewrite H, lengthSq_zero. lra. }
  assert (Hrot : applyQuaternion (V3 0 1 0) (setFromUnitVectors up arrowDir)
                 = arrowDir)
    by (apply setFromUnitVectors_aligns; assumption).
  eexists _, _, _, _, _. split; [reflexivity|]. split; [reflexivity|].
  fold start end_ arrowDir.
  split; [exact Hrot|]. split; [exact Hunit|].
  split; [| symmetry; apply setFromUnitVectors_up_releases; exact Hdir].
  cbn [coneTip]. rewrite applyQuaternion_scaled, Hrot. f_equal.
  destruct start, arrowDir; unfold Vec.add, Vec.sub, Vec.multiplyScalar; simpl.
  apply V3_eq; ring.
Qed.

Lemma leader_arrow_touches_origin_witness :
  exists cone,
    nth_error
      (match buildLeaderGeometry defaultStyle
               (mkData 0 dim_leader (V3 1 1 1) (V3 1 1 1) (V3 2 1 1) None None)
               false with
       | Some g => g
       | None => []
       end) 2 = Some cone /\
    coneTip cone = Some (V3 1 1 1).
Proof.
  destruct (leader_arrow_touches_origin defaultStyle
              (mkData 0 dim_leader (V3 1 1 1) (V3 1 1 1) (V3 2 1 1) None None)
              false)
    as (mat & cone & lbl & rot & pos & Hb & _ & _ & _ & Htip & _).
  - left. cbn [d_start d_end].
    replace (Vec.sub (V3 1 1 1) (V3 1 1 1)) with Vec.zero
      by (unfold Vec.sub, Vec.zero; simpl; apply V3_eq; ring).
    rewrite normalize_zero, lengthSq_zero.
    destruct (Rlt_dec 0 (1 / 10000)) as [_ | Hn]; [| lra].
    unfold up; cbn [vy]. lra.
  - exists cone. rewrite Hb. split; [reflexivity | exact Htip].
Defined.

(** ** The layout of a linear dimension *)

Lemma linearPerpVec_decompose (a b o : Vector3) :
  Vec.sub b a <> Vec.zero ->
  o = Vec.add (Vec.add a (linearPerpVec a b o))
              (Vec.multiplyScalar
                 (Vec.sub b a)
                 (Vec.dot (Vec.sub o a) (Vec.normalize (Vec.sub b a))
                  / Vec.length (Vec.sub b a))).
Proof.
  intros Hne. unfold linearPerpVec. rewrite normalize_nonzero by assumption.
  pose proof (length_pos _ Hne) as HL.
  set (L := Vec.length (Vec.sub b a)) in *. clearbody L.
  destruct a, b, o;
    unfold Vec.add, Vec.sub, Vec.multiplyScalar, Vec.dot; simpl.
  apply V3_eq; field; lra.
Qed.

(** X18.  The layout of a linear dimension whose base line is at least 0.001
    long.  The group consists of the dimension line from [p1] to [p2], two
    witness lines, one tick pair and the label, in this order.  The dimension
    line is the base line shifted: [p2 - p1 = B - A]; the offset point lies on
    the infinite line through it.  Each witness line starts at its anchor and
    ends [0.1 * scale] beyond the dimension-line end along the unit witness
    direction, which is the normalized offset vector, so that anchor,
    dimension-line end and witness end are in line, unless the offset vector
    is shorter than 0.01, when it is the up axis.  Each tick is centred on
    its dimension-line end, and the label sits [0.2 * scale] along the
    witness direction from the middle of the dimension line, showing the
    length of the base line. *)
Theorem linear_dimension_layout
    (st : DimensionStyle) (data : DimensionData) (isPreview : bool) :
  let A := d_start data in
  let B := d_end data in
  let O := d_offsetPoint data in
  1 / 1000 <= Vec.distanceTo A B ->
  let v := linearPerpVec A B O in
  let leaderDir :=
    if Rlt_dec (Vec.lengthSq v) (1 / 10000) then up else Vec.normalize v in
  exists lineMat leaderMat p1 p2 l1Start l1End l2Start l2End t1a t1b t2a t2b lbl,
    buildLinearGeometry st data isPreview
    = Some [ Line [p1; p2] lineMat;
             Line [l1Start; l1End] leaderMat;
             Line [l2Start; l2End] leaderMat;
             LineSegments [t1a; t1b; t2a; t2b] lineMat;
             Label lbl ] /\
    Vec.sub p2 p1 = Vec.sub B A /\
    (exists t, O = Vec.add p1 (Vec.multiplyScalar (Vec.sub B A) t)) /\
    l1Start = A /\ l2Start = B /\
    l1End = Vec.add p1 (Vec.multiplyScalar leaderDir (1 / 10 * scale st)) /\
    l2End = Vec.add p2 (Vec.multiplyScalar leaderDir (1 / 10 * scale st)) /\
    Vec.lengthSq leaderDir = 1 /\
    (1 / 10000 <= Vec.lengthSq v ->
     p1 = Vec.add A (Vec.multiplyScalar leaderDir (Vec.length v)) /\
     p2 = Vec.add B (Vec.multiplyScalar leaderDir (Vec.length v))) /\
    Vec.multiplyScalar (Vec.add t1a t1b) (1 / 2) = p1 /\
    Vec.multiplyScalar (Vec.add t2a t2b) (1 / 2) = p2 /\
    Vec.sub t1b t1a = Vec.sub t2b t2a /\
    sp_position lbl
    = Vec.add (Vec.multiplyScalar (Vec.add p1 p2) (1 / 2))
              (Vec.multiplyScalar leaderDir (2 / 10 * scale st)) /\
    sp_message lbl = linearLabel st (Vec.distanceTo A B).
Proof.
  intros A B O Hlen v leaderDir.
  assert (Hne : Vec.sub B A <> Vec.zero)
    by (apply sub_nonzero_of_distance; lra).
  unfold buildLinearGeometry. fold A B O.
  destruct (Rlt_dec (Vec.distanceTo A B) (1 / 1000)) as [Hlt | _]; [lra|].
  fold v. fold leaderDir.
  eexists _, _, _, _, _, _, _, _, _, _, _, _, _.
  split; [reflexivity|].
  assert (Hunit : Vec.lengthSq leaderDir = 1).
  { unfold leaderDir. destruct (Rlt_dec _ (1 / 10000)) as [Hs | Hs].
    - unfold up, Vec.lengthSq, Vec.dot; simpl; ring.
    - apply lengthSq_normalize. intros E. apply Hs.
      rewrite E, lengthSq_zero. lra. }
  split.
  { destruct A, B, v; unfold Vec.sub, Vec.add; simpl. apply V3_eq; ring. }
  split.
  { eexists. apply (linearPerpVec_decompose A B O Hne). }
  split.
  { destruct A, leaderDir; unfold Vec.add, Vec.multiplyScalar; simpl.
    apply V3_eq; ring. }
  split.
  { destruct B, leaderDir; unfold Vec.add, Vec.multiplyScalar; simpl.
    apply V3_eq; ring. }
  split; [reflexivity|]. split; [reflexivity|]. split; [exact Hunit|].
  split.
  { intros Hbig. unfold leaderDir.
    destruct (Rlt_dec (Vec.lengthSq v) (1 / 10000)) as [Hs | _]; [lra|].
    assert (Hv : v <> Vec.zero).
    { intros E. rewrite E, lengthSq_zero in Hbig. lra. }
    rewrite (normalize_nonzero v Hv).
    pose proof (length_pos v Hv) as HL.
    set (L := Vec.length v) in *. clearbody L.
    split.
    - destruct A, v; unfold Vec.add, Vec.multiplyScalar; simpl.
      apply V3_eq; field; lra.
    - destruct B, v; unfold Vec.add, Vec.multiplyScalar; simpl.
      apply V3_eq; field; lra. }
  split.
  { match goal with
    | |- Vec.multiplyScalar (Vec.add (Vec.sub ?p ?t) (Vec.add ?p ?t)) _ = _ =>
        generalize t; generalize p
    end.
    intros [px py pz] [tx ty tz].
    unfold Vec.add, Vec.sub, Vec.multiplyScalar; simpl. apply V3_eq; field. }
  split.
  { match goal with
    | |- Vec.multiplyScalar (Vec.add (Vec.sub ?p ?t) (Vec.add ?p ?t)) _ = _ =>
        generalize t; generalize p
    end.
    intros [px py pz] [tx ty tz].
    unfold Vec.add, Vec.sub, Vec.multiplyScalar; simpl. apply V3_eq; field. }
  split.
  { match goal with
    | |- Vec.sub (Vec.add ?p ?t) (Vec.sub ?p ?t)
         = Vec.sub (Vec.add ?q ?t) (Vec.sub ?q ?t) =>
        generalize t; generalize p; generalize q
    end.
    intros [qx qy qz] [px py pz] [tx ty tz].
    unfold Vec.add, Vec.sub; simpl. apply V3_eq; ring. }
  split; reflexivity.
Qed.

Lemma linear_dimension_layout_witness :
  exists g p1 p2 mat,
    buildLinearGeometry defaultStyle
      (mkData 0 dim_linear (V3 0 0 0) (V3 2 0 0) (V3 1 1 0) None None) false
    = Some g /\
    nth_error g 0 = Some (Line [p1; p2] mat) /\
    Vec.sub p2 p1 = Vec.sub (V3 2 0 0) (V3 0 0 0).
Proof.
  destruct (linear_dimension_layout defaultStyle
              (mkData 0 dim_linear (V3 0 0 0) (V3 2 0 0) (V3 1 1 0) None None)
              false)
    as (lineMat & leaderMat & p1 & p2 & l1s & l1e & l2s & l2e & t1a & t1b
        & t2a & t2b & lbl & Hb & Hpar & _).
  - cbn [d_start d_end]. rewrite distance_2_0. lra.
  - eexists _, p1, p2, lineMat. split; [exact Hb|].
    split; [reflexivity | exact Hpar].
Defined.

(** ** The arc of an angle dimension *)

Lemma cross_cross_left (u v : Vector3) :
  Vec.cross (Vec.cross u v) u
  = Vec.sub (Vec.multiplyScalar v (Vec.dot u u))
            (Vec.multiplyScalar u (Vec.dot u v)).
Proof.
  destruct u, v; unfold Vec.cross, Vec.sub, Vec.multiplyScalar, Vec.dot; simpl.
  apply V3_eq; ring.
Qed.

(** A point given by coordinates in an orthonormal pair of axes is as far
    from the center as its coordinates say. *)
Lemma distance_in_frame (c x y : Vector3) (p q : R) :
  Vec.lengthSq x = 1 -> Vec.lengthSq y = 1 -> Vec.dot x y = 0 ->
  Vec.distanceToSquared
    (Vec.add (Vec.add c (Vec.multiplyScalar x p)) (Vec.multiplyScalar y q)) c
  = p * p + q * q.
Proof.
  intros Hx Hy Hxy.
  transitivity (p * p * Vec.lengthSq x + 2 * p * q * Vec.dot x y
                + q * q * Vec.lengthSq y).
  - destruct c, x, y.
    unfold Vec.distanceToSquared, Vec.add, Vec.multiplyScalar, Vec.lengthSq,
      Vec.dot; simpl. ring.
  - rewrite Hx, Hy, Hxy. ring.
Qed.

(** The frame of the arc: [dir1], the normal of the two arms, and their
    cross product. *)
Lemma arc_frame (v1 v2 : Vector3) :
  Vec.cross v1 v2 <> Vec.zero ->
  let n := Vec.normalize (Vec.cross v1 v2) in
  let x := Vec.normalize v1 in
  let y := Vec.normalize (Vec.cross n x) in
  Vec.lengthSq n = 1 /\ Vec.lengthSq x = 1 /\ Vec.lengthSq y = 1 /\
  Vec.dot x y = 0 /\ Vec.dot n x = 0 /\ Vec.dot n y = 0 /\
  y = Vec.multiplyScalar
        (Vec.cross (Vec.cross v1 v2) v1)
        (1 / Vec.length (Vec.cross v1 v2) * (1 / Vec.length v1)).
Proof.
  intros Hc n x y.
  assert (Hv1 : v1 <> Vec.zero) by (intros ->; apply Hc, cross_zero_l).
  pose proof (lengthSq_normalize _ Hc) as Hn. fold n in Hn.
  pose proof (lengthSq_normalize _ Hv1) as Hx. fold x in Hx.
  assert (Hnx : Vec.dot n x = 0).
  { unfold n, x. rewrite (normalize_nonzero _ Hc), (normalize_nonzero _ Hv1).
    rewrite dot_multiplyScalar_l, (dot_comm (Vec.cross v1 v2)),
      dot_multiplyScalar_l, (dot_comm v1), dot_cross_left. ring. }
  assert (Hcy : Vec.lengthSq (Vec.cross n x) = 1).
  { rewrite cross_lagrange, Hn, Hx, Hnx. ring. }
  assert (Ey : y = Vec.cross n x) by (apply normalize_unit, Hcy).
  split; [exact Hn|]. split; [exact Hx|].
  split; [rewrite Ey; exact Hcy|].
  split; [rewrite Ey, dot_comm; apply dot_cross_right|].
  split; [exact Hnx|].
  split; [rewrite Ey, dot_comm; apply dot_cross_left|].
  rewrite Ey. unfold n, x.
  rewrite (normalize_nonzero _ Hc), (normalize_nonzero _ Hv1).
  apply cross_multiplyScalar.
Qed.

(** The second arm in the frame of the first: the cosine and the sine of
    the angle between the arms are its coordinates. *)
Lemma second_arm_in_frame (v1 v2 : Vector3) :
  Vec.cross v1 v2 <> Vec.zero ->
  let theta := Vec.angleTo v1 v2 in
  let x := Vec.normalize v1 in
  let y := Vec.normalize (Vec.cross (Vec.normalize (Vec.cross v1 v2)) x) in
  Vec.normalize v2
  = Vec.add (Vec.multiplyScalar x (cos theta))
            (Vec.multiplyScalar y (sin theta)).
Proof.
  intros Hc theta x y.
  assert (Hv1 : v1 <> Vec.zero) by (intros ->; apply Hc, cross_zero_l).
  assert (Hv2 : v2 <> Vec.zero) by (intros ->; apply Hc, cross_zero_r).
  destruct (arc_frame v1 v2 Hc) as (_ & _ & _ & _ & _ & _ & Ey).
  cbv zeta in Ey. fold x y in Ey.
  destruct (angleTo_analytic v1 v2 Hv1 Hv2) as [Hth Hin].
  fold theta in Hth. unfold analyticAngle in Hth.
  pose proof (length_pos _ Hv1) as HA. pose proof (length_pos _ Hv2) as HB.
  pose proof (length_pos _ Hc) as HC.
  pose proof (length_sqr v1) as HA2. pose proof (length_sqr v2) as HB2.
  pose proof (length_sqr (Vec.cross v1 v2)) as HC2.
  rewrite cross_lagrange in HC2. unfold Vec.lengthSq in HA2, HB2, HC2.
  set (A := Vec.length v1) in *. set (B := Vec.length v2) in *.
  set (C := Vec.length (Vec.cross v1 v2)) in *.
  set (K := Vec.dot v1 v2) in *.
  assert (Hcos : cos theta = K / (A * B))
    by (rewrite Hth; apply cos_acos, Hin).
  assert (Hsin : sin theta = C / (A * B)).
  { rewrite Hth, sin_acos by exact Hin.
    apply sqrt_is.
    - apply Rlt_le, Rdiv_lt_0_compat; [exact HC|].
      apply Rmult_lt_0_compat; assumption.
    - unfold Rsqr.
      transitivity (C * C / (A * A * (B * B))); [field; lra|].
      rewrite HC2, HA2, HB2. fold K.
      rewrite <- HA2, <- HB2. field. lra. }
  rewrite Hcos, Hsin, Ey.
  unfold x. rewrite (normalize_nonzero _ Hv1), (normalize_nonzero _ Hv2).
  fold A B. rewrite cross_cross_left. fold K. rewrite <- HA2.
  clearbody A B C K.
  destruct v1, v2; unfold Vec.add, Vec.sub, Vec.multiplyScalar; simpl.
  apply V3_eq; field; lra.
Qed.

Lemma length_of_unit (x : Vector3) : Vec.lengthSq x = 1 -> Vec.length x = 1.
Proof. intros H. unfold Vec.length. rewrite H. apply sqrt_1. Qed.

Lemma ellipsePoint_on_circle (radius endAngle t : R) :
  fst (ellipsePoint radius endAngle t) * fst (ellipsePoint radius endAngle t)
  + snd (ellipsePoint radius endAngle t) * snd (ellipsePoint radius endAngle t)
  = radius * radius.
Proof.
  unfold ellipsePoint; cbn [fst snd].
  set (a := 0 + t * ellipseDelta endAngle).
  pose proof (sin2_cos2 a) as H. unfold Rsqr in H.
  transitivity (radius * radius * (sin a * sin a + cos a * cos a)); [ring|].
  rewrite H. ring.
Qed.

Lemma ellipsePoint_start (radius endAngle : R) :
  ellipsePoint radius endAngle (INR 0 / INR 24) = (radius, 0).
Proof.
  unfold ellipsePoint.
  replace (0 + INR 0 / INR 24 * ellipseDelta endAngle) with 0
    by (simpl; field; lra).
  rewrite cos_0, sin_0. f_equal; ring.
Qed.

Lemma ellipsePoint_end (radius endAngle : R) :
  Number_EPSILON <= endAngle ->
  ellipsePoint radius endAngle (INR 24 / INR 24)
  = (radius * cos endAngle, radius * sin endAngle).
Proof.
  intros H. unfold ellipsePoint, ellipseDelta.
  destruct (Rlt_dec (endAngle - 0) Number_EPSILON) as [Hlt | _]; [lra|].
  replace (0 + INR 24 / INR 24 * (endAngle - 0)) with endAngle
    by (simpl; field; lra).
  f_equal; ring.
Qed.

(** X19.  The arc of an angle dimension joins its two arms.  For a record
    with a second arm, a radius of at least 0.001 and arms that are not
    parallel, the group consists of the two arm segments from the center to
    the points at the radius along each arm, the arc, and the label.  The arc
    has 25 points; every one of them is at the radius from the center and in
    the plane of the two arms through the center; it starts at the end of
    the first arm segment and, when the angle between the arms is at least
    [Number.EPSILON], ends at the end of the second. *)
Theorem angle_arc_joins_arms
    (st : DimensionStyle) (data : DimensionData) (isPreview : bool)
    (P2 : Vector3) :
  let C := d_start data in
  let P1 := d_end data in
  d_angleP2 data = Some P2 ->
  let radius := Vec.distanceTo C (d_offsetPoint data) in
  1 / 1000 <= radius ->
  let v1 := Vec.sub P1 C in
  let v2 := Vec.sub P2 C in
  Vec.cross v1 v2 <> Vec.zero ->
  exists mat s1 s2 arc lbl,
    buildAngleGeometry st data isPreview
    = Some [ Line [C; s1] mat; Line [C; s2] mat; Line arc mat; Label lbl ] /\
    s1 = Vec.add C (Vec.multiplyScalar (Vec.normalize v1) radius) /\
    s2 = Vec.add C (Vec.multiplyScalar (Vec.normalize v2) radius) /\
    Vec.distanceTo s1 C = radius /\ Vec.distanceTo s2 C = radius /\
    List.length arc = 25%nat /\
    Forall (fun q => Vec.distanceTo q C = radius) arc /\
    Forall (fun q => Vec.dot (Vec.cross v1 v2) (Vec.sub q C) = 0) arc /\
    nth 0 arc C = s1 /\
    (Number_EPSILON <= angleOf C P1 P2 -> nth 24 arc C = s2).
Proof.
  intros C P1 HP2 radius Hrad v1 v2 Hc.
  assert (Hv1 : v1 <> Vec.zero) by (intros E; apply Hc; rewrite E; apply cross_zero_l).
  assert (Hv2 : v2 <> Vec.zero) by (intros E; apply Hc; rewrite E; apply cross_zero_r).
  destruct (arc_frame v1 v2 Hc) as (Hn & Hx & Hy & Hxy & Hnx & Hny & _).
  cbv zeta in Hn, Hx, Hy, Hxy, Hnx, Hny.
  pose proof (second_arm_in_frame v1 v2 Hc) as Hend. cbv zeta in Hend.
  unfold buildAngleGeometry. rewrite HP2. fold C P1 radius v1 v2.
  destruct (Rlt_dec radius (1 / 1000)) as [Hlt | _]; [lra|].
  destruct (Rlt_dec (Vec.lengthSq (Vec.normalize (Vec.cross v1 v2)))
                    (1 / 10000)) as [Hlt | _]; [rewrite Hn in Hlt; lra|].
  set (n := Vec.normalize (Vec.cross v1 v2)) in *.
  set (x := Vec.normalize v1) in *.
  set (y := Vec.normalize (Vec.cross n x)) in *.
  change (angleOf C P1 P2) with (Vec.angleTo v1 v2).
  set (theta := Vec.angleTo v1 v2) in *.
  assert (Hr0 : 0 <= radius) by lra.
  eexists _, _, _, _, _. split; [reflexivity|].
  split; [reflexivity|]. split; [reflexivity|].
  split.
  { apply (distance_at (mkRay C x) radius Hr0). apply length_of_unit, Hx. }
  split.
  { apply (distance_at (mkRay C (Vec.normalize v2)) radius Hr0).
    apply length_of_unit, lengthSq_normalize, Hv2. }
  split; [reflexivity|].
  split.
  { unfold ellipsePoints. rewrite !Forall_map. apply Forall_forall.
    intros d _. unfold Vec.distanceTo.
    rewrite (distance_in_frame C x y _ _ Hx Hy Hxy).
    rewrite ellipsePoint_on_circle. apply sqrt_is; [exact Hr0 | reflexivity]. }
  split.
  { unfold ellipsePoints. rewrite !Forall_map. apply Forall_forall.
    intros d _.
    set (p := fst (ellipsePoint radius theta (INR d / INR 24))).
    set (q := snd (ellipsePoint radius theta (INR d / INR 24))).
    assert (Hcn : Vec.cross v1 v2
                  = Vec.multiplyScalar n (Vec.length (Vec.cross v1 v2))).
    { unfold n. rewrite (normalize_nonzero _ Hc).
      pose proof (length_pos _ Hc) as HL.
      destruct (Vec.cross v1 v2) as [cx cy cz] eqn:Ec.
      set (L := Vec.length (V3 cx cy cz)) in *. clearbody L.
      unfold Vec.multiplyScalar; simpl. apply V3_eq; field; lra. }
    rewrite Hcn, dot_multiplyScalar_l.
    transitivity (Vec.length (Vec.cross v1 v2)
                  * (p * Vec.dot n x + q * Vec.dot n y)).
    - f_equal. clearbody p q. destruct C, n, x, y.
      unfold Vec.dot, Vec.sub, Vec.add, Vec.multiplyScalar; simpl. ring.
    - rewrite Hnx, Hny. ring. }
  split.
  { unfold ellipsePoints. cbn [seq map nth].
    rewrite ellipsePoint_start. cbn [fst snd].
    destruct C, x, y; unfold Vec.add, Vec.multiplyScalar; simpl.
    apply V3_eq; ring. }
  intros Heps. unfold ellipsePoints. cbn [seq map nth].
  rewrite (ellipsePoint_end radius theta Heps). cbn [fst snd].
  rewrite Hend. fold n x y theta.
  destruct C, x, y; unfold Vec.add, Vec.multiplyScalar; simpl.
  apply V3_eq; ring.
Qed.

Lemma angle_arc_joins_arms_witness :
  exists g arc mat,
    buildAngleGeometry defaultStyle
      (mkData 0 dim_angle (V3 0 0 0) (V3 1 0 0) (V3 (1 / 2) 0 0)
              (Some (V3 0 1 0)) None) false
    = Some g /\
    nth_error g 2 = Some (Line arc mat) /\ List.length arc = 25%nat.
Proof.
  destruct (angle_arc_joins_arms defaultStyle
              (mkData 0 dim_angle (V3 0 0 0) (V3 1 0 0) (V3 (1 / 2) 0 0)
                      (Some (V3 0 1 0)) None)
              false (V3 0 1 0) eq_refl)
    as (mat & s1 & s2 & arc & lbl & Hb & _ & _ & _ & _ & Hlen & _).
  - cbn [d_start d_offsetPoint].
    replace (Vec.distanceTo (V3 0 0 0) (V3 (1 / 2) 0 0)) with (1 / 2); [lra|].
    symmetry. unfold Vec.distanceTo, Vec.distanceToSquared; simpl.
    apply sqrt_is; lra.
  - cbn [d_start d_end]. unfold Vec.cross, Vec.sub, Vec.zero; simpl.
    apply V3_neq_z. lra.
  - eexists _, arc, mat. split; [exact Hb|]. split; [reflexivity | exact Hlen].
Defined.

(** Rodrigues' rotation of a vector perpendicular to the unit axis. *)
Lemma applyAxisAngle_perpendicular (v n : Vector3) (phi : R) :
  Vec.lengthSq n = 1 -> Vec.dot n v = 0 ->
  applyAxisAngle v n phi
  = Vec.add (Vec.multiplyScalar v (cos phi))
            (Vec.multiplyScalar (Vec.cross n v) (sin phi)).
Proof.
  intros Hn Hnv.
  replace phi with (2 * (phi / 2)) at 2 3 by field.
  rewrite cos_2a_sin, sin_2a.
  unfold applyAxisAngle, setFromAxisAngle, applyQuaternion.
  cbn [qx qy qz qw].
  set (s := sin (phi / 2)). set (c := cos (phi / 2)). clearbody s c.
  unfold Vec.lengthSq in Hn.
  destruct v as [a b d], n as [nx ny nz].
  unfold Vec.dot in Hn, Hnv; simpl in Hn, Hnv.
  unfold Vec.add, Vec.multiplyScalar, Vec.cross; simpl.
  apply V3_eq.
  - transitivity
      (a * (1 - 2 * s * s) + (ny * d - nz * b) * (2 * s * c)
       + 2 * s * s * (nx * (nx * a + ny * b + nz * d)
                      - a * (nx * nx + ny * ny + nz * nz - 1))); [ring|].
    rewrite Hn, Hnv. ring.
  - transitivity
      (b * (1 - 2 * s * s) + (nz * a - nx * d) * (2 * s * c)
       + 2 * s * s * (ny * (nx * a + ny * b + nz * d)
                      - b * (nx * nx + ny * ny + nz * nz - 1))); [ring|].
    rewrite Hn, Hnv. ring.
  - transitivity
      (d * (1 - 2 * s * s) + (nx * b - ny * a) * (2 * s * c)
       + 2 * s * s * (nz * (nx * a + ny * b + nz * d)
                      - d * (nx * nx + ny * ny + nz * nz - 1))); [ring|].
    rewrite Hn, Hnv. ring.
Qed.

Lemma arc_yAxis (v1 v2 : Vector3) :
  Vec.cross v1 v2 <> Vec.zero ->
  let n := Vec.normalize (Vec.cross v1 v2) in
  let x := Vec.normalize v1 in
  Vec.normalize (Vec.cross n x) = Vec.cross n x.
Proof.
  intros Hc n x.
  destruct (arc_frame v1 v2 Hc) as (Hn & Hx & _ & _ & Hnx & _).
  cbv zeta in Hn, Hx, Hnx. fold n x in Hn, Hx, Hnx.
  apply normalize_unit. rewrite cross_lagrange, Hn, Hx, Hnx. ring.
Qed.

Lemma ellipsePoint_middle (radius endAngle : R) :
  Number_EPSILON <= endAngle ->
  ellipsePoint radius endAngle (INR 12 / INR 24)
  = (radius * cos (endAngle / 2), radius * sin (endAngle / 2)).
Proof.
  intros H. unfold ellipsePoint, ellipseDelta.
  destruct (Rlt_dec (endAngle - 0) Number_EPSILON) as [Hlt | _]; [lra|].
  replace (0 + INR 12 / INR 24 * (endAngle - 0)) with (endAngle / 2)
    by (simpl; field; lra).
  f_equal; ring.
Qed.

(** X20.  The label of an angle dimension sits outside the middle of its arc.
    Under the conditions of X19, a nonnegative scale and an angle of at least
    [Number.EPSILON], the label shows the angle in degrees with one decimal,
    lies in the plane of the arms, at distance [radius + 0.2 * scale] from
    the center, on the ray from the center through the middle point of the
    arc. *)
Theorem angle_label_outside_arc_middle
    (st : DimensionStyle) (data : DimensionData) (isPreview : bool)
    (P2 : Vector3) :
  let C := d_start data in
  let P1 := d_end data in
  d_angleP2 data = Some P2 ->
  let radius := Vec.distanceTo C (d_offsetPoint data) in
  1 / 1000 <= radius ->
  let v1 := Vec.sub P1 C in
  let v2 := Vec.sub P2 C in
  Vec.cross v1 v2 <> Vec.zero ->
  0 <= scale st ->
  Number_EPSILON <= angleOf C P1 P2 ->
  exists l1 l2 mat arc lbl,
    buildAngleGeometry st data isPreview
    = Some [ l1; l2; Line arc mat; Label lbl ] /\
    sp_message lbl = toFixed (radToDeg (angleOf C P1 P2)) 1 degreeSuffix /\
    Vec.distanceTo (sp_position lbl) C = radius + 2 / 10 * scale st /\
    Vec.dot (Vec.cross v1 v2) (Vec.sub (sp_position lbl) C) = 0 /\
    sp_position lbl
    = Vec.add C (Vec.multiplyScalar (Vec.sub (nth 12 arc C) C)
                                    ((radius + 2 / 10 * scale st) / radius)).
Proof.
  intros C P1 HP2 radius Hrad v1 v2 Hc Hscale Heps.
  destruct (arc_frame v1 v2 Hc) as (Hn & Hx & Hy & Hxy & Hnx & Hny & _).
  cbv zeta in Hn, Hx, Hy, Hxy, Hnx, Hny.
  pose proof (arc_yAxis v1 v2 Hc) as Ey. cbv zeta in Ey.
  unfold buildAngleGeometry. rewrite HP2. fold C P1 radius v1 v2.
  destruct (Rlt_dec radius (1 / 1000)) as [Hlt | _]; [lra|].
  destruct (Rlt_dec (Vec.lengthSq (Vec.normalize (Vec.cross v1 v2)))
                    (1 / 10000)) as [Hlt | _]; [rewrite Hn in Hlt; lra|].
  set (n := Vec.normalize (Vec.cross v1 v2)) in *.
  set (x := Vec.normalize v1) in *.
  set (y := Vec.normalize (Vec.cross n x)) in *.
  change (angleOf C P1 P2) with (Vec.angleTo v1 v2) in *.
  set (theta := Vec.angleTo v1 v2) in *.
  set (rho := radius + 2 / 10 * scale st).
  assert (Hrho : 0 <= rho) by (unfold rho; nra).
  assert (Hmid : applyAxisAngle x n (theta / 2)
                 = Vec.add (Vec.multiplyScalar x (cos (theta / 2)))
                           (Vec.multiplyScalar y (sin (theta / 2)))).
  { rewrite (applyAxisAngle_perpendicular x n (theta / 2) Hn Hnx).
    fold y in Ey. rewrite <- Ey. reflexivity. }
  eexists _, _, _, _, _. split; [reflexivity|].
  cbn [sp_message sp_position placeSprite createTextSprite].
  split; [reflexivity|].
  rewrite Hmid. fold rho.
  assert (Epos : Vec.add C
                   (Vec.multiplyScalar
                      (Vec.add (Vec.multiplyScalar x (cos (theta / 2)))
                               (Vec.multiplyScalar y (sin (theta / 2)))) rho)
                 = Vec.add (Vec.add C (Vec.multiplyScalar
                                         x (rho * cos (theta / 2))))
                           (Vec.multiplyScalar y (rho * sin (theta / 2)))).
  { destruct C, x, y; unfold Vec.add, Vec.multiplyScalar; simpl.
    apply V3_eq; ring. }
  split.
  { rewrite Epos. unfold Vec.distanceTo.
    rewrite (distance_in_frame C x y _ _ Hx Hy Hxy).
    apply sqrt_is; [exact Hrho|].
    pose proof (sin2_cos2 (theta / 2)) as H. unfold Rsqr in H.
    transitivity (rho * rho * (sin (theta / 2) * sin (theta / 2)
                               + cos (theta / 2) * cos (theta / 2))).
    - rewrite H. ring.
    - ring. }
  split.
  { rewrite Epos.
    assert (Hcn : Vec.cross v1 v2
                  = Vec.multiplyScalar n (Vec.length (Vec.cross v1 v2))).
    { unfold n. rewrite (normalize_nonzero _ Hc).
      pose proof (length_pos _ Hc) as HL.
      destruct (Vec.cross v1 v2) as [cx cy cz] eqn:Ec.
      set (L := Vec.length (V3 cx cy cz)) in *. clearbody L.
      unfold Vec.multiplyScalar; simpl. apply V3_eq; field; lra. }
    rewrite Hcn, dot_multiplyScalar_l.
    transitivity (Vec.length (Vec.cross v1 v2)
                  * (rho * cos (theta / 2) * Vec.dot n x
                     + rho * sin (theta / 2) * Vec.dot n y)).
    - f_equal. destruct C, n, x, y.
      unfold Vec.dot, Vec.sub, Vec.add, Vec.multiplyScalar; simpl. ring.
    - rewrite Hnx, Hny. ring. }
  unfold ellipsePoints. cbn [seq map nth].
  rewrite (ellipsePoint_middle radius theta Heps). cbn [fst snd].
  assert (Hr : radius <> 0) by lra.
  destruct C, x, y; unfold Vec.add, Vec.sub, Vec.multiplyScalar; simpl.
  apply V3_eq; field; exact Hr.
Qed.

Lemma angle_label_outside_arc_middle_witness :
  exists g lbl,
    buildAngleGeometry defaultStyle
      (mkData 0 dim_angle (V3 0 0 0) (V3 1 0 0) (V3 (1 / 2) 0 0)
              (Some (V3 0 1 0)) None) false
    = Some g /\
    nth_error g 3 = Some (Label lbl) /\
    sp_message lbl
    = toFixed (radToDeg (angleOf (V3 0 0 0) (V3 1 0 0) (V3 0 1 0))) 1
              degreeSuffix.
Proof.
  destruct (angle_label_outside_arc_middle defaultStyle
              (mkData 0 dim_angle (V3 0 0 0) (V3 1 0 0) (V3 (1 / 2) 0 0)
                      (Some (V3 0 1 0)) None)
              false (V3 0 1 0) eq_refl)
    as (l1 & l2 & mat & arc & lbl & Hb & Hmsg & _).
  - cbn [d_start d_offsetPoint].
    replace (Vec.distanceTo (V3 0 0 0) (V3 (1 / 2) 0 0)) with (1 / 2); [lra|].
    symmetry. unfold Vec.distanceTo, Vec.distanceToSquared; simpl.
    apply sqrt_is; lra.
  - cbn [d_start d_end]. unfold Vec.cross, Vec.sub, Vec.zero; simpl.
    apply V3_neq_z. lra.
  - cbn [scale defaultStyle]. lra.
  - cbn [d_start d_end]. rewrite angleOf_right.
    pose proof Number_EPSILON_le_1. pose proof PI_RGT_0.
    pose proof PI2_3_2. lra.
  - eexists _, lbl. split; [exact Hb|]. split; [reflexivity | exact Hmsg].
Defined.

(** ** The plane of a clicked face *)

Lemma dot_multiplyScalar_r (u v : Vector3) (k : R) :
  Vec.dot u (Vec.multiplyScalar v k) = k * Vec.dot u v.
Proof. destruct u, v; unfold Vec.dot, Vec.multiplyScalar; simpl; ring. Qed.

Lemma normalize_as_scaling (v : Vector3) :
  exists k : R, Vec.normalize v = Vec.multiplyScalar v k.
Proof. eexists. reflexivity. Qed.

(** The inverse transpose takes normals to normals: what is perpendicular
    before the transformation is perpendicular after it. *)
Lemma applyNormalMatrixOf_perpendicular (fn t : Vector3) (m : Matrix4) :
  det3 m <> 0 -> Vec.dot fn t = 0 ->
  Vec.dot (applyNormalMatrixOf fn m) (linearPart m t) = 0.
Proof.
  intros Hdet Hperp. unfold applyNormalMatrixOf. cbv zeta.
  unfold det3 in Hdet.
  destruct (Req_dec_T _ 0) as [E | _]; [contradiction|].
  match goal with
  | |- Vec.dot (Vec.normalize ?w) _ = 0 =>
      destruct (normalize_as_scaling w) as [k ->]
  end.
  rewrite dot_multiplyScalar_l.
  match goal with
  | |- k * ?d = 0 => assert (Hd : d = Vec.dot fn t); [| rewrite Hd, Hperp; ring]
  end.
  destruct fn as [a b c], t as [x y z].
  unfold Vec.dot, linearPart; simpl. field. exact Hdet.
Qed.

(** X21.  The plane of a clicked face.  In state [defining_cplane_face] the
    click looks at the raw ray cast, not at the snap.  If its first hit has a
    face, the system goes to idle with an empty buffer, the plane's origin is
    the raw hit point and its normal has length 1 or 0; when the linear part
    of the object's world matrix is invertible, the normal is perpendicular
    to the world image of every direction that lies in the face.  If the ray
    cast is empty or its first hit has no face, the click changes nothing but
    the snap helpers and the state stays [defining_cplane_face]. *)
Theorem plane_from_face (ev : PointerEvent) (s : DimensionSystem) :
  state s = defining_cplane_face ->
  let m := snd (getSnapPoint (snappingManager s) (ev_intersects ev)) in
  match ev_rawIntersects ev with
  | hit :: _ =>
      match hit_face hit with
      | Some f =>
          exists s',
            onClick ev s = Some s' /\ state s' = idle /\
            startPoint s' = None /\ endPoint s' = None /\ angleP2 s' = None /\
            cp_origin (cplane s') = hit_point hit /\
            unitOrZero (cp_normal (cplane s')) /\
            (det3 (matrixWorldOf (hit_object hit)) <> 0 ->
             forall t, Vec.dot (face_normal f) t = 0 ->
                       Vec.dot (cp_normal (cplane s'))
                               (linearPart (matrixWorldOf (hit_object hit)) t)
                       = 0)
      | None => onClick ev s = Some (withSnapping m s)
      end
  | [] => onClick ev s = Some (withSnapping m s)
  end.
Proof.
  intros Hst m. unfold onClick. rewrite getSnapPoint_pair. fold m.
  cbn [withSnapping state]. rewrite Hst.
  destruct (ev_rawIntersects ev) as [| hit rest]; [reflexivity|].
  destruct (hit_face hit) as [f |]; [| reflexivity].
  eexists. split; [reflexivity|].
  unfold reset, setCPlane.
  cbn [state startPoint endPoint angleP2 cplane cp_origin cp_normal].
  split; [reflexivity|]. split; [reflexivity|]. split; [reflexivity|].
  split; [reflexivity|]. split; [reflexivity|].
  split; [apply normalize_unitOrZero|].
  intros Hdet t Ht.
  destruct (normalize_as_scaling
              (applyNormalMatrixOf (face_normal f)
                                   (matrixWorldOf (hit_object hit))))
    as [k ->].
  rewrite dot_multiplyScalar_l,
    (applyNormalMatrixOf_perpendicular _ _ _ Hdet Ht). ring.
Qed.

Lemma plane_from_face_witness :
  onClick (mkEvent (mkRay (V3 0 0 5) (V3 0 0 (-1))) [] [] None)
          (startDefineCPlaneFromFace newDimensionSystem)
  = Some (withSnapping
            (snd (getSnapPoint
                    (snappingManager
                       (startDefineCPlaneFromFace newDimensionSystem)) []))
            (startDefineCPlaneFromFace newDimensionSystem)).
Proof.
  exact (plane_from_face
           (mkEvent (mkRay (V3 0 0 5) (V3 0 0 (-1))) [] [] None)
           (startDefineCPlaneFromFace newDimensionSystem) eq_refl).
Defined.

(** ** The demo's pointer coordinates and snappable objects *)

(** X22.  The pointer position in normalized device coordinates.  For a
    canvas of positive width and height, the pointer is over the canvas
    exactly when both coordinates lie between -1 and 1; the left edge maps to
    -1 and the right edge to 1, the top edge to 1 and the bottom edge to -1,
    the centre to (0, 0), and the client position is recovered from the
    coordinates. *)
Theorem pointerNDC_range (clientX clientY left top width height : R) :
  0 < width -> 0 < height ->
  let x := fst (pointerNDC clientX clientY left top width height) in
  let y := snd (pointerNDC clientX clientY left top width height) in
  (-1 <= x <= 1 <-> left <= clientX <= left + width) /\
  (-1 <= y <= 1 <-> top <= clientY <= top + height) /\
  (clientX = left <-> x = -1) /\ (clientX = left + width <-> x = 1) /\
  (clientY = top <-> y = 1) /\ (clientY = top + height <-> y = -1) /\
  pointerNDC (left + width / 2) (top + height / 2) left top width height
  = (0, 0) /\
  clientX = left + (x + 1) / 2 * width /\
  clientY = top + (1 - y) / 2 * height.
Proof.
  intros Hw Hh. cbv zeta. unfold pointerNDC. cbn [fst snd].
  set (u := (clientX - left) / width).
  set (w := (clientY - top) / height).
  assert (Hu : clientX = left + u * width) by (unfold u; field; lra).
  assert (Hv : clientY = top + w * height) by (unfold w; field; lra).
  assert (Hu1 : forall c, u * width <= c * width <-> u <= c).
  { intros c. split; intros H; nra. }
  assert (Hu2 : forall c, c * width <= u * width <-> c <= u).
  { intros c. split; intros H; nra. }
  assert (Hw1 : forall c, w * height <= c * height <-> w <= c).
  { intros c. split; intros H; nra. }
  assert (Hw2 : forall c, c * height <= w * height <-> c <= w).
  { intros c. split; intros H; nra. }
  pose proof (Hu1 1) as A1. pose proof (Hu2 0) as A0.
  pose proof (Hw1 1) as B1. pose proof (Hw2 0) as B0.
  split; [split; intros [H1 H2]; split; try lra; nra|].
  split; [split; intros [H1 H2]; split; try lra; nra|].
  split; [split; intros H; nra|].
  split; [split; intros H; nra|].
  split; [split; intros H; nra|].
  split; [split; intros H; nra|].
  split; [f_equal; field; lra|].
  split; [rewrite Hu at 1; field | rewrite Hv at 1; field].
Qed.

Lemma pointerNDC_range_witness :
  pointerNDC (0 + 800 / 2) (0 + 600 / 2) 0 0 800 600 = (0, 0).
Proof.
  refine (proj1 (proj2 (proj2 (proj2 (proj2 (proj2 (proj2
    (pointerNDC_range 400 300 0 0 800 600 _ _)))))))); lra.
Defined.

(** X23.  A scene as the demo builds it: the dimensions group is a child of
    the scene, every dimension is a group below it, and the primitives of a
    dimension are that group's children.  Every object that
    [getSnappableObjects] returns is a visited mesh other than the snap
    marker, is none of the three filtered objects and is no direct child of
    one of them.  The filter looks one level down only: a mesh among the
    primitives of a dimension (an arrow cone) is two levels below the
    dimensions group and is returned. *)
Theorem getSnappableObjects_one_level
    (dimensionsGroup previewGroup cplaneHelper marker : nat)
    (scene : SceneNode) :
  (forall p c m,
      In (p, c, m)
         (getSnappableObjects dimensionsGroup previewGroup cplaneHelper marker
                              scene) ->
      In (p, c, m) (traverse None scene) /\ m = true /\ c <> marker /\
      isOneOf c dimensionsGroup previewGroup cplaneHelper = false /\
      (forall q, p = Some q ->
                 isOneOf q dimensionsGroup previewGroup cplaneHelper = false))
  /\
  (forall root rm top dm groups g gm prims c cs,
      scene = Node root rm top ->
      In (Node dimensionsGroup dm groups) top ->
      In (Node g gm prims) groups ->
      In (Node c true cs) prims ->
      isOneOf g dimensionsGroup previewGroup cplaneHelper = false ->
      isOneOf c dimensionsGroup previewGroup cplaneHelper = false ->
      c <> marker ->
      In (Some g, c, true)
         (getSnappableObjects dimensionsGroup previewGroup cplaneHelper marker
                              scene)).
Proof.
  split.
  - intros p c m Hin. unfold getSnappableObjects in Hin.
    apply filter_In in Hin. destruct Hin as [Hin Hf].
    split; [exact Hin|]. unfold snappable in Hf.
    destruct (isOneOf c dimensionsGroup previewGroup cplaneHelper) eqn:Hc;
      [discriminate|].
    destruct m; [| destruct p as [q |];
                   [destruct (isOneOf q _ _ _); discriminate | discriminate]].
    destruct p as [q |].
    + destruct (isOneOf q dimensionsGroup previewGroup cplaneHelper) eqn:Hq;
        [discriminate|].
      repeat split; try reflexivity.
      * intros ->. rewrite Nat.eqb_refl in Hf. discriminate.
      * intros q' [= <-]. exact Hq.
    + repeat split; try reflexivity.
      * intros ->. rewrite Nat.eqb_refl in Hf. discriminate.
      * intros q' [=].
  - intros root rm top dm groups g gm prims c cs -> Htop Hg Hc Hng Hnc Hm.
    unfold getSnappableObjects. apply filter_In. split.
    + cbn [traverse]. right. apply in_flat_map.
      exists (Node dimensionsGroup dm groups). split; [exact Htop|].
      cbn [traverse]. right. apply in_flat_map.
      exists (Node g gm prims). split; [exact Hg|].
      cbn [traverse]. right. apply in_flat_map.
      exists (Node c true cs). split; [exact Hc|].
      cbn [traverse]. left. reflexivity.
    + unfold snappable. rewrite Hnc, Hng.
      apply Bool.negb_true_iff, Nat.eqb_neq. exact Hm.
Qed.

Lemma getSnappableObjects_one_level_witness :
  In (Some 10%nat, 11%nat, true)
     (getSnappableObjects 1 2 3 4
        (Node 0 false
           [Node 1 false [Node 10 false [Node 11 true []]];
            Node 2 false []; Node 3 false []])).
Proof.
  refine (proj2 (getSnappableObjects_one_level 1 2 3 4
                   (Node 0 false
                      [Node 1 false [Node 10 false [Node 11 true []]];
                       Node 2 false []; Node 3 false []]))
                0%nat false _ false _ 10%nat false _ 11%nat []
                eq_refl _ _ _ eq_refl eq_refl _).
  - left. reflexivity.
  - left. reflexivity.
  - left. reflexivity.
  - discriminate.
Defined.

(** ** Styles applied one after the other *)

Lemma pick_later {A : Type} (o1 o2 : option A) (d : A) :
  pick o2 (pick o1 d) = pick (later o1 o2) d.
Proof. destruct o1, o2; reflexivity. Qed.

Lemma mergeStyle_overlay (st : DimensionStyle) (p1 p2 : PartialStyle) :
  mergeStyle (mergeStyle st p1) p2 = mergeStyle st (overlay p1 p2).
Proof.
  unfold mergeStyle, overlay. cbn.
  rewrite !pick_later. reflexivity.
Qed.

(** X24.  Two style updates in a row are one update with the second laid
    over the first: a key of the second wins, a key only in the first stays.
    A style update rebuilds the stored dimensions under the merged style and
    leaves the records, the id counter and the preview group as they are, so
    a preview on screen keeps the style it was built with. *)
Theorem setStyle_twice (p1 p2 : PartialStyle) (r : DimensionRenderer) :
  setStyle p2 (setStyle p1 r) = setStyle (overlay p1 p2) r /\
  dimensionData (setStyle p1 r) = dimensionData r /\
  nextId (setStyle p1 r) = nextId r /\
  previewGroup (setStyle p1 r) = previewGroup r /\
  dimensionsGroup (setStyle p1 r)
  = rebuildGroups (mergeStyle (style r) p1) (dimensionData r).
Proof.
  unfold setStyle, rebuildAll. cbn.
  rewrite mergeStyle_overlay. repeat split; reflexivity.
Qed.

(** ** Snapping switched off *)

Lemma getSnapPoint_disabled (m : SnappingManager) (xs : list Intersection) :
  enabled m = false -> getSnapPoint m xs = (None, hideHelpers m).
Proof. intros H. unfold getSnapPoint. rewrite H. reflexivity. Qed.

Lemma hideHelpers_idem (m : SnappingManager) :
  hideHelpers (hideHelpers m) = hideHelpers m.
Proof. reflexivity. Qed.

Lemma handle_idle_disabled (i : Input) (s : DimensionSystem) :
  enabled (snappingManager s) = false -> state s = idle ->
  handle i s = Some (withSnapping (hideHelpers (snappingManager s)) s).
Proof.
  intros Hen Hst. destruct s as [sm rend md cp st sp ep a2].
  cbn in Hen, Hst. subst st.
  destruct i as [ev | ev]; unfold handle, onMouseMove, onClick;
    cbn [snappingManager]; rewrite (getSnapPoint_disabled _ _ Hen);
    cbn; [destruct md, sp, ep, a2; reflexivity | reflexivity].
Qed.

(** X25.  With snapping switched off nothing can be started.  From idle, any
    sequence of mouse moves and clicks runs without error and leaves the
    system as it was, in state idle, except that after the first event both
    snap helpers are hidden: no record, no preview, no buffered point, no
    change of plane, and snapping stays off. *)
Theorem disabled_snapping_starts_nothing
    (inputs : list Input) (s : DimensionSystem) :
  enabled (snappingManager s) = false -> state s = idle ->
  run inputs s
  = Some (match inputs with
          | [] => s
          | _ :: _ => withSnapping (hideHelpers (snappingManager s)) s
          end).
Proof.
  intros Hen Hst.
  assert (Hgen : forall (l : list Input) (t : DimensionSystem),
             enabled (snappingManager t) = false -> state t = idle ->
             forall i, run (i :: l) t
                       = Some (withSnapping (hideHelpers (snappingManager t)) t)).
  { induction l as [| j l IH]; intros t Ht Hs i.
    - cbn [run]. rewrite (handle_idle_disabled i t Ht Hs). reflexivity.
    - change (run (i :: j :: l) t)
        with (match handle i t with
              | Some s' => run (j :: l) s'
              | None => None
              end).
      rewrite (handle_idle_disabled i t Ht Hs).
      rewrite IH.
      + destruct t; reflexivity.
      + destruct t; exact Ht.
      + destruct t; exact Hs. }
  destruct inputs as [| i l]; [reflexivity|].
  apply Hgen; assumption.
Qed.

Lemma disabled_snapping_starts_nothing_witness :
  run [Click (mkEvent (mkRay (V3 0 0 5) (V3 0 0 (-1))) [] [] None)]
      (withSnapping (disable newSnappingManager) newDimensionSystem)
  = Some (withSnapping
            (hideHelpers
               (snappingManager
                  (withSnapping (disable newSnappingManager)
                                newDimensionSystem)))
            (withSnapping (disable newSnappingManager) newDimensionSystem)).
Proof.
  exact (disabled_snapping_starts_nothing
           [Click (mkEvent (mkRay (V3 0 0 5) (V3 0 0 (-1))) [] [] None)]
           (withSnapping (disable newSnappingManager) newDimensionSystem)
           eq_refl eq_refl).
Defined.
